(** * nox-plugin-arch-lint: a shallow embedding of the scan pipeline

    The development follows [main.go]: the compiled pattern tables, the
    line-oriented file parser, the workspace walk that fills the import
    graph, and the four analyzers (ARCH-001 .. ARCH-004).

    Go values are modelled as follows.
    - [string] is a byte string (Go strings are byte sequences); the
      regular expressions are matched byte-wise, which coincides with
      Go's rune-wise matching for the patterns of this program (the two
      non-ASCII runes that Go folds onto [k] and [s] under [(?i)] are
      written out as their UTF-8 encodings).
    - [int] is [Z].  The only arithmetic is counting lines and exports of
      one file, bounded by the length of a slice, so no wrap-around occurs.
    - [map[string][]string] is a [gmap string (list string)].
    - the response builder is the list of findings emitted so far. *)

From Stdlib Require Import ZArith Ascii String DecimalString DecimalPos DecimalZ Sorted.
From stdpp Require Import gmap strings list fin_maps.

Local Open Scope Z_scope.

(** ** Bytes and strings *)

Definition dquote : ascii := "034"%char.
Definition squote : ascii := "039"%char.

Definition byte_in (lo hi : N) (c : ascii) : bool :=
  ((lo <=? N_of_ascii c) && (N_of_ascii c <=? hi))%N.

Definition is_byte (n : N) (c : ascii) : bool := (N_of_ascii c =? n)%N.

Definition bytes (s : string) : list ascii := list_ascii_of_string s.
Definition str (l : list ascii) : string := string_of_list_ascii l.

(** ** Package [regexp]: a backtracking matcher with Go's leftmost-first
    preference order (alternatives left to right, greedy repetition). *)

Module regexp.

Inductive Regexp : Type :=
| Eps
| Class (p : ascii -> bool)
| Cat (r1 r2 : Regexp)
| Alt (r1 r2 : Regexp)
| Star (r : Regexp)
| Group (i : nat) (r : Regexp)
| Bol.

Record mstate : Type := MState {
  pos : nat;                          (* bytes consumed since the start of the text *)
  rest : list ascii;                  (* text still to be read *)
  caps : list (nat * list ascii)      (* capture groups closed so far, latest first *)
}.

Definition cont : Type := mstate -> option mstate.

Definition set_cap (i : nat) (v : list ascii) (st : mstate) : mstate :=
  MState (pos st) (rest st) ((i, v) :: caps st).

Fixpoint get_cap (i : nat) (cs : list (nat * list ascii)) : list ascii :=
  match cs with
  | [] => []
  | (j, v) :: cs' => if Nat.eqb i j then v else get_cap i cs'
  end.

(** Greedy repetition: one more iteration is tried before the
    continuation; an iteration that consumes nothing is not repeated. *)
Fixpoint star_loop (body : mstate -> cont -> option mstate)
    (fuel : nat) (st : mstate) (k : cont) : option mstate :=
  match fuel with
  | O => k st
  | S fuel' =>
      match body st (fun st' =>
              if Nat.ltb (length (rest st')) (length (rest st))
              then star_loop body fuel' st' k else None) with
      | Some r => Some r
      | None => k st
      end
  end.

Fixpoint rx (r : Regexp) (st : mstate) (k : cont) : option mstate :=
  match r with
  | Eps => k st
  | Class p =>
      match rest st with
      | c :: s => if p c then k (MState (S (pos st)) s (caps st)) else None
      | [] => None
      end
  | Cat r1 r2 => rx r1 st (fun st' => rx r2 st' k)
  | Alt r1 r2 =>
      match rx r1 st k with
      | Some x => Some x
      | None => rx r2 st k
      end
  | Star r' => star_loop (rx r') (length (rest st)) st k
  | Group i r' =>
      rx r' st (fun st' =>
        k (set_cap i (take (length (rest st) - length (rest st')) (rest st)) st'))
  | Bol => if Nat.eqb (pos st) 0 then k st else None
  end.

(** Leftmost match: start positions are tried from the left. *)
Fixpoint find_from (r : Regexp) (p : nat) (s : list ascii)
  : option (list ascii * mstate) :=
  match rx r (MState p s []) Some with
  | Some st => Some (take (pos st - p) s, st)
  | None =>
      match s with
      | [] => None
      | _ :: s' => find_from r (S p) s'
      end
  end.

Fixpoint ngroups (r : Regexp) : nat :=
  match r with
  | Eps | Class _ | Bol => 0
  | Cat r1 r2 | Alt r1 r2 => Nat.max (ngroups r1) (ngroups r2)
  | Star r' => ngroups r'
  | Group i r' => Nat.max i (ngroups r')
  end.

(** [re.FindStringSubmatch(s)]: [nil] when there is no match, else the
    whole match followed by the text of each group ([""] for a group that
    did not take part). *)
Definition FindStringSubmatch (r : Regexp) (s : string) : list string :=
  match find_from r 0 (bytes s) with
  | None => []
  | Some (whole, st) =>
      str whole :: map (fun i => str (get_cap i (caps st))) (seq 1 (ngroups r))
  end.

(** [re.MatchString(s)] *)
Definition MatchString (r : Regexp) (s : string) : bool :=
  match find_from r 0 (bytes s) with
  | None => false
  | Some _ => true
  end.

(** *** Pattern syntax *)

Definition plus (r : Regexp) : Regexp := Cat r (Star r).
Definition opt (r : Regexp) : Regexp := Alt r Eps.

Fixpoint cats (rs : list Regexp) : Regexp :=
  match rs with
  | [] => Eps
  | [r] => r
  | r :: rs' => Cat r (cats rs')
  end.

Fixpoint alts (rs : list Regexp) : Regexp :=
  match rs with
  | [] => Class (fun _ => false)
  | [r] => r
  | r :: rs' => Alt r (alts rs')
  end.

Definition chr (c : ascii) : Regexp := Class (Ascii.eqb c).

Definition lit (s : string) : Regexp := cats (map chr (bytes s)).

(** [\s], [\S], [\w] and [.] as Go's syntax package defines them. *)
Definition is_space (c : ascii) : bool :=
  is_byte 9 c || is_byte 10 c || is_byte 12 c || is_byte 13 c || is_byte 32 c.
Definition is_word (c : ascii) : bool :=
  byte_in 48 57 c || byte_in 65 90 c || byte_in 97 122 c || is_byte 95 c.
Definition is_upper (c : ascii) : bool := byte_in 65 90 c.
Definition is_lower (c : ascii) : bool := byte_in 97 122 c.
Definition is_alpha (c : ascii) : bool := is_upper c || is_lower c.

Definition ws : Regexp := Class is_space.
Definition nonws : Regexp := Class (fun c => negb (is_space c)).
Definition word : Regexp := Class is_word.
Definition dot : Regexp := Class (fun c => negb (is_byte 10 c)).

(** Case folding for [(?i)].  Go folds by Unicode simple folding, so [k]
    also matches U+212A (bytes E2 84 AA) and [s] also matches U+017F
    (bytes C5 BF); the same two runes join [\w]. *)
Definition to_lower (c : ascii) : ascii :=
  if is_upper c then ascii_of_N (N_of_ascii c + 32) else c.

Definition kelvin : Regexp := cats [Class (is_byte 226); Class (is_byte 132); Class (is_byte 170)].
Definition long_s : Regexp := cats [Class (is_byte 197); Class (is_byte 191)].

Definition ichr (c : ascii) : Regexp :=
  let l := to_lower c in
  let base := Class (fun x => Ascii.eqb (to_lower x) l) in
  if is_alpha c then
    if is_byte 107 l then Alt base kelvin
    else if is_byte 115 l then Alt base long_s
    else base
  else chr c.

Definition ilit (s : string) : Regexp := cats (map ichr (bytes s)).
Definition iword : Regexp := alts [word; long_s; kelvin].

End regexp.

Import regexp.

(** ** Compiled regex patterns

    Each pattern is preceded by its source text.  In these comments <dq>
    stands for the double quote character, and a blank separates a star
    from a closing parenthesis that follows it. *)

Definition not_dquote (c : ascii) : bool := negb (Ascii.eqb c dquote).
Definition is_quote (c : ascii) : bool := Ascii.eqb c squote || Ascii.eqb c dquote.

(** *** ARCH-001: circular dependency risk patterns *)

(** [^\s*<dq>([^<dq>]+)<dq>] *)
Definition reGoImport : Regexp :=
  cats [Bol; Star ws; chr dquote; Group 1 (plus (Class not_dquote)); chr dquote].

(** [(?:^from\s+(\S+)\s+import|^import\s+(\S+))] *)
Definition rePyImport : Regexp :=
  Alt (cats [Bol; lit "from"; plus ws; Group 1 (plus nonws); plus ws; lit "import"])
      (cats [Bol; lit "import"; plus ws; Group 2 (plus nonws)]).

(** [(?:(?:import\s+.*\s+from|require)\s*\(?\s*['<dq>](\.[^'<dq>]+)['<dq>])] *)
Definition reJSImport : Regexp :=
  cats [Alt (cats [lit "import"; plus ws; Star dot; plus ws; lit "from"]) (lit "require");
        Star ws; opt (lit "("); Star ws; Class is_quote;
        Group 1 (Cat (lit ".") (plus (Class (fun c => negb (is_quote c)))));
        Class is_quote].

(** *** ARCH-002: export patterns *)

(** [^(?:func|type|var|const)\s+([A-Z]\w* )] *)
Definition reGoExport : Regexp :=
  cats [Bol; alts [lit "func"; lit "type"; lit "var"; lit "const"]; plus ws;
        Group 1 (Cat (Class is_upper) (Star word))].

(** [^(?:def|class)\s+([A-Za-z]\w* )\s*[\(:]] *)
Definition rePyExport : Regexp :=
  cats [Bol; alts [lit "def"; lit "class"]; plus ws;
        Group 1 (Cat (Class is_alpha) (Star word)); Star ws;
        Class (fun c => is_byte 40 c || is_byte 58 c)].

(** [(?:^export\s+(?:default\s+)?(?:function|class|const|let|var|interface|type|enum)\s+(\w+)|^module\.exports)] *)
Definition reJSExport : Regexp :=
  Alt (cats [Bol; lit "export"; plus ws; opt (Cat (lit "default") (plus ws));
             alts [lit "function"; lit "class"; lit "const"; lit "let"; lit "var";
                   lit "interface"; lit "type"; lit "enum"];
             plus ws; Group 1 (plus word)])
      (cats [Bol; lit "module.exports"]).

(** [^__all__\s*=] *)
Definition rePyAllExport : Regexp :=
  cats [Bol; lit "__all__"; Star ws; lit "="].

(** *** ARCH-003: security-critical code patterns *)

(** [(?i)(?:crypto/|golang\.org/x/crypto|bcrypt|argon2|hmac\.New|cipher\.|hash\.)] *)
Definition reCryptoGo : Regexp :=
  alts [ilit "crypto/"; ilit "golang.org/x/crypto"; ilit "bcrypt"; ilit "argon2";
        ilit "hmac.New"; ilit "cipher."; ilit "hash."].

(** [(?i)(?:from\s+cryptography|import\s+hashlib|import\s+hmac|from\s+Crypto|bcrypt\.|passlib\.)] *)
Definition reCryptoPy : Regexp :=
  alts [cats [ilit "from"; plus ws; ilit "cryptography"];
        cats [ilit "import"; plus ws; ilit "hashlib"];
        cats [ilit "import"; plus ws; ilit "hmac"];
        cats [ilit "from"; plus ws; ilit "Crypto"];
        ilit "bcrypt."; ilit "passlib."].

(** [(?i)(?:require\s*\(\s*['<dq>]crypto['<dq>]|from\s+['<dq>]crypto['<dq>]|bcrypt|argon2|jsonwebtoken|jose)] *)
Definition reCryptoJS : Regexp :=
  alts [cats [ilit "require"; Star ws; lit "("; Star ws; Class is_quote; ilit "crypto"; Class is_quote];
        cats [ilit "from"; plus ws; Class is_quote; ilit "crypto"; Class is_quote];
        ilit "bcrypt"; ilit "argon2"; ilit "jsonwebtoken"; ilit "jose"].

(** [(?i)(?:func\s+\w*(?:Auth|Login|Verify|Validate(?:Token|JWT|Password)))\s*\(] *)
Definition reAuthGo : Regexp :=
  cats [ilit "func"; plus ws; Star iword;
        alts [ilit "Auth"; ilit "Login"; ilit "Verify";
              Cat (ilit "Validate") (alts [ilit "Token"; ilit "JWT"; ilit "Password"])];
        Star ws; lit "("].

(** [(?i)(?:def\s+\w*(?:auth|login|verify|validate_(?:token|jwt|password)))\s*\(] *)
Definition reAuthPy : Regexp :=
  cats [ilit "def"; plus ws; Star iword;
        alts [ilit "auth"; ilit "login"; ilit "verify";
              Cat (ilit "validate_") (alts [ilit "token"; ilit "jwt"; ilit "password"])];
        Star ws; lit "("].

(** [(?i)(?:function\s+\w*(?:auth|login|verify|validate(?:Token|JWT|Password)))\s*\(] *)
Definition reAuthJS : Regexp :=
  cats [ilit "function"; plus ws; Star iword;
        alts [ilit "auth"; ilit "login"; ilit "verify";
              Cat (ilit "validate") (alts [ilit "Token"; ilit "JWT"; ilit "Password"])];
        Star ws; lit "("].

(** [(?i)(?:func|def|function)\s+\w*(?:handle|process|create|update|delete|get|list|fetch|save|submit|calculate|compute)\w*\s*\(] *)
Definition reBizLogic : Regexp :=
  cats [alts [ilit "func"; ilit "def"; ilit "function"]; plus ws; Star iword;
        alts [ilit "handle"; ilit "process"; ilit "create"; ilit "update"; ilit "delete";
              ilit "get"; ilit "list"; ilit "fetch"; ilit "save"; ilit "submit";
              ilit "calculate"; ilit "compute"];
        Star iword; Star ws; lit "("].

(** [(?i)(?:\.(?:Query|Exec|Execute|Find|Create|Save|Delete|Remove|Insert|Update)\s*\(|SELECT\s|INSERT\s|UPDATE\s|DELETE\s)] *)
Definition reDBAccess : Regexp :=
  alts [cats [lit ".";
              alts [ilit "Query"; ilit "Exec"; ilit "Execute"; ilit "Find"; ilit "Create";
                    ilit "Save"; ilit "Delete"; ilit "Remove"; ilit "Insert"; ilit "Update"];
              Star ws; lit "("];
        Cat (ilit "SELECT") ws; Cat (ilit "INSERT") ws;
        Cat (ilit "UPDATE") ws; Cat (ilit "DELETE") ws].

(** [(?i)(?:app\.(?:get|post|put|delete|patch)|http\.HandleFunc|router\.|@app\.route)] *)
Definition reHTTPRoute : Regexp :=
  alts [Cat (ilit "app.") (alts [ilit "get"; ilit "post"; ilit "put"; ilit "delete"; ilit "patch"]);
        ilit "http.HandleFunc"; ilit "router."; ilit "@app.route"].

(** *** ARCH-004: missing abstraction layer patterns *)

(** [(?i)(?:SELECT\s+.+\s+FROM|INSERT\s+INTO|UPDATE\s+.+\s+SET|DELETE\s+FROM|db\.(?:Query|Exec|Execute|Raw)\s*\()] *)
Definition reSQLInHandler : Regexp :=
  alts [cats [ilit "SELECT"; plus ws; plus dot; plus ws; ilit "FROM"];
        cats [ilit "INSERT"; plus ws; ilit "INTO"];
        cats [ilit "UPDATE"; plus ws; plus dot; plus ws; ilit "SET"];
        cats [ilit "DELETE"; plus ws; ilit "FROM"];
        cats [ilit "db."; alts [ilit "Query"; ilit "Exec"; ilit "Execute"; ilit "Raw"];
              Star ws; lit "("]].

(** [(?i)(?:func\s+\w*(?:Handle|handler|Controller|Ctrl)\w*|def\s+\w*(?:view|handler|controller)\w*|(?:app|router)\.\s*(?:get|post|put|delete|patch))] *)
Definition reHandlerFunc : Regexp :=
  alts [cats [ilit "func"; plus ws; Star iword;
              alts [ilit "Handle"; ilit "handler"; ilit "Controller"; ilit "Ctrl"]; Star iword];
        cats [ilit "def"; plus ws; Star iword;
              alts [ilit "view"; ilit "handler"; ilit "controller"]; Star iword];
        cats [alts [ilit "app"; ilit "router"]; lit "."; Star ws;
              alts [ilit "get"; ilit "post"; ilit "put"; ilit "delete"; ilit "patch"]]].

(** [sourceExtensions] lists file extensions to scan. *)
Definition sourceExtensions (ext : string) : bool :=
  if decide (ext = ".go") then true
  else if decide (ext = ".py") then true
  else if decide (ext = ".js") then true
  else if decide (ext = ".ts") then true
  else false.

(** [skippedDirs] to skip during walks. *)
Definition skippedDirs (name : string) : bool :=
  if decide (name = ".git") then true
  else if decide (name = "vendor") then true
  else if decide (name = "node_modules") then true
  else if decide (name = "__pycache__") then true
  else if decide (name = ".venv") then true
  else if decide (name = "dist") then true
  else if decide (name = "build") then true
  else false.

(** [godFileThreshold] is the line count above which a file may be flagged. *)
Definition godFileThreshold : Z := 500.

(** [godExportThreshold] is the minimum number of exports for a large file
    to be flagged. *)
Definition godExportThreshold : Z := 10.

(** ** Package [strings] *)

Module strings.

(** [strings.HasSuffix(s, suffix)] *)
Definition HasSuffix (s suffix : string) : bool :=
  let n := String.length s in
  let m := String.length suffix in
  (m <=? n)%nat && String.eqb (substring (n - m) m s) suffix.

(** The ASCII white space of [unicode.IsSpace]: tab, line feed, vertical
    tab, form feed, carriage return, space. *)
Definition asciiSpace (c : ascii) : bool := byte_in 9 13 c || is_byte 32 c.

(** The other white space runes, by their UTF-8 encodings: U+0085 and
    U+00A0 on two bytes; U+1680, U+2000..U+200A, U+2028, U+2029, U+202F,
    U+205F and U+3000 on three. *)
Definition space2 (c1 c2 : ascii) : bool :=
  is_byte 194 c1 && (is_byte 133 c2 || is_byte 160 c2).

Definition space3 (c1 c2 c3 : ascii) : bool :=
  (is_byte 225 c1 && is_byte 154 c2 && is_byte 128 c3)
  || (is_byte 226 c1 && is_byte 128 c2
      && (byte_in 128 138 c3 || is_byte 168 c3 || is_byte 169 c3 || is_byte 175 c3))
  || (is_byte 226 c1 && is_byte 129 c2 && is_byte 159 c3)
  || (is_byte 227 c1 && is_byte 128 c2 && is_byte 128 c3).

(** [strings.TrimLeftFunc(s, unicode.IsSpace)] *)
Fixpoint trimLeft (l : list ascii) : list ascii :=
  match l with
  | [] => []
  | c1 :: l1 =>
      if asciiSpace c1 then trimLeft l1
      else match l1 with
           | [] => l
           | c2 :: l2 =>
               if space2 c1 c2 then trimLeft l2
               else match l2 with
                    | [] => l
                    | c3 :: l3 => if space3 c1 c2 c3 then trimLeft l3 else l
                    end
           end
  end.

(** [strings.TrimRightFunc(s, unicode.IsSpace)], on the reversed text. *)
Fixpoint trimRightRev (l : list ascii) : list ascii :=
  match l with
  | [] => []
  | c1 :: l1 =>
      if asciiSpace c1 then trimRightRev l1
      else match l1 with
           | [] => l
           | c2 :: l2 =>
               if space2 c2 c1 then trimRightRev l2
               else match l2 with
                    | [] => l
                    | c3 :: l3 => if space3 c3 c2 c1 then trimRightRev l3 else l
                    end
           end
  end.

(** [strings.TrimSpace(s)] *)
Definition TrimSpace (s : string) : string :=
  str (rev (trimRightRev (rev (trimLeft (bytes s))))).

(** [strings.Join(elems, sep)] on byte lists. *)
Fixpoint join (elems : list (list ascii)) (sep : list ascii) : list ascii :=
  match elems with
  | [] => []
  | [e] => e
  | e :: rest => e ++ sep ++ join rest sep
  end.

End strings.

(** ** Package [fmt]: the two verbs the program formats values with. *)

Module fmt.

(** [fmt.Sprintf("%d", n)] *)
Definition Sprintf_d (n : Z) : string := NilZero.string_of_int (Z.to_int n).

(** [fmt.Sprintf("%t", b)] *)
Definition Sprintf_t (b : bool) : string := if b then "true" else "false".

(** [strconv.Atoi], used to read a formatted count back. *)
Definition Atoi (s : string) : option Z :=
  match NilZero.int_of_string s with
  | Some d => Some (Z.of_int d)
  | None => None
  end.

End fmt.

(** ** Package [path/filepath] (Unix: the separator is the slash, there
    are no volume names). *)

Module filepath.

Definition is_sep (c : ascii) : bool := is_byte 47 c.
Definition sep : list ascii := bytes "/".
Definition dotdot : list ascii := bytes "..".

Definition is_dot (e : list ascii) : bool := bool_decide (e = bytes ".").
Definition is_dotdot (e : list ascii) : bool := bool_decide (e = dotdot).

Fixpoint dropWhile (p : ascii -> bool) (l : list ascii) : list ascii :=
  match l with
  | [] => []
  | c :: l' => if p c then dropWhile p l' else l
  end.

(** The elements between separators, empty ones included. *)
Fixpoint split (l : list ascii) : list (list ascii) :=
  match l with
  | [] => [[]]
  | c :: l' =>
      if is_sep c then [] :: split l'
      else match split l' with
           | e :: es => (c :: e) :: es
           | [] => [[c]]
           end
  end.

(** One step of [Clean]'s loop; [out] is the output written so far, as a
    stack of elements with the last one on top. *)
Definition cleanStep (rooted : bool) (out : list (list ascii)) (e : list ascii)
  : list (list ascii) :=
  if bool_decide (e = []) then out            (* empty path element *)
  else if is_dot e then out                   (* . element *)
  else if is_dotdot e then                    (* .. element *)
    match out with
    | top :: below =>
        if is_dotdot top
        then (if rooted then out else e :: out)
        else below                            (* can backtrack *)
    | [] => if rooted then out else [e]       (* cannot backtrack *)
    end
  else e :: out.                              (* real path element *)

Definition cleanBytes (l : list ascii) : list ascii :=
  match l with
  | [] => bytes "."
  | c :: _ =>
      let rooted := is_sep c in
      let out := rev (fold_left (cleanStep rooted) (split l) []) in
      let body := strings.join out sep in
      if rooted then sep ++ body
      else match body with
           | [] => bytes "."
           | _ => body
           end
  end.

(** [filepath.Clean(path)] *)
Definition Clean (path : string) : string := str (cleanBytes (bytes path)).

(** [filepath.Join(elem...)]: empty elements are ignored, the rest is
    joined by the separator and cleaned. *)
Definition Join (elem : list string) : string :=
  match filter (fun e => e ≠ "") elem with
  | [] => ""
  | es => str (cleanBytes (strings.join (map bytes es) sep))
  end.

(** [filepath.Base(path)] *)
Definition Base (path : string) : string :=
  match bytes path with
  | [] => "."
  | l =>
      let stripped := rev (dropWhile is_sep (rev l)) in
      match last (split stripped) with
      | Some (c :: e) => str (c :: e)
      | _ => "/"
      end
  end.

(** [filepath.Dir(path)] *)
Definition Dir (path : string) : string :=
  str (cleanBytes (rev (dropWhile (fun c => negb (is_sep c)) (rev (bytes path))))).

(** The loop of [Ext], reading the path from its end. *)
Fixpoint extRev (r acc : list ascii) : list ascii :=
  match r with
  | [] => []
  | c :: r' =>
      if is_sep c then []
      else if is_byte 46 c then c :: acc
      else extRev r' (c :: acc)
  end.

(** [filepath.Ext(path)] *)
Definition Ext (path : string) : string := str (extRev (rev (bytes path)) []).

(** The elements of a cleaned path, without the root slash. *)
Definition elements (l : list ascii) : list (list ascii) :=
  filter (fun e => e ≠ []) (split l).

(** Strip the elements two cleaned paths share. *)
Fixpoint stripCommon (b t : list (list ascii))
  : list (list ascii) * list (list ascii) :=
  match b, t with
  | eb :: b', et :: t' =>
      if bool_decide (eb = et) then stripCommon b' t' else (b, t)
  | _, _ => (b, t)
  end.

Definition rootedBytes (l : list ascii) : bool :=
  match l with
  | c :: _ => is_sep c
  | [] => false
  end.

(** [filepath.Rel(basepath, targpath)]; [None] is the error result.  Both
    paths are cleaned first; a path that cleans to [.] has no element, so
    that the result is a cleaned path as well: from [a] to [.] it is
    [..]. *)
Definition Rel (basepath targpath : string) : option string :=
  let base := cleanBytes (bytes basepath) in
  let targ := cleanBytes (bytes targpath) in
  if bool_decide (targ = base) then Some "."
  else
    let base := if is_dot base then [] else base in
    let targ := if is_dot targ then [] else targ in
    if negb (Bool.eqb (rootedBytes base) (rootedBytes targ)) then None
    else
      match stripCommon (elements base) (elements targ) with
      | ([], t) => Some (str (strings.join t sep))
      | (eb :: b', t) =>
          if is_dotdot eb then None
          else Some (str (strings.join (map (fun _ => dotdot) (eb :: b') ++ t) sep))
      end.

End filepath.

(** ** The plugin SDK: findings and the response builder

    The SDK is an external collaborator; only the builder calls the
    program makes are modelled.  A response under construction is the list
    of findings emitted so far, in emission order. *)

Module sdk.

Inductive Severity : Type := SeverityLow | SeverityMedium | SeverityHigh.
Inductive Confidence : Type := ConfidenceLow | ConfidenceMedium | ConfidenceHigh.

Record finding : Type := MkFinding {
  ruleID : string;
  severity : Severity;
  confidence : Confidence;
  message : string;
  filePath : string;
  startLine : Z;
  endLine : Z;
  metadata : gmap string string
}.

Definition ResponseBuilder : Type := list finding.

(** A finding being built, with the response it will be added to. *)
Definition FindingBuilder : Type := (ResponseBuilder * finding)%type.

Definition NewResponse : ResponseBuilder := [].

Definition Finding (resp : ResponseBuilder) (rule : string) (sev : Severity)
    (conf : Confidence) (msg : string) : FindingBuilder :=
  (resp, MkFinding rule sev conf msg "" 0 0 ∅).

Definition At (b : FindingBuilder) (file : string) (startL endL : Z) : FindingBuilder :=
  let f := b.2 in
  (b.1, MkFinding (ruleID f) (severity f) (confidence f) (message f)
                  file startL endL (metadata f)).

Definition WithMetadata (b : FindingBuilder) (key value : string) : FindingBuilder :=
  let f := b.2 in
  (b.1, MkFinding (ruleID f) (severity f) (confidence f) (message f)
                  (filePath f) (startLine f) (endLine f)
                  (<[key := value]> (metadata f))).

Definition Done (b : FindingBuilder) : ResponseBuilder := b.1 ++ [b.2].

(** [resp.Build()] hands the findings over. *)
Definition Build (resp : ResponseBuilder) : list finding := resp.

(** The part of a tool request the scan reads. *)
Inductive any : Type :=
| AString (s : string)
| AOther.

Record ToolRequest : Type := MkToolRequest {
  Input : gmap string any;
  WorkspaceRoot : string
}.

End sdk.

Import sdk.

(** ** Data model *)

(** [importRef] represents a detected import statement. *)
Record importRef : Type := MkImportRef {
  module : string;
  line : Z
}.

(** [fileInfo] holds parsed information about a source file. *)
Record fileInfo : Type := MkFileInfo {
  path : string;
  ext : string;
  lines : list string;
  imports : list importRef;
  exports : Z;
  lineCount : Z
}.

(** Error values the program produces or compares against. *)
Inductive error : Type :=
| ErrOpen                       (* [os.Open] failed *)
| ErrScanner                    (* [scanner.Err()] after the loop *)
| ErrLstat                      (* [os.Lstat] of the walk root failed *)
| ErrReadDir                    (* [os.ReadDir] failed *)
| SkipDir                       (* [filepath.SkipDir] *)
| Canceled                      (* [context.Canceled] *)
| DeadlineExceeded              (* [context.DeadlineExceeded] *)
| WalkingWorkspace (e : error). (* [fmt.Errorf("walking workspace: %w", err)] *)

Global Instance error_eq_dec : EqDecision error.
Proof. solve_decision. Defined.

(** What [os.Open] followed by a [bufio.Scanner] loop yields for a path:
    the open fails, or the scanner delivers lines in order and then stops,
    at the end of the file or at an error. *)
Inductive fileContent : Type :=
| OpenFails
| Scans (ls : list string) (scanErr : bool).

(** [extToLanguage] maps file extensions to human-readable language names. *)
Definition extToLanguage (e : string) : string :=
  if String.eqb e ".go" then "go"
  else if String.eqb e ".py" then "python"
  else if String.eqb e ".js" then "javascript"
  else if String.eqb e ".ts" then "typescript"
  else "unknown".

(** ** File parser *)

(** [m[i]] for a submatch slice. *)
Definition sub (m : list string) (i : nat) : string := nth i m "".

(** The body of the scanning loop of [parseFile]: [lineNum] has already
    been incremented for this line. *)
Definition parseLine (info : fileInfo) (lineNum : Z) (ln : string) : fileInfo :=
  let info := MkFileInfo (path info) (ext info) (lines info ++ [ln])
                         (imports info) (exports info) (lineCount info) in
  let addImport (i : fileInfo) (m : string) :=
    MkFileInfo (path i) (ext i) (lines i) (imports i ++ [MkImportRef m lineNum])
               (exports i) (lineCount i) in
  let addExport (i : fileInfo) :=
    MkFileInfo (path i) (ext i) (lines i) (imports i) (exports i + 1) (lineCount i) in
  if String.eqb (ext info) ".go" then
    let info :=
      let m := FindStringSubmatch reGoImport ln in
      if (1 <? length m)%nat then addImport info (sub m 1) else info in
    if MatchString reGoExport ln then addExport info else info
  else if String.eqb (ext info) ".py" then
    let info :=
      let m := FindStringSubmatch rePyImport ln in
      if (0 <? length m)%nat then
        let mod_ := sub m 1 in
        let mod_ := if String.eqb mod_ "" then sub m 2 else mod_ in
        if negb (String.eqb mod_ "") then addImport info mod_ else info
      else info in
    if MatchString rePyExport ln || MatchString rePyAllExport ln
    then addExport info else info
  else if String.eqb (ext info) ".js" || String.eqb (ext info) ".ts" then
    let info :=
      let m := FindStringSubmatch reJSImport ln in
      if (1 <? length m)%nat && negb (String.eqb (sub m 1) "")
      then addImport info (sub m 1) else info in
    if MatchString reJSExport ln then addExport info else info
  else info.

(** The scanning loop: [for scanner.Scan() { lineNum++; ... }]. *)
Fixpoint scanLoop (ls : list string) (info : fileInfo) (lineNum : Z) : fileInfo * Z :=
  match ls with
  | [] => (info, lineNum)
  | ln :: rest =>
      let lineNum := lineNum + 1 in
      scanLoop rest (parseLine info lineNum ln) lineNum
  end.

(** [parseFile] reads a file and extracts imports, exports, and line metadata. *)
Definition parseFile (open : string -> fileContent) (filePath ext_ : string)
  : fileInfo * option error :=
  match open filePath with
  | OpenFails => (MkFileInfo "" "" [] [] 0 0, Some ErrOpen)
  | Scans ls scanErr =>
      let info := MkFileInfo filePath ext_ [] [] 0 0 in
      let '(info, lineNum) := scanLoop ls info 0 in
      let info := MkFileInfo (path info) (ext info) (lines info) (imports info)
                             (exports info) lineNum in
      (info, if scanErr then Some ErrScanner else None)
  end.

(** ** Rule engine *)

(** *** ARCH-001: circular dependency indicators *)

(** [relPath, _ := filepath.Rel(workspaceRoot, p); if relPath == "" { relPath = p }] *)
Definition relPathOf (workspaceRoot p : string) : string :=
  let relPath := default "" (filepath.Rel workspaceRoot p) in
  if String.eqb relPath "" then p else relPath.

(** The innermost loop of [checkCircularDeps]: some import of the other
    file names our package. *)
Fixpoint importsBack (myPkg : string) (otherImports : list string) : bool :=
  match otherImports with
  | [] => false
  | otherImp :: rest =>
      let otherImpBase := filepath.Base otherImp in
      if String.eqb otherImpBase myPkg || strings.HasSuffix otherImp ("/" +:+ myPkg)
      then true
      else importsBack myPkg rest
  end.

(** The loop over the import graph for one import of the file, in the
    order [entries] in which the map happens to be ranged over. *)
Fixpoint mutualImport (relPath myPkg : string) (imp : importRef)
    (entries : list (string * list string)) : bool :=
  match entries with
  | [] => false
  | (otherFile, otherImports) :: rest =>
      if String.eqb otherFile relPath then mutualImport relPath myPkg imp rest
      else
        let otherDir := filepath.Dir otherFile in
        let otherPkg := filepath.Base otherDir in
        let impBase := filepath.Base (module imp) in
        (* Mutual import: we import their package, they import ours. *)
        if String.eqb impBase otherPkg
           || strings.HasSuffix (module imp) ("/" +:+ otherPkg)
        then
          if importsBack myPkg otherImports then true
          else mutualImport relPath myPkg imp rest
        else mutualImport relPath myPkg imp rest
  end.

Definition circularFinding (resp : ResponseBuilder) (fi : fileInfo)
    (relPath : string) (imp : importRef) : ResponseBuilder :=
  Done
    (WithMetadata
       (WithMetadata
          (At (Finding resp "ARCH-001" SeverityMedium ConfidenceHigh
                 ("Circular dependency risk: " +:+ relPath +:+ " imports "
                  +:+ module imp +:+ " which imports back"))
              (path fi) (line imp) (line imp))
          "imported_module" (module imp))
       "language" (extToLanguage (ext fi))).

(** The loop over the imports of the file; the finding ends it. *)
Fixpoint circularLoop (resp : ResponseBuilder) (fi : fileInfo)
    (relPath myPkg : string) (entries : list (string * list string))
    (imps : list importRef) : ResponseBuilder :=
  match imps with
  | [] => resp
  | imp :: rest =>
      if mutualImport relPath myPkg imp entries
      then circularFinding resp fi relPath imp   (* report once per file *)
      else circularLoop resp fi relPath myPkg entries rest
  end.

(** [checkCircularDeps] detects mutual import patterns between files. *)
Definition checkCircularDeps (resp : ResponseBuilder) (fi : fileInfo)
    (importGraph : gmap string (list string)) (workspaceRoot : string)
  : ResponseBuilder :=
  let relPath := relPathOf workspaceRoot (path fi) in
  let myDir := filepath.Dir relPath in
  let myPkg := filepath.Base myDir in
  circularLoop resp fi relPath myPkg (map_to_list importGraph) (imports fi).

(** *** ARCH-002: god objects *)

(** [checkGodObject] flags files that exceed the line threshold with many
    exports. *)
Definition checkGodObject (resp : ResponseBuilder) (fi : fileInfo) : ResponseBuilder :=
  if (godFileThreshold <? lineCount fi) && (godExportThreshold <=? exports fi) then
    Done
      (WithMetadata
         (WithMetadata
            (WithMetadata
               (At (Finding resp "ARCH-002" SeverityMedium ConfidenceMedium
                      ("God object/file detected: " +:+ fmt.Sprintf_d (lineCount fi)
                       +:+ " lines with " +:+ fmt.Sprintf_d (exports fi) +:+ " exports"))
                   (path fi) 1 1)
               "line_count" (fmt.Sprintf_d (lineCount fi)))
            "export_count" (fmt.Sprintf_d (exports fi)))
         "language" (extToLanguage (ext fi)))
  else resp.

(** *** ARCH-003: security-critical code without separation *)

(** The local variables of [checkSecurityMixing]. *)
Record mixState : Type := MkMix {
  hasCrypto : bool;
  hasAuth : bool;
  hasBizLogic : bool;
  hasDBAccess : bool;
  hasHTTPRoutes : bool;
  cryptoLine : Z;
  authLine : Z
}.

Definition mixInit : mixState := MkMix false false false false false 0 0.

(** [if re.MatchString(line) { hasCrypto = true; if cryptoLine == 0 { cryptoLine = i + 1 } }] *)
Definition noteCrypto (re : Regexp) (i : Z) (ln : string) (st : mixState) : mixState :=
  if MatchString re ln then
    MkMix true (hasAuth st) (hasBizLogic st) (hasDBAccess st) (hasHTTPRoutes st)
          (if cryptoLine st =? 0 then i + 1 else cryptoLine st) (authLine st)
  else st.

(** [if re.MatchString(line) { hasAuth = true; if authLine == 0 { authLine = i + 1 } }] *)
Definition noteAuth (re : Regexp) (i : Z) (ln : string) (st : mixState) : mixState :=
  if MatchString re ln then
    MkMix (hasCrypto st) true (hasBizLogic st) (hasDBAccess st) (hasHTTPRoutes st)
          (cryptoLine st) (if authLine st =? 0 then i + 1 else authLine st)
  else st.

(** The body of the loop over [fi.lines], for the line at index [i]. *)
Definition mixStep (ext_ : string) (i : Z) (ln : string) (st : mixState) : mixState :=
  let st :=
    if String.eqb ext_ ".go" then noteAuth reAuthGo i ln (noteCrypto reCryptoGo i ln st)
    else if String.eqb ext_ ".py" then noteAuth reAuthPy i ln (noteCrypto reCryptoPy i ln st)
    else if String.eqb ext_ ".js" || String.eqb ext_ ".ts"
    then noteAuth reAuthJS i ln (noteCrypto reCryptoJS i ln st)
    else st in
  MkMix (hasCrypto st) (hasAuth st)
        (if MatchString reBizLogic ln then true else hasBizLogic st)
        (if MatchString reDBAccess ln then true else hasDBAccess st)
        (if MatchString reHTTPRoute ln then true else hasHTTPRoutes st)
        (cryptoLine st) (authLine st).

(** [for i, line := range fi.lines { ... }] *)
Fixpoint mixLoop (ext_ : string) (i : Z) (ls : list string) (st : mixState) : mixState :=
  match ls with
  | [] => st
  | ln :: rest => mixLoop ext_ (i + 1) rest (mixStep ext_ i ln st)
  end.

(** [checkSecurityMixing] detects crypto/auth logic mixed with business
    logic in the same file. *)
Definition checkSecurityMixing (resp : ResponseBuilder) (fi : fileInfo) : ResponseBuilder :=
  let st := mixLoop (ext fi) 0 (lines fi) mixInit in
  let securityCritical := hasCrypto st || hasAuth st in
  let businessMixed := hasBizLogic st || hasDBAccess st || hasHTTPRoutes st in
  if securityCritical && businessMixed then
    let reportLine := cryptoLine st in
    let reportLine := if reportLine =? 0 then authLine st else reportLine in
    let detail := "crypto" in
    let detail := if hasAuth st then "auth" else detail in
    let detail := if hasCrypto st && hasAuth st then "crypto/auth" else detail in
    Done
      (WithMetadata
         (WithMetadata
            (WithMetadata
               (WithMetadata
                  (At (Finding resp "ARCH-003" SeverityHigh ConfidenceHigh
                         ("Security-critical code (" +:+ detail
                          +:+ ") mixed with business logic in same file"))
                      (path fi) reportLine reportLine)
                  "has_crypto" (fmt.Sprintf_t (hasCrypto st)))
               "has_auth" (fmt.Sprintf_t (hasAuth st)))
            "has_business_logic" (fmt.Sprintf_t (hasBizLogic st)))
         "language" (extToLanguage (ext fi)))
  else resp.

(** *** ARCH-004: missing abstraction layer *)

(** The first loop of [checkMissingAbstraction], left at the first
    handler line. *)
Fixpoint isHandler (ls : list string) : bool :=
  match ls with
  | [] => false
  | ln :: rest => if MatchString reHandlerFunc ln then true else isHandler rest
  end.

Definition abstractionFinding (resp : ResponseBuilder) (fi : fileInfo)
    (i : Z) (ln : string) : ResponseBuilder :=
  Done
    (WithMetadata
       (At (Finding resp "ARCH-004" SeverityLow ConfidenceMedium
              ("Missing abstraction layer: direct database call in handler: "
               +:+ strings.TrimSpace ln))
           (path fi) (i + 1) (i + 1))
       "language" (extToLanguage (ext fi))).

(** The second loop, over every line with its index. *)
Fixpoint abstractionLoop (resp : ResponseBuilder) (fi : fileInfo)
    (i : Z) (ls : list string) : ResponseBuilder :=
  match ls with
  | [] => resp
  | ln :: rest =>
      let resp :=
        if MatchString reSQLInHandler ln then abstractionFinding resp fi i ln else resp in
      abstractionLoop resp fi (i + 1) rest
  end.

(** [checkMissingAbstraction] detects direct database calls in
    handler/controller files. *)
Definition checkMissingAbstraction (resp : ResponseBuilder) (fi : fileInfo)
  : ResponseBuilder :=
  if negb (isHandler (lines fi)) then resp
  else abstractionLoop resp fi 0 (lines fi).

(** ** Workspace walk *)

(** The directory tree as [os.Lstat] and [os.ReadDir] present it: an entry
    is a directory, with the entries read from it and whether reading
    reported an error, or anything else. *)
Inductive node : Type :=
| NFile
| NDir (es : entries) (readErr : bool)
with entries : Type :=
| ENil
| ECons (name : string) (n : node) (rest : entries).

Scheme node_entries_ind := Induction for node Sort Prop
  with entries_node_ind := Induction for entries Sort Prop.

Combined Scheme node_entries_mutind from node_entries_ind, entries_node_ind.

Record DirEntry : Type := MkDirEntry {
  Name : string;
  IsDir : bool
}.

Definition isDirNode (n : node) : bool :=
  match n with
  | NFile => false
  | NDir _ _ => true
  end.

Section WalkDir.

(** The callback mutates variables of its closure; [S] is their state. *)
Context {S : Type}.
Variable fn : S -> string -> option DirEntry -> option error -> S * option error.

(** [walkDir] of [path/filepath]: the callback, then the entries.
    [walkEntries] is its loop over the entries of one directory. *)
Fixpoint walkDir (p : string) (name : string) (n : node) (s : S)
  : S * option error :=
  let d := MkDirEntry name (isDirNode n) in
  match n with
  | NFile => fn s p (Some d) None
  | NDir es readErr =>
      match fn s p (Some d) None with
      | (s, Some err) =>
          (* Successfully skipped directory. *)
          (s, if decide (err = SkipDir) then None else Some err)
      | (s, None) =>
          if readErr then
            (* Second call, to report ReadDir error. *)
            match fn s p (Some d) (Some ErrReadDir) with
            | (s, Some err) => (s, if decide (err = SkipDir) then None else Some err)
            | (s, None) => walkEntries p es s
            end
          else walkEntries p es s
      end
  end
with walkEntries (p : string) (es : entries) (s : S) : S * option error :=
  match es with
  | ENil => (s, None)
  | ECons name1 n1 rest =>
      let path1 := filepath.Join [p; name1] in
      match walkDir path1 name1 n1 s with
      | (s, Some err) => if decide (err = SkipDir) then (s, None) else (s, Some err)
      | (s, None) => walkEntries p rest s
      end
  end.

(** [filepath.WalkDir(root, fn)]; [lstat] is what [os.Lstat(root)] finds. *)
Definition WalkDir (lstat : option node) (root : string) (s : S) : S * option error :=
  let '(s, err) :=
    match lstat with
    | None => fn s root None (Some ErrLstat)
    | Some n => walkDir root (filepath.Base root) n s
    end in
  (s, match err with
      | Some e => if decide (e = SkipDir) then None else Some e
      | None => None
      end).

End WalkDir.

(** The variables of [handleScan] its walk callback updates, with the
    number of times the context has been consulted. *)
Record scanState : Type := MkScan {
  ticks : nat;
  files : list fileInfo;
  importGraph : gmap string (list string)
}.

(** [for _, imp := range info.imports { importGraph[relPath] = append(importGraph[relPath], imp.module) }] *)
Fixpoint addImports (g : gmap string (list string)) (relPath : string)
    (imps : list importRef) : gmap string (list string) :=
  match imps with
  | [] => g
  | imp :: rest =>
      addImports (<[relPath := default [] (g !! relPath) ++ [module imp]]> g) relPath rest
  end.

(** What [ctx.Err()] reports: nothing while the context is live, then one
    of its two errors. *)
Inductive ctxStatus : Type := CtxLive | CtxCanceled | CtxDeadlineExceeded.

Global Instance ctxStatus_eq_dec : EqDecision ctxStatus.
Proof. solve_decision. Defined.

Definition ctxErr (c : ctxStatus) : option error :=
  match c with
  | CtxLive => None
  | CtxCanceled => Some Canceled
  | CtxDeadlineExceeded => Some DeadlineExceeded
  end.

Section Scan.

(** The outside world of one run: [ctx n] is what [ctx.Err()] reports the
    [n]-th time the walk consults it, [lstat] what [os.Lstat] finds at a
    path, [open] what opening and scanning a path yields. *)
Variable ctx : nat -> ctxStatus.
Variable lstat : string -> option node.
Variable open : string -> fileContent.

(** The callback [handleScan] passes to [filepath.WalkDir]. *)
Definition walkFn (workspaceRoot : string) (st : scanState) (p : string)
    (d : option DirEntry) (err : option error) : scanState * option error :=
  match err with
  | Some _ => (st, None)
  | None =>
      let now := ticks st in
      let st := MkScan (Datatypes.S now) (files st) (importGraph st) in
      match ctxErr (ctx now) with
      | Some e => (st, Some e)
      | None =>
          match d with
          | None => (st, None)  (* not reached: a nil entry comes with an error *)
          | Some d =>
              if IsDir d then
                if skippedDirs (Name d) then (st, Some SkipDir) else (st, None)
              else
                let ext_ := filepath.Ext p in
                if negb (sourceExtensions ext_) then (st, None)
                else
                  match parseFile open p ext_ with
                  | (_, Some _) => (st, None)
                  | (info, None) =>
                      let relPath := relPathOf workspaceRoot p in
                      (MkScan (ticks st) (files st ++ [info])
                              (addImports (importGraph st) relPath (imports info)),
                       None)
                  end
          end
      end
  end.

(** The four analyzers on one file. *)
Definition analyzeFile (importGraph_ : gmap string (list string))
    (workspaceRoot : string) (resp : ResponseBuilder) (fi : fileInfo)
  : ResponseBuilder :=
  (* ARCH-001: Check for circular dependency indicators. *)
  let resp := checkCircularDeps resp fi importGraph_ workspaceRoot in
  (* ARCH-002: Check for god objects. *)
  let resp := checkGodObject resp fi in
  (* ARCH-003: Check for security-critical code without separation. *)
  let resp := checkSecurityMixing resp fi in
  (* ARCH-004: Check for missing abstraction layer. *)
  checkMissingAbstraction resp fi.

(** The workspace root [handleScan] settles on: the [workspace_root] input
    when it is a non-empty string, else the root of the request. *)
Definition requestRoot (req : ToolRequest) : string :=
  let workspaceRoot :=
    match Input req !! "workspace_root" with
    | Some (AString s) => s
    | _ => ""
    end in
  if String.eqb workspaceRoot "" then WorkspaceRoot req else workspaceRoot.

(** The walk of [handleScan], from empty [files] and [importGraph]. *)
Definition scanWalk (workspaceRoot : string) : scanState * option error :=
  WalkDir (walkFn workspaceRoot) (lstat workspaceRoot) workspaceRoot (MkScan 0 [] ∅).

(** The loop [for _, fi := range files] over the four analyzers. *)
Definition analyzeAll (importGraph_ : gmap string (list string))
    (workspaceRoot : string) (files_ : list fileInfo) (resp : ResponseBuilder)
  : ResponseBuilder :=
  fold_left (analyzeFile importGraph_ workspaceRoot) files_ resp.

(** [handleScan]: the findings, or the error. *)
Definition handleScan (req : ToolRequest) : list finding + error :=
  let workspaceRoot := requestRoot req in
  let resp := NewResponse in
  if String.eqb workspaceRoot "" then inl (Build resp)
  else
    let '(st, err) := scanWalk workspaceRoot in
    match err with
    | Some e =>
        if decide (e = Canceled)
        then inl (Build (analyzeAll (importGraph st) workspaceRoot (files st) resp))
        else inr (WalkingWorkspace e)
    | None =>
        inl (Build (analyzeAll (importGraph st) workspaceRoot (files st) resp))
    end.

End Scan.

(** ** Vocabulary of the statements

    The definitions below are not part of the program: they name what the
    statements about it speak of. *)

(** The finding [checkGodObject] builds, field by field. *)
Definition godFinding (fi : fileInfo) : finding :=
  MkFinding "ARCH-002" SeverityMedium ConfidenceMedium
    ("God object/file detected: " +:+ fmt.Sprintf_d (lineCount fi)
     +:+ " lines with " +:+ fmt.Sprintf_d (exports fi) +:+ " exports")
    (path fi) 1 1
    (<["language" := extToLanguage (ext fi)]>
       (<["export_count" := fmt.Sprintf_d (exports fi)]>
          (<["line_count" := fmt.Sprintf_d (lineCount fi)]> ∅))).

(** The findings a call added to the response it was given. *)
Definition emitted (before after : ResponseBuilder) : list finding :=
  drop (length before) after.

(** The lines of a file with their 1-based line numbers. *)
Definition numbered (ls : list string) : list (Z * string) :=
  zip (seqZ 1 (Z.of_nat (length ls))) ls.

(** A line is a handler or controller signature. *)
Definition handlerLine (ln : string) : Prop := MatchString reHandlerFunc ln = true.

(** A line is a direct data access. *)
Definition dataAccessLine (ln : string) : bool := MatchString reSQLInHandler ln.

(** The ARCH-004 finding for line number [n] with text [ln]. *)
Definition abstractionFindingAt (fi : fileInfo) (nl : Z * string) : finding :=
  MkFinding "ARCH-004" SeverityLow ConfidenceMedium
    ("Missing abstraction layer: direct database call in handler: "
     +:+ strings.TrimSpace nl.2)
    (path fi) nl.1 nl.1
    (<["language" := extToLanguage (ext fi)]> ∅).

(** ** Example inputs *)

(** A handler with two direct database calls. *)
Definition exampleHandlerFile : fileInfo :=
  MkFileInfo "api/users.go" ".go"
    ["func HandleGetUsers(w http.ResponseWriter, r *http.Request) {";
     "	rows, err := db.Query(stmt)";
     "	_, err = db.Exec(del, id)  ";
     "}"]
    [] 1 4.

(** Raw SQL and a database call, but no handler signature. *)
Definition exampleSqlOnlyFile : fileInfo :=
  MkFileInfo "store/users.go" ".go"
    ["	rows, err := db.Query(stmt)";
     "const del = `DELETE FROM users`"]
    [] 0 2.

(** The five signals of the security-mixing analyzer.  Cryptography and
    authentication are looked for with the patterns of the file's
    language; the other three are the same for every language. *)
Definition cryptoSignal (ext_ ln : string) : bool :=
  if String.eqb ext_ ".go" then MatchString reCryptoGo ln
  else if String.eqb ext_ ".py" then MatchString reCryptoPy ln
  else if String.eqb ext_ ".js" || String.eqb ext_ ".ts" then MatchString reCryptoJS ln
  else false.

Definition authSignal (ext_ ln : string) : bool :=
  if String.eqb ext_ ".go" then MatchString reAuthGo ln
  else if String.eqb ext_ ".py" then MatchString reAuthPy ln
  else if String.eqb ext_ ".js" || String.eqb ext_ ".ts" then MatchString reAuthJS ln
  else false.

Definition businessSignal (ln : string) : bool := MatchString reBizLogic ln.
Definition dataAccessSignal (ln : string) : bool := MatchString reDBAccess ln.
Definition routeSignal (ln : string) : bool := MatchString reHTTPRoute ln.

(** A signal is present on some line. *)
Definition present (p : string -> bool) (ls : list string) : Prop :=
  exists ln, ln ∈ ls /\ p ln = true.

(** The 1-based number of the first line a signal is present on; 0 when
    it is present on none. *)
Definition firstLine (p : string -> bool) (ls : list string) : Z :=
  match list_find (fun ln => p ln = true) ls with
  | Some (i, _) => Z.of_nat i + 1
  | None => 0
  end.

(** Where the ARCH-003 finding is anchored: the first cryptography line,
    or the first authentication line when there is no cryptography line. *)
Definition mixingAnchor (fi : fileInfo) : Z :=
  if existsb (cryptoSignal (ext fi)) (lines fi)
  then firstLine (cryptoSignal (ext fi)) (lines fi)
  else firstLine (authSignal (ext fi)) (lines fi).

(** The ARCH-003 finding for a file, from the signals found in it. *)
Definition mixingFinding (fi : fileInfo) : finding :=
  let c := existsb (cryptoSignal (ext fi)) (lines fi) in
  let a := existsb (authSignal (ext fi)) (lines fi) in
  let b := existsb businessSignal (lines fi) in
  MkFinding "ARCH-003" SeverityHigh ConfidenceHigh
    ("Security-critical code ("
     +:+ (if c && a then "crypto/auth" else if a then "auth" else "crypto")
     +:+ ") mixed with business logic in same file")
    (path fi) (mixingAnchor fi) (mixingAnchor fi)
    (<["language" := extToLanguage (ext fi)]>
       (<["has_business_logic" := fmt.Sprintf_t b]>
          (<["has_auth" := fmt.Sprintf_t a]>
             (<["has_crypto" := fmt.Sprintf_t c]> ∅)))).

(** The loop of [firstLine], for the lines from index [i] on. *)
Fixpoint firstFrom (p : string -> bool) (i : Z) (ls : list string) : Z :=
  match ls with
  | [] => 0
  | ln :: rest => if p ln then i + 1 else firstFrom p (i + 1) rest
  end.

(** Cryptography on line 2, an authentication function on line 3 and a
    business function on line 4. *)
Definition exampleMixedFile : fileInfo :=
  MkFileInfo "svc/orders.go" ".go"
    ["package orders";
     "// signs requests with crypto/hmac";
     "func checkLogin(user string) bool {";
     "func handleCreateOrder(w http.ResponseWriter, r *http.Request) {"]
    [] 0 4.

(** Cryptography and nothing else. *)
Definition exampleCryptoOnlyFile : fileInfo :=
  MkFileInfo "sec/sign.go" ".go"
    ["package sign";
     "// signs requests with crypto/hmac";
     "func Sign(msg []byte) []byte {"]
    [] 1 3.

(** No cryptography; authentication on line 3, a route on line 2. *)
Definition exampleAuthRouteFile : fileInfo :=
  MkFileInfo "web/login.py" ".py"
    ["import flask";
     "@app.route('/login')";
     "def do_login(request):"]
    [MkImportRef "flask" 1] 1 3.

(** The package-name proximity test of the circular-dependency analyzer:
    the last element of [imported] is [pkg], or [imported] ends in a slash
    followed by [pkg]. *)
Definition namesPackage (imported pkg : string) : Prop :=
  filepath.Base imported = pkg \/ strings.HasSuffix imported ("/" +:+ pkg) = true.

(** [imp], an import of the file at [relPath] in package [myPkg], is
    reciprocated: another file of the graph lies in the package [imp]
    names, and one of its imports names [myPkg]. *)
Definition reciprocated (g : gmap string (list string)) (relPath myPkg : string)
    (imp : importRef) : Prop :=
  exists (otherFile : string) (otherImports : list string) (otherImp : string),
    g !! otherFile = Some otherImports
    /\ otherFile <> relPath
    /\ namesPackage (module imp) (filepath.Base (filepath.Dir otherFile))
    /\ otherImp ∈ otherImports
    /\ namesPackage otherImp myPkg.

(** The ARCH-001 finding for an import of a file. *)
Definition circularFindingOf (fi : fileInfo) (relPath : string) (imp : importRef)
  : finding :=
  MkFinding "ARCH-001" SeverityMedium ConfidenceHigh
    ("Circular dependency risk: " +:+ relPath +:+ " imports "
     +:+ module imp +:+ " which imports back")
    (path fi) (line imp) (line imp)
    (<["language" := extToLanguage (ext fi)]>
       (<["imported_module" := module imp]> ∅)).

(** A workspace where package [a] imports [b] and [c], and both import
    [a] back. *)
Definition exampleGraph : gmap string (list string) :=
  <["a/x.go" := ["fmt"; "proj/b"; "proj/c"]]>
    (<["b/y.go" := ["proj/a"]]>
       (<["c/z.go" := ["os"; "proj/a"]]> ∅)).

Definition exampleCircularFile : fileInfo :=
  MkFileInfo "/ws/a/x.go" ".go" []
    [MkImportRef "fmt" 4; MkImportRef "proj/b" 5; MkImportRef "proj/c" 6] 0 9.

(** A line made of white space [w], a double quote, [content], a double
    quote, and anything after it. *)
Definition quotedLine (w content rest_ : list ascii) : string :=
  str (w ++ dquote :: content ++ dquote :: rest_).

(** C10 as it is stated: in a Go file every line whose first non-blank
    character opens a double-quoted string is recorded as an import of the
    quoted content, at that line. *)
Definition goQuotedLineClaim : Prop :=
  forall (open : string -> fileContent) (filePath : string) (ls : list string)
         (scanErr : bool) (i : nat) (w content rest_ : list ascii),
    open filePath = Scans ls scanErr ->
    ls !! i = Some (quotedLine w content rest_) ->
    Forall (fun c => is_space c = true) w ->
    Forall (fun c => not_dquote c = true) content ->
    MkImportRef (str content) (Z.of_nat i + 1)
      ∈ imports (parseFile open filePath ".go").1.

(** A slice literal, not an import declaration, holding the string
    [alpha], and the same with the empty string. *)
Definition exampleSliceLiteral : list string :=
  ["var names = []string{";
   quotedLine (bytes "	") (bytes "alpha") (bytes ",");
   "}"].

Definition exampleEmptyLiteral : list string :=
  ["var names = []string{";
   quotedLine (bytes "	") [] (bytes ",");
   "}"].

(** The modules the parsed files [fs] file under [key], in walk order. *)
Definition entryOf (workspaceRoot : string) (fs : list fileInfo) (key : string)
  : list string :=
  concat (map (fun fi =>
                 if decide (relPathOf workspaceRoot (path fi) = key)
                 then map module (imports fi) else [])
              fs).

(** The graph holds, under every key, the modules of the parsed files
    filed under it, and no entry where there is none. *)
Definition graphMatchesFiles (root : string) (st : scanState) : Prop :=
  forall key,
    importGraph st !! key
    = match entryOf root (files st) key with
      | [] => None
      | l => Some l
      end.

(** C5 as it is stated: after the walk every parsed file has an entry in
    the import graph under its relative path. *)
Definition everyParsedFileHasEntry : Prop :=
  forall (ctx : nat -> ctxStatus) (lstat : string -> option node)
         (open : string -> fileContent) (workspaceRoot : string) (fi : fileInfo),
    fi ∈ files (scanWalk ctx lstat open workspaceRoot).1 ->
    is_Some (importGraph (scanWalk ctx lstat open workspaceRoot).1
               !! relPathOf workspaceRoot (path fi)).

(** A workspace [/ws] holding [main.go], which imports nothing, and
    [util/strs.go], which imports one package. *)
Definition exampleTree : node :=
  NDir (ECons "main.go" NFile
          (ECons "util" (NDir (ECons "strs.go" NFile ENil) false) ENil))
       false.

Definition exampleLstat (p : string) : option node :=
  if String.eqb p "/ws" then Some exampleTree else None.

Definition exampleOpen (p : string) : fileContent :=
  if String.eqb p "/ws/main.go" then
    Scans ["package main"; ""; "func main() {"; "}"] false
  else if String.eqb p "/ws/util/strs.go" then
    Scans ["package util"; ""; "import (";
           quotedLine (bytes "	") (bytes "strings") []; ")"] false
  else OpenFails.

(** The error a walk may end with comes from the context. *)
Definition fromContext (ctx : nat -> ctxStatus) (o : option error) : Prop :=
  o = None \/ exists n, ctx n <> CtxLive /\ ctxErr (ctx n) = o.

(** A workspace [/srv] with a handler under [api], a copy of it under
    [vendor], and a Python view under [web]. *)
Definition exampleServiceTree : node :=
  NDir (ECons "api" (NDir (ECons "users.go" NFile ENil) false)
          (ECons "vendor" (NDir (ECons "users.go" NFile ENil) false)
             (ECons "web" (NDir (ECons "login.py" NFile ENil) false) ENil)))
       false.

Definition exampleServiceLstat (p : string) : option node :=
  if String.eqb p "/srv" then Some exampleServiceTree
  else if String.eqb p "/srv/web/login.py" then Some NFile
  else None.

Definition exampleServiceOpen (p : string) : fileContent :=
  if String.eqb p "/srv/api/users.go" then Scans (lines exampleHandlerFile) false
  else if String.eqb p "/srv/vendor/users.go" then Scans (lines exampleHandlerFile) false
  else if String.eqb p "/srv/web/login.py" then Scans (lines exampleAuthRouteFile) false
  else OpenFails.

(** A context cancelled from its [n]-th consultation on. *)
Definition canceledFrom (n : nat) (t : nat) : ctxStatus :=
  if (t <? n)%nat then CtxLive else CtxCanceled.

(** Every finding of [resp] points at one of the files [fs]. *)
Definition pointsInto (fs : list fileInfo) (resp : ResponseBuilder) : Prop :=
  forall f, f ∈ resp -> exists fi, fi ∈ fs /\ filePath f = path fi.

(** [name1] with node [n1] is one of the entries [es]. *)
Fixpoint inEntries (name1 : string) (n1 : node) (es : entries) : Prop :=
  match es with
  | ENil => False
  | ECons name n rest_ => (name = name1 /\ n = n1) \/ inEntries name1 n1 rest_
  end.

(** [visited root rootNode p name n]: the entry [name], with node [n], at
    path [p] is the root of the walk or is reached from it through
    directories none of which has a name of the skip-set.  Nothing inside
    a skipped directory is visited, at any depth. *)
Inductive visited (root : string) (rootNode : node)
  : string -> string -> node -> Prop :=
| visited_root :
    visited root rootNode root (filepath.Base root) rootNode
| visited_child (p name : string) (es : entries) (readErr : bool)
                (name1 : string) (n1 : node) :
    visited root rootNode p name (NDir es readErr) ->
    skippedDirs name = false ->
    inEntries name1 n1 es ->
    visited root rootNode (filepath.Join [p; name1]) name1 n1.

(** The path the walk builds for the entry reached from [root] by
    descending through [names], one [filepath.Join] per step. *)
Definition pathVia (root : string) (names : list string) : string :=
  fold_left (fun p name => filepath.Join [p; name]) names root.

(** The names of the directories above the entry reached through [names]:
    the root's own name, then every name but the last. *)
Definition dirsAbove (root : string) (names : list string) : list string :=
  removelast (filepath.Base root :: names).

(** Every parsed file is a visited entry that is not a directory. *)
Definition filesVisited (root : string) (rootNode : node) (st : scanState) : Prop :=
  forall fi, fi ∈ files st -> exists name, visited root rootNode (path fi) name NFile.

(** Two states of the walk hold the same files and the same graph. *)
Definition inSync (s s' : scanState) : Prop :=
  files s = files s' /\ importGraph s = importGraph s'.

(** The context that is never cancelled. *)
Definition alwaysLive (n : nat) : ctxStatus := CtxLive.

(** Either the walk under a context ends without error, in step with the walk
    under a live context, or it ends with the error of its context, holding a
    prefix of the files the live walk gathers. *)
Definition walkedLike (r r' : scanState * option error) : Prop :=
  (r.2 = None /\ inSync r.1 r'.1)
  \/ (r.2 <> None /\ r.2 <> Some SkipDir /\ files r.1 `prefix_of` files r'.1).

(** ** Vocabulary of the further properties *)

(** What the parser finds on one line taken alone, as line 1 of a file of
    extension [e]. *)
Definition lineInfo (e ln : string) : fileInfo :=
  parseLine (MkFileInfo "" e [] [] 0 0) 1 ln.

(** An import reference moved to line [n], and moved down by [k] lines. *)
Definition setLine (n : Z) (r : importRef) : importRef := MkImportRef (module r) n.
Definition shiftLine (k : Z) (r : importRef) : importRef :=
  MkImportRef (module r) (line r + k).

(** The import references of the lines [ls], numbered from [n + 1]. *)
Fixpoint importsFrom (e : string) (n : Z) (ls : list string) : list importRef :=
  match ls with
  | [] => []
  | ln :: rest_ =>
      map (setLine (n + 1)) (imports (lineInfo e ln)) ++ importsFrom e (n + 1) rest_
  end.

(** The number of export lines among [ls]. *)
Fixpoint exportsOf (e : string) (ls : list string) : Z :=
  match ls with
  | [] => 0
  | ln :: rest_ => exports (lineInfo e ln) + exportsOf e rest_
  end.

(** The summary of a file whose scan delivers [ls] without error. *)
Definition parsed (filePath e : string) (ls : list string) : fileInfo :=
  (parseFile (fun _ => Scans ls false) filePath e).1.

(** A Ruby file: an extension the parser has no patterns for. *)
Definition exampleRubyLines : list string :=
  ["require 'json'"; "def handle_request(req)"; "end"].

(** A Go file with a one-line import and an import block. *)
Definition exampleGoImports : list string :=
  ["package main";
   str (bytes "import " ++ dquote :: bytes "fmt" ++ [dquote]);
   "import (";
   quotedLine (bytes "	") (bytes "os") [];
   ")"].

(** The findings of the four analyzers on one file, each run on an empty
    response, in the order [analyzeFile] runs them. *)
Definition fileFindings (g : gmap string (list string)) (root : string)
    (fi : fileInfo) : list finding :=
  checkCircularDeps [] fi g root ++ checkGodObject [] fi
  ++ checkSecurityMixing [] fi ++ checkMissingAbstraction [] fi.

(** What the walk keeps of a file: its extension is one of the four and is
    that of its path, opening and scanning its path succeeds, and the
    summary is the parse of the lines delivered. *)
Definition keptFile (open : string -> fileContent) (fi : fileInfo) : Prop :=
  sourceExtensions (ext fi) = true
  /\ ext fi = filepath.Ext (path fi)
  /\ open (path fi) = Scans (lines fi) false
  /\ fi = parsed (path fi) (ext fi) (lines fi).

(** The rule identifiers with their severity and confidence. *)
Definition ruleTable : list (string * Severity * Confidence) :=
  [("ARCH-001", SeverityMedium, ConfidenceHigh);
   ("ARCH-002", SeverityMedium, ConfidenceMedium);
   ("ARCH-003", SeverityHigh, ConfidenceHigh);
   ("ARCH-004", SeverityLow, ConfidenceMedium)].

(** Opening and scanning yields no summary: the open fails, or the scan
    ends in an error. *)
Definition unreadable (c : fileContent) : Prop :=
  match c with
  | OpenFails => True
  | Scans _ scanErr => scanErr = true
  end.

(** Two file systems that differ only on unreadable files. *)
Definition sameReadable (open1 open2 : string -> fileContent) : Prop :=
  forall p, open1 p = open2 p \/ (unreadable (open1 p) /\ unreadable (open2 p)).

(** The example workspace where the scan of [api/users.go] breaks off
    after two lines, and where the file cannot be opened. *)
Definition exampleBrokenOpen (p : string) : fileContent :=
  if String.eqb p "/srv/api/users.go"
  then Scans (take 2 (lines exampleHandlerFile)) true
  else exampleServiceOpen p.

Definition exampleFailingOpen (p : string) : fileContent :=
  if String.eqb p "/srv/api/users.go" then OpenFails else exampleServiceOpen p.

(** The example workspace checked out under a directory named [vendor]. *)
Definition exampleVendoredLstat (p : string) : option node :=
  if String.eqb p "/home/ci/vendor" then Some exampleServiceTree else None.

(** A context whose deadline passes at its [n]-th consultation. *)
Definition deadlineFrom (n : nat) (t : nat) : ctxStatus :=
  if (t <? n)%nat then CtxLive else CtxDeadlineExceeded.

(** The loop of [checkCircularDeps] over the imports when every [range]
    over the import graph delivers the entries in an order of its own:
    [orders] pairs each import with the order met while it is examined. *)
Fixpoint circularLoopIn (resp : ResponseBuilder) (fi : fileInfo)
    (relPath myPkg : string)
    (orders : list (importRef * list (string * list string))) : ResponseBuilder :=
  match orders with
  | [] => resp
  | (imp, entries) :: rest_ =>
      if mutualImport relPath myPkg imp entries
      then circularFinding resp fi relPath imp
      else circularLoopIn resp fi relPath myPkg rest_
  end.

(** A workspace [/w] of two packages that import each other. *)
Definition exampleCycleTree : node :=
  NDir (ECons "a" (NDir (ECons "x.go" NFile ENil) false)
          (ECons "b" (NDir (ECons "y.go" NFile ENil) false) ENil))
       false.

Definition exampleCycleLstat (p : string) : option node :=
  if String.eqb p "/w" then Some exampleCycleTree else None.

Definition exampleCycleOpen (p : string) : fileContent :=
  if String.eqb p "/w/a/x.go" then
    Scans ["package a"; "import ("; quotedLine (bytes "  ") (bytes "proj/b") []; ")"] false
  else if String.eqb p "/w/b/y.go" then
    Scans ["package b"; "import ("; quotedLine (bytes "  ") (bytes "proj/a") []; ")"] false
  else OpenFails.

(** What a finding [f] of the file [fi] rests on: the line it points at
    exists, and the pattern of its rule matched there.  For ARCH-001 the
    line is the import line of the module named in the metadata; ARCH-002
    has no line of its own and points at line 1 of a file of more than 500
    lines; for ARCH-003 the line has a cryptography or authentication
    signal; for ARCH-004 it is a data-access line of a file with a handler
    signature, quoted trimmed in the message. *)
Definition evidence (fi : fileInfo) (f : finding) : Prop :=
  exists ln,
    1 <= startLine f
    /\ lines fi !! Z.to_nat (startLine f - 1) = Some ln
    /\ ((ruleID f = "ARCH-001"
         /\ exists imp, imp ∈ imports (lineInfo (ext fi) ln)
                        /\ metadata f !! "imported_module" = Some (module imp))
        \/ (ruleID f = "ARCH-002" /\ startLine f = 1
            /\ 500 < Z.of_nat (length (lines fi)))
        \/ (ruleID f = "ARCH-003"
            /\ (cryptoSignal (ext fi) ln = true \/ authSignal (ext fi) ln = true))
        \/ (ruleID f = "ARCH-004" /\ dataAccessLine ln = true
            /\ Exists handlerLine (lines fi)
            /\ message f
               = "Missing abstraction layer: direct database call in handler: "
                 +:+ strings.TrimSpace ln)).

(** The readable source files of a tree outside its skipped directories,
    parsed, in the order of the tree: [sourcesIn] for the node [n] named
    [name] at path [p], [sourcesInEntries] for the entries of the
    directory at [p]. *)
Fixpoint sourcesIn (open : string -> fileContent) (p name : string) (n : node)
  : list fileInfo :=
  match n with
  | NFile =>
      if sourceExtensions (filepath.Ext p) then
        match open p with
        | Scans ls false => [parsed p (filepath.Ext p) ls]
        | _ => []
        end
      else []
  | NDir es _ => if skippedDirs name then [] else sourcesInEntries open p es
  end
with sourcesInEntries (open : string -> fileContent) (p : string) (es : entries)
  : list fileInfo :=
  match es with
  | ENil => []
  | ECons name1 n1 rest_ =>
      sourcesIn open (filepath.Join [p; name1]) name1 n1 ++ sourcesInEntries open p rest_
  end.

(** What the walk gathers from a root that is a regular file: the file
    itself when the context is live at the one callback, its extension is
    one of the four and [parseFile] returns no error; nothing otherwise. *)
Definition rootFileParsed (ctx : nat -> ctxStatus) (open : string -> fileContent)
    (root : string) : list fileInfo :=
  match ctx 0%nat, sourceExtensions (filepath.Ext root),
        parseFile open root (filepath.Ext root) with
  | CtxLive, true, (fi, None) => [fi]
  | _, _, _ => []
  end.

(** How a walk that began at consultation [t0] of the context has ended
    by [r]: without error, the context live at each of its consultations;
    or at consultation [n], the first at which the context was not live,
    with the error of the context there. *)
Definition stoppedAt (ctx : nat -> ctxStatus) (t0 : nat)
    (r : scanState * option error) : Prop :=
  (r.2 = None /\ (t0 <= ticks r.1)%nat
   /\ forall k, (t0 <= k < ticks r.1)%nat -> ctx k = CtxLive)
  \/ (exists n, ticks r.1 = S n /\ (t0 <= n)%nat /\ ctx n <> CtxLive
                 /\ r.2 = ctxErr (ctx n)
                 /\ forall k, (t0 <= k < n)%nat -> ctx k = CtxLive).

(** * Properties *)

Arguments FindStringSubmatch : simpl never.
Arguments MatchString : simpl never.
Arguments filepath.Rel : simpl never.
Arguments filepath.Dir : simpl never.
Arguments filepath.Base : simpl never.
Arguments filepath.Ext : simpl never.
Arguments filepath.Join : simpl never.
Arguments strings.HasSuffix : simpl never.
Arguments strings.TrimSpace : simpl never.
Arguments fmt.Sprintf_d : simpl never.

(** ** Formatting *)

Lemma Atoi_Sprintf_d (n : Z) : fmt.Atoi (fmt.Sprintf_d n) = Some n.
Proof.
  unfold fmt.Atoi, fmt.Sprintf_d.
  rewrite NilZero.isi.
  - by rewrite DecimalZ.of_to.
  - destruct n; simpl; try discriminate;
      intros [= H]; by apply DecimalPos.Unsigned.to_uint_nonnil in H.
  - destruct n; simpl; try discriminate;
      intros [= H]; by apply DecimalPos.Unsigned.to_uint_nonnil in H.
Qed.

Lemma Sprintf_d_inj (n m : Z) : fmt.Sprintf_d n = fmt.Sprintf_d m -> n = m.
Proof.
  intros H. apply (f_equal fmt.Atoi) in H.
  rewrite !Atoi_Sprintf_d in H. congruence.
Qed.

(** ** ARCH-002 *)

Section GodObject.

Variable resp : ResponseBuilder.
Variable fi : fileInfo.

Lemma checkGodObject_fires :
  500 < lineCount fi -> 10 <= exports fi ->
  checkGodObject resp fi = resp ++ [godFinding fi].
Proof.
  intros Hl He. unfold checkGodObject, godFileThreshold, godExportThreshold.
  rewrite (proj2 (Z.ltb_lt _ _) Hl), (proj2 (Z.leb_le _ _) He).
  reflexivity.
Qed.

Lemma checkGodObject_silent :
  ~ (500 < lineCount fi /\ 10 <= exports fi) ->
  checkGodObject resp fi = resp.
Proof.
  intros H. unfold checkGodObject, godFileThreshold, godExportThreshold.
  destruct (Z.ltb_spec 500 (lineCount fi)), (Z.leb_spec 10 (exports fi));
    simpl; try reflexivity.
  exfalso. apply H. lia.
Qed.

Lemma godFinding_metadata :
  metadata (godFinding fi) !! "line_count" = Some (fmt.Sprintf_d (lineCount fi))
  /\ metadata (godFinding fi) !! "export_count" = Some (fmt.Sprintf_d (exports fi)).
Proof.
  unfold godFinding; simpl. split.
  - rewrite lookup_insert_ne by done. rewrite lookup_insert_ne by done.
    apply lookup_insert_eq.
  - rewrite lookup_insert_ne by done. apply lookup_insert_eq.
Qed.

End GodObject.

Lemma emitted_app (resp fs : list finding) : emitted resp (resp ++ fs) = fs.
Proof. unfold emitted. by rewrite drop_app_length. Qed.

Lemma emitted_same (resp : list finding) : emitted resp resp = [].
Proof. unfold emitted. apply drop_all. Qed.

(** C1. The god-object analyzer emits a finding exactly when the line count
    is strictly above 500 and the export count is at least 10.  The finding
    is the only one, sits at line 1 of the file, and its metadata holds the
    decimal text of the exact line count and export count (reading the text
    back gives the counts).  500 lines never fire, whatever the exports
    (10 or 11 included); 501 lines with 10 exports fire. *)
Theorem checkGodObject_threshold (resp : ResponseBuilder) (fi : fileInfo) :
  (emitted resp (checkGodObject resp fi) <> []
     <-> 500 < lineCount fi /\ 10 <= exports fi)
  /\ (forall f, f ∈ emitted resp (checkGodObject resp fi) ->
        checkGodObject resp fi = resp ++ [f]
        /\ ruleID f = "ARCH-002" /\ filePath f = path fi
        /\ startLine f = 1 /\ endLine f = 1
        /\ fmt.Atoi <$> metadata f !! "line_count" = Some (Some (lineCount fi))
        /\ fmt.Atoi <$> metadata f !! "export_count" = Some (Some (exports fi)))
  /\ (lineCount fi = 500 -> checkGodObject resp fi = resp)
  /\ (lineCount fi = 501 -> exports fi = 10 ->
        checkGodObject resp fi = resp ++ [godFinding fi]).
Proof.
  destruct (decide (500 < lineCount fi /\ 10 <= exports fi)) as [[Hl He]|Hn].
  - pose proof (checkGodObject_fires resp fi Hl He) as Hf.
    rewrite Hf, emitted_app. split; [|split; [|split]].
    + split; [by intros _ | done].
    + intros f Hin. apply list_elem_of_singleton in Hin as ->.
      destruct (godFinding_metadata fi) as [H1 H2].
      rewrite H1, H2. simpl. by rewrite !Atoi_Sprintf_d.
    + intros H. lia.
    + done.
  - pose proof (checkGodObject_silent resp fi Hn) as Hs.
    rewrite Hs, emitted_same. split; [|split; [|split]].
    + split; [done | by intros H].
    + intros f Hin. by apply elem_of_nil in Hin.
    + done.
    + intros H1 H2. exfalso. apply Hn. lia.
Qed.

(** The boundary of C1 on three concrete summaries. *)
Lemma checkGodObject_threshold_witness :
  checkGodObject [] (MkFileInfo "a.go" ".go" [] [] 10 500) = []
  /\ checkGodObject [] (MkFileInfo "a.go" ".go" [] [] 11 500) = []
  /\ checkGodObject [] (MkFileInfo "a.go" ".go" [] [] 10 501)
     = [godFinding (MkFileInfo "a.go" ".go" [] [] 10 501)].
Proof.
  split; [|split].
  - apply (checkGodObject_threshold [] (MkFileInfo "a.go" ".go" [] [] 10 500)).
    reflexivity.
  - apply (checkGodObject_threshold [] (MkFileInfo "a.go" ".go" [] [] 11 500)).
    reflexivity.
  - apply (checkGodObject_threshold [] (MkFileInfo "a.go" ".go" [] [] 10 501));
      reflexivity.
Defined.

(** ** File parser *)

Ltac case_ifs :=
  repeat match goal with
         | |- context [if ?b then _ else _] => destruct b; simpl
         end.

Lemma parseLine_shape (info : fileInfo) (n : Z) (ln : string) :
  path (parseLine info n ln) = path info
  /\ ext (parseLine info n ln) = ext info
  /\ lines (parseLine info n ln) = lines info ++ [ln]
  /\ (imports (parseLine info n ln) = imports info
      \/ exists m, imports (parseLine info n ln) = imports info ++ [MkImportRef m n]).
Proof.
  unfold parseLine; simpl. case_ifs; eauto 10.
Qed.

Lemma scanLoop_invariant (ls : list string) :
  forall (info : fileInfo) (n : Z),
    Z.of_nat (length (lines info)) = n ->
    Forall (fun r => 1 <= line r <= n) (imports info) ->
    Z.of_nat (length (lines (scanLoop ls info n).1)) = (scanLoop ls info n).2
    /\ Forall (fun r => 1 <= line r <= (scanLoop ls info n).2)
              (imports (scanLoop ls info n).1)
    /\ lines (scanLoop ls info n).1 = lines info ++ ls
    /\ path (scanLoop ls info n).1 = path info
    /\ ext (scanLoop ls info n).1 = ext info.
Proof.
  induction ls as [|ln ls IH]; intros info n Hlen Himp; simpl.
  - by rewrite app_nil_r.
  - destruct (parseLine_shape info (n + 1) ln) as (Hp & He & Hl & Hi).
    destruct (IH (parseLine info (n + 1) ln) (n + 1)) as (H1 & H2 & H3 & H4 & H5).
    + rewrite Hl, length_app. simpl. lia.
    + assert (Forall (fun r => 1 <= line r <= n + 1) (imports info)) as Hold.
      { eapply Forall_impl; [exact Himp|]. simpl. intros r Hr. lia. }
      destruct Hi as [-> | [m ->]]; [exact Hold|].
      apply Forall_app. split; [exact Hold|].
      apply Forall_singleton. simpl. lia.
    + repeat split; try done.
      * by rewrite H3, Hl, <- app_assoc.
      * congruence.
      * congruence.
Qed.

(** C8. Whatever the file yields, the summary [parseFile] returns has a
    line count equal to the number of entries of its lines, and every
    import reference has its line number in [1, lineCount]. *)
Theorem parseFile_line_invariants (open : string -> fileContent)
    (filePath ext_ : string) :
  lineCount (parseFile open filePath ext_).1
    = Z.of_nat (length (lines (parseFile open filePath ext_).1))
  /\ Forall (fun r => 1 <= line r <= lineCount (parseFile open filePath ext_).1)
            (imports (parseFile open filePath ext_).1).
Proof.
  unfold parseFile. destruct (open filePath) as [|ls scanErr]; simpl.
  - split; [reflexivity | constructor].
  - destruct (scanLoop_invariant ls (MkFileInfo filePath ext_ [] [] 0 0) 0)
      as (H1 & H2 & _); [reflexivity | constructor |].
    destruct (scanLoop ls (MkFileInfo filePath ext_ [] [] 0 0) 0) as [info n].
    simpl in *. split; [by symmetry | exact H2].
Qed.

Lemma parseFile_fields (open : string -> fileContent) (filePath ext_ : string)
    (ls : list string) (scanErr : bool) :
  open filePath = Scans ls scanErr ->
  path (parseFile open filePath ext_).1 = filePath
  /\ ext (parseFile open filePath ext_).1 = ext_
  /\ lines (parseFile open filePath ext_).1 = ls.
Proof.
  intros Ho. unfold parseFile. rewrite Ho.
  destruct (scanLoop_invariant ls (MkFileInfo filePath ext_ [] [] 0 0) 0)
    as (_ & _ & H3 & H4 & H5); [reflexivity | constructor |].
  destruct (scanLoop ls (MkFileInfo filePath ext_ [] [] 0 0) 0) as [info n].
  simpl in *. auto.
Qed.

Lemma parseFile_ok_path (open : string -> fileContent) (filePath ext_ : string)
    (info : fileInfo) :
  parseFile open filePath ext_ = (info, None) -> path info = filePath.
Proof.
  intros H. unfold parseFile in H.
  destruct (open filePath) as [|ls scanErr] eqn:Ho; [discriminate|].
  destruct (parseFile_fields open filePath ext_ ls scanErr Ho) as (Hp & _).
  unfold parseFile in Hp. rewrite Ho in Hp.
  destruct (scanLoop ls (MkFileInfo filePath ext_ [] [] 0 0) 0) as [i n].
  simpl in *. by injection H as <- _.
Qed.

(** ** ARCH-004 *)

Lemma isHandler_true (ls : list string) :
  isHandler ls = true <-> Exists handlerLine ls.
Proof.
  unfold handlerLine. induction ls as [|ln ls IH]; simpl.
  - split; [discriminate | by intros H%Exists_nil].
  - rewrite Exists_cons. destruct (MatchString reHandlerFunc ln).
    + split; [by left | done].
    + rewrite IH. split; [by right | by intros [?|?]].
Qed.

Lemma isHandler_false (ls : list string) :
  isHandler ls = false <-> Forall (fun ln => ~ handlerLine ln) ls.
Proof.
  rewrite <- not_true_iff_false, isHandler_true.
  rewrite <- Forall_Exists_neg. done.
Qed.

Lemma abstractionLoop_spec (fi : fileInfo) (ls : list string) :
  forall (resp : ResponseBuilder) (i : Z),
    abstractionLoop resp fi i ls
    = resp ++ map (abstractionFindingAt fi)
                  (List.filter (fun nl => dataAccessLine nl.2)
                               (zip (seqZ (i + 1) (Z.of_nat (length ls))) ls)).
Proof.
  induction ls as [|ln ls IH]; intros resp i.
  - simpl. by rewrite app_nil_r.
  - cbn [abstractionLoop length].
    rewrite (seqZ_cons (i + 1)) by lia.
    replace (Z.pred (Z.of_nat (S (length ls)))) with (Z.of_nat (length ls)) by lia.
    replace (Z.succ (i + 1)) with (i + 1 + 1) by lia.
    cbn [zip zip_with List.filter]. unfold dataAccessLine at 1. cbn [snd].
    rewrite IH. destruct (MatchString reSQLInHandler ln).
    + unfold abstractionFinding, Done, WithMetadata, At, Finding. cbn [fst snd map].
      rewrite <- app_assoc. reflexivity.
    + reflexivity.
Qed.

Lemma filter_numbered_length (P : string -> bool) (ls : list string) :
  forall i : Z,
    length (List.filter (fun nl : Z * string => P nl.2)
                        (zip (seqZ i (Z.of_nat (length ls))) ls))
    = length (List.filter P ls).
Proof.
  induction ls as [|ln ls IH]; intros i; [reflexivity|].
  cbn [length]. rewrite (seqZ_cons i) by lia.
  replace (Z.pred (Z.of_nat (S (length ls)))) with (Z.of_nat (length ls)) by lia.
  cbn [zip zip_with List.filter snd]. destruct (P ln); simpl; by rewrite IH.
Qed.

(** C3. Without a handler or controller signature on any line the
    missing-abstraction analyzer adds nothing, however many data-access
    lines there are.  With one, it adds one finding for every line that
    matches the data-access pattern, in line order and without a cap, each
    at that line's number and with the trimmed text of the line at the end
    of its message. *)
Theorem checkMissingAbstraction_per_line (resp : ResponseBuilder) (fi : fileInfo) :
  (Forall (fun ln => ~ handlerLine ln) (lines fi) ->
     checkMissingAbstraction resp fi = resp)
  /\ (Exists handlerLine (lines fi) ->
        checkMissingAbstraction resp fi
        = resp ++ map (abstractionFindingAt fi)
                      (List.filter (fun nl => dataAccessLine nl.2) (numbered (lines fi)))
        /\ length (emitted resp (checkMissingAbstraction resp fi))
           = length (List.filter dataAccessLine (lines fi))).
Proof.
  unfold checkMissingAbstraction. split.
  - intros H%isHandler_false. by rewrite H.
  - intros H%isHandler_true. rewrite H. simpl.
    rewrite abstractionLoop_spec. split; [reflexivity|].
    rewrite emitted_app, length_map. apply filter_numbered_length.
Qed.

(** C3 on two concrete files: raw SQL without a handler is silent; a handler
    with two database calls gets two findings, at lines 2 and 3. *)
Lemma checkMissingAbstraction_per_line_witness :
  checkMissingAbstraction [] exampleSqlOnlyFile = []
  /\ checkMissingAbstraction [] exampleHandlerFile
     = [abstractionFindingAt exampleHandlerFile (2, "	rows, err := db.Query(stmt)");
        abstractionFindingAt exampleHandlerFile (3, "	_, err = db.Exec(del, id)  ")]
  /\ message (abstractionFindingAt exampleHandlerFile (3, "	_, err = db.Exec(del, id)  "))
     = "Missing abstraction layer: direct database call in handler: _, err = db.Exec(del, id)".
Proof.
  split; [|split].
  - apply (checkMissingAbstraction_per_line [] exampleSqlOnlyFile).
    repeat constructor; intros H; vm_compute in H; discriminate H.
  - assert (Exists handlerLine (lines exampleHandlerFile)) as H.
    { apply Exists_cons_hd. vm_compute. reflexivity. }
    destruct (checkMissingAbstraction_per_line [] exampleHandlerFile) as [_ Hfire].
    destruct (Hfire H) as [Heq _]. rewrite Heq. vm_compute. reflexivity.
  - vm_compute. reflexivity.
Defined.

(** ** ARCH-003 *)

Lemma present_existsb (p : string -> bool) (ls : list string) :
  present p ls <-> existsb p ls = true.
Proof.
  unfold present. rewrite existsb_exists.
  split; intros (ln & Hin & Hp); exists ln; split; try done;
    by apply list_elem_of_In.
Qed.

Lemma firstFrom_nonneg_pos (p : string -> bool) (ls : list string) :
  forall i, 0 <= i -> existsb p ls = true -> 0 < firstFrom p i ls.
Proof.
  induction ls as [|ln ls IH]; intros i Hi; simpl; [discriminate|].
  destruct (p ln); simpl; [lia|]. intros H. apply IH; [lia | done].
Qed.

Lemma firstFrom_none (p : string -> bool) (ls : list string) :
  forall i, existsb p ls = false -> firstFrom p i ls = 0.
Proof.
  induction ls as [|ln ls IH]; intros i; simpl; [done|].
  destruct (p ln); simpl; [discriminate | apply IH].
Qed.

Lemma firstFrom_list_find (p : string -> bool) (ls : list string) :
  forall i,
    firstFrom p i ls
    = match list_find (fun ln => p ln = true) ls with
      | Some (k, _) => i + Z.of_nat k + 1
      | None => 0
      end.
Proof.
  induction ls as [|ln ls IH]; intros i; [reflexivity|].
  cbn [firstFrom list_find]. destruct (p ln) eqn:Hp.
  - rewrite decide_True by done. simpl. lia.
  - rewrite decide_False by done.
    rewrite IH. destruct (list_find _ ls) as [[k x]|]; simpl; [lia | done].
Qed.

Lemma firstFrom_firstLine (p : string -> bool) (ls : list string) :
  firstFrom p 0 ls = firstLine p ls.
Proof.
  unfold firstLine. rewrite firstFrom_list_find.
  destruct (list_find _ ls) as [[k x]|]; [lia | done].
Qed.

Lemma mixStep_fields (e : string) (i : Z) (ln : string) (st : mixState) :
  hasCrypto (mixStep e i ln st) = hasCrypto st || cryptoSignal e ln
  /\ hasAuth (mixStep e i ln st) = hasAuth st || authSignal e ln
  /\ hasBizLogic (mixStep e i ln st) = hasBizLogic st || businessSignal ln
  /\ hasDBAccess (mixStep e i ln st) = hasDBAccess st || dataAccessSignal ln
  /\ hasHTTPRoutes (mixStep e i ln st) = hasHTTPRoutes st || routeSignal ln
  /\ cryptoLine (mixStep e i ln st)
     = (if cryptoSignal e ln && (cryptoLine st =? 0) then i + 1 else cryptoLine st)
  /\ authLine (mixStep e i ln st)
     = (if authSignal e ln && (authLine st =? 0) then i + 1 else authLine st).
Proof.
  unfold mixStep, cryptoSignal, authSignal, businessSignal, dataAccessSignal,
    routeSignal, noteAuth, noteCrypto.
  destruct st as [c a b d h cl al]; simpl.
  destruct (String.eqb e ".go"); [|destruct (String.eqb e ".py");
    [|destruct (String.eqb e ".js" || String.eqb e ".ts")]];
  repeat match goal with
         | |- context [MatchString ?r ln] => destruct (MatchString r ln); simpl
         end;
  rewrite ?orb_true_r, ?orb_false_r, ?andb_false_r; simpl;
  repeat split; try reflexivity;
  try (destruct (cl =? 0); reflexivity); try (destruct (al =? 0); reflexivity).
Qed.

Lemma mixLoop_fields (e : string) (ls : list string) :
  forall (i : Z) (st : mixState),
    0 <= i ->
    hasCrypto (mixLoop e i ls st) = hasCrypto st || existsb (cryptoSignal e) ls
    /\ hasAuth (mixLoop e i ls st) = hasAuth st || existsb (authSignal e) ls
    /\ hasBizLogic (mixLoop e i ls st) = hasBizLogic st || existsb businessSignal ls
    /\ hasDBAccess (mixLoop e i ls st) = hasDBAccess st || existsb dataAccessSignal ls
    /\ hasHTTPRoutes (mixLoop e i ls st) = hasHTTPRoutes st || existsb routeSignal ls
    /\ cryptoLine (mixLoop e i ls st)
       = (if cryptoLine st =? 0 then firstFrom (cryptoSignal e) i ls else cryptoLine st)
    /\ authLine (mixLoop e i ls st)
       = (if authLine st =? 0 then firstFrom (authSignal e) i ls else authLine st).
Proof.
  induction ls as [|ln ls IH]; intros i st Hi.
  - simpl. rewrite !orb_false_r.
    repeat split; try reflexivity.
    + by destruct (Z.eqb_spec (cryptoLine st) 0).
    + by destruct (Z.eqb_spec (authLine st) 0).
  - cbn [mixLoop existsb firstFrom].
    destruct (mixStep_fields e i ln st) as (H1 & H2 & H3 & H4 & H5 & H6 & H7).
    destruct (IH (i + 1) (mixStep e i ln st)) as (I1 & I2 & I3 & I4 & I5 & I6 & I7);
      [lia|].
    rewrite I1, I2, I3, I4, I5, I6, I7, H1, H2, H3, H4, H5, H6, H7.
    rewrite !orb_assoc. repeat split; try reflexivity.
    + destruct (cryptoSignal e ln); simpl.
      * destruct (Z.eqb_spec (cryptoLine st) 0) as [->|Hne]; simpl.
        -- destruct (Z.eqb_spec (i + 1) 0); [lia | reflexivity].
        -- by rewrite (proj2 (Z.eqb_neq _ _) Hne).
      * reflexivity.
    + destruct (authSignal e ln); simpl.
      * destruct (Z.eqb_spec (authLine st) 0) as [->|Hne]; simpl.
        -- destruct (Z.eqb_spec (i + 1) 0); [lia | reflexivity].
        -- by rewrite (proj2 (Z.eqb_neq _ _) Hne).
      * reflexivity.
Qed.

Lemma firstLine_pos (p : string -> bool) (ls : list string) :
  existsb p ls = true -> 0 < firstLine p ls.
Proof.
  intros H. rewrite <- firstFrom_firstLine. by apply firstFrom_nonneg_pos.
Qed.

Lemma firstLine_zero (p : string -> bool) (ls : list string) :
  existsb p ls = false -> firstLine p ls = 0.
Proof.
  intros H. rewrite <- firstFrom_firstLine. by apply firstFrom_none.
Qed.

(** The first line is a line the signal is present on, and no earlier one is. *)
Lemma firstLine_first (p : string -> bool) (ls : list string) :
  present p ls ->
  exists (i : nat) (ln : string),
    firstLine p ls = Z.of_nat i + 1 /\ ls !! i = Some ln /\ p ln = true
    /\ forall (j : nat) (ln' : string), ls !! j = Some ln' -> (j < i)%nat -> p ln' = false.
Proof.
  intros (ln0 & Hin & Hp). unfold firstLine.
  destruct (list_find (fun ln => p ln = true) ls) as [[i ln]|] eqn:Hf.
  - apply list_find_Some in Hf as (Hl & Hpl & Hmin).
    exists i, ln. repeat split; try done.
    intros j ln' Hj Hlt. specialize (Hmin j ln' Hj Hlt).
    by destruct (p ln').
  - apply list_find_None in Hf. rewrite Forall_forall in Hf.
    by destruct (Hf ln0 Hin).
Qed.

Lemma checkSecurityMixing_eq (resp : ResponseBuilder) (fi : fileInfo) :
  checkSecurityMixing resp fi
  = if (existsb (cryptoSignal (ext fi)) (lines fi)
        || existsb (authSignal (ext fi)) (lines fi))
       && (existsb businessSignal (lines fi)
           || existsb dataAccessSignal (lines fi)
           || existsb routeSignal (lines fi))
    then resp ++ [mixingFinding fi]
    else resp.
Proof.
  unfold checkSecurityMixing, mixingFinding, mixingAnchor.
  destruct (mixLoop_fields (ext fi) (lines fi) 0 mixInit) as
    (H1 & H2 & H3 & H4 & H5 & H6 & H7); [lia|].
  rewrite firstFrom_firstLine in H6, H7.
  cbn [mixInit hasCrypto hasAuth hasBizLogic hasDBAccess hasHTTPRoutes
       cryptoLine authLine orb Z.eqb] in H1, H2, H3, H4, H5, H6, H7.
  pose proof (firstLine_pos (cryptoSignal (ext fi)) (lines fi)) as Hpos.
  pose proof (firstLine_zero (cryptoSignal (ext fi)) (lines fi)) as Hzero.
  set (c := existsb (cryptoSignal (ext fi)) (lines fi)) in *.
  set (a := existsb (authSignal (ext fi)) (lines fi)) in *.
  set (b := existsb businessSignal (lines fi)) in *.
  set (d := existsb dataAccessSignal (lines fi)) in *.
  set (h := existsb routeSignal (lines fi)) in *.
  set (fc := firstLine (cryptoSignal (ext fi)) (lines fi)) in *.
  set (fa := firstLine (authSignal (ext fi)) (lines fi)) in *.
  destruct (mixLoop (ext fi) 0 (lines fi) mixInit) as [c' a' b' d' h' cl al].
  cbn [hasCrypto hasAuth hasBizLogic hasDBAccess hasHTTPRoutes cryptoLine authLine]
    in *.
  subst c' a' b' d' h' cl al.
  assert ((if fc =? 0 then fa else fc) = (if c then fc else fa)) as ->.
  { destruct c.
    - specialize (Hpos eq_refl). destruct (Z.eqb_spec fc 0); [lia | reflexivity].
    - by rewrite (Hzero eq_refl). }
  clearbody c a b d h fc fa. clear Hpos Hzero.
  destruct c, a, b, d, h; reflexivity.
Qed.

(** C2. The security-mixing analyzer adds exactly one finding when a
    cryptography or authentication signal is present on some line and a
    business-logic, data-access or HTTP-route signal is present on some
    line, and adds nothing otherwise; in particular cryptography alone, with
    none of the three business signals, gives no finding.  The finding is
    anchored at the first line a cryptography pattern matched, or at the
    first authentication line when no line matched one. *)
Theorem checkSecurityMixing_decision (resp : ResponseBuilder) (fi : fileInfo) :
  let crypto := cryptoSignal (ext fi) in
  let auth := authSignal (ext fi) in
  let securityCritical := present crypto (lines fi) \/ present auth (lines fi) in
  let businessMixed :=
    present businessSignal (lines fi) \/ present dataAccessSignal (lines fi)
    \/ present routeSignal (lines fi) in
  (securityCritical /\ businessMixed ->
     checkSecurityMixing resp fi = resp ++ [mixingFinding fi])
  /\ (~ (securityCritical /\ businessMixed) -> checkSecurityMixing resp fi = resp)
  /\ (~ businessMixed -> checkSecurityMixing resp fi = resp)
  /\ filePath (mixingFinding fi) = path fi
  /\ endLine (mixingFinding fi) = startLine (mixingFinding fi)
  /\ (present crypto (lines fi) ->
        startLine (mixingFinding fi) = firstLine crypto (lines fi))
  /\ (~ present crypto (lines fi) ->
        startLine (mixingFinding fi) = firstLine auth (lines fi)).
Proof.
  intros crypto auth securityCritical businessMixed.
  subst securityCritical businessMixed crypto auth.
  rewrite !present_existsb, checkSecurityMixing_eq.
  unfold mixingFinding, mixingAnchor; cbn [filePath startLine endLine].
  destruct (existsb (cryptoSignal (ext fi)) (lines fi)),
    (existsb (authSignal (ext fi)) (lines fi)),
    (existsb businessSignal (lines fi)),
    (existsb dataAccessSignal (lines fi)),
    (existsb routeSignal (lines fi)); simpl;
  repeat split; try done; intros; exfalso; intuition congruence.
Qed.

(** C2 on three concrete files. *)
Lemma checkSecurityMixing_decision_witness :
  (checkSecurityMixing [] exampleMixedFile = [mixingFinding exampleMixedFile]
   /\ startLine (mixingFinding exampleMixedFile) = 2)
  /\ checkSecurityMixing [] exampleCryptoOnlyFile = []
  /\ (checkSecurityMixing [] exampleAuthRouteFile = [mixingFinding exampleAuthRouteFile]
      /\ startLine (mixingFinding exampleAuthRouteFile) = 3).
Proof.
  split; [|split].
  - destruct (checkSecurityMixing_decision [] exampleMixedFile)
      as (Hfire & _ & _ & _ & _ & Hcrypto & _).
    assert (present (cryptoSignal (ext exampleMixedFile)) (lines exampleMixedFile))
      as Hc by (apply present_existsb; vm_compute; reflexivity).
    split.
    + apply Hfire. split; [by left|].
      left. apply present_existsb. vm_compute. reflexivity.
    + rewrite (Hcrypto Hc). vm_compute. reflexivity.
  - destruct (checkSecurityMixing_decision [] exampleCryptoOnlyFile)
      as (_ & _ & Hsilent & _).
    apply Hsilent. rewrite !present_existsb.
    intros [H|[H|H]]; vm_compute in H; discriminate H.
  - destruct (checkSecurityMixing_decision [] exampleAuthRouteFile)
      as (Hfire & _ & _ & _ & _ & _ & Hauth).
    split.
    + apply Hfire. split.
      * right. apply present_existsb. vm_compute. reflexivity.
      * right; right. apply present_existsb. vm_compute. reflexivity.
    + rewrite Hauth; [vm_compute; reflexivity|].
      rewrite present_existsb. vm_compute. discriminate.
Defined.

(** ** ARCH-001 *)

Lemma namesPackage_bool (imported pkg : string) :
  String.eqb (filepath.Base imported) pkg
  || strings.HasSuffix imported ("/" +:+ pkg) = true
  <-> namesPackage imported pkg.
Proof.
  unfold namesPackage. rewrite orb_true_iff, String.eqb_eq. done.
Qed.

Lemma importsBack_true (myPkg : string) (otherImports : list string) :
  importsBack myPkg otherImports = true
  <-> exists otherImp, otherImp ∈ otherImports /\ namesPackage otherImp myPkg.
Proof.
  induction otherImports as [|x l IH]; simpl.
  - split; [discriminate | intros (y & Hy & _); by apply elem_of_nil in Hy].
  - destruct (String.eqb (filepath.Base x) myPkg
              || strings.HasSuffix x ("/" +:+ myPkg)) eqn:Hx.
    + split; [intros _ | done]. exists x. split; [by left|].
      by apply namesPackage_bool.
    + rewrite IH. split.
      * intros (y & Hy & Hn). exists y. split; [by right | done].
      * intros (y & Hy & Hn). apply elem_of_cons in Hy as [->|Hy].
        -- apply namesPackage_bool in Hn. congruence.
        -- by exists y.
Qed.

(** The loop over the graph answers whether some entry among those ranged
    over reciprocates, whatever their order. *)
Lemma mutualImport_true (relPath myPkg : string) (imp : importRef)
    (entries : list (string * list string)) :
  mutualImport relPath myPkg imp entries = true
  <-> exists otherFile otherImports otherImp,
        (otherFile, otherImports) ∈ entries
        /\ otherFile <> relPath
        /\ namesPackage (module imp) (filepath.Base (filepath.Dir otherFile))
        /\ otherImp ∈ otherImports
        /\ namesPackage otherImp myPkg.
Proof.
  induction entries as [|[f fi] l IH]; cbn [mutualImport].
  - split; [discriminate | intros (a & b & c & H & _); by apply elem_of_nil in H].
  - assert ((exists otherFile otherImports otherImp,
               (otherFile, otherImports) ∈ (f, fi) :: l
               /\ otherFile <> relPath
               /\ namesPackage (module imp) (filepath.Base (filepath.Dir otherFile))
               /\ otherImp ∈ otherImports
               /\ namesPackage otherImp myPkg)
            <-> (f <> relPath
                 /\ namesPackage (module imp) (filepath.Base (filepath.Dir f))
                 /\ importsBack myPkg fi = true)
                \/ mutualImport relPath myPkg imp l = true) as ->.
    { rewrite IH, importsBack_true. split.
      - intros (a & b & c & Hin & H1 & H2 & H3 & H4).
        apply elem_of_cons in Hin as [[= -> ->]|Hin].
        + left. eauto.
        + right. exists a, b, c. done.
      - intros [(H1 & H2 & c & H3 & H4)|(a & b & c & Hin & H)].
        + exists f, fi, c. repeat split; try done. by left.
        + exists a, b, c. split; [by right | done]. }
    destruct (String.eqb_spec f relPath) as [->|Hne].
    + split; [by right | intros [(H & _)|H]; done].
    + destruct (String.eqb (filepath.Base (module imp)) (filepath.Base (filepath.Dir f))
                || strings.HasSuffix (module imp) ("/" +:+ filepath.Base (filepath.Dir f)))
        eqn:Hn.
      * apply namesPackage_bool in Hn.
        destruct (importsBack myPkg fi) eqn:Hb.
        -- split; [by left | done].
        -- split; [by right | intros [(_ & _ & H)|H]; done].
      * split; [by right|]. intros [(_ & H & _)|H]; [|done].
        apply namesPackage_bool in H. congruence.
Qed.

Lemma mutualImport_reciprocated (g : gmap string (list string))
    (relPath myPkg : string) (imp : importRef) :
  mutualImport relPath myPkg imp (map_to_list g) = true
  <-> reciprocated g relPath myPkg imp.
Proof.
  rewrite mutualImport_true. unfold reciprocated.
  split; intros (a & b & c & H & Hrest); exists a, b, c; split; try done;
    by apply elem_of_map_to_list.
Qed.

(** Go ranges over a map in an unspecified order; the answer of the loop
    does not depend on it. *)
Lemma mutualImport_order (relPath myPkg : string) (imp : importRef)
    (entries entries' : list (string * list string)) :
  entries ≡ₚ entries' ->
  mutualImport relPath myPkg imp entries = mutualImport relPath myPkg imp entries'.
Proof.
  intros Hp. apply eq_true_iff_eq. rewrite !mutualImport_true.
  split; intros (a & b & c & H & Hrest); exists a, b, c; split; try done.
  - by rewrite <- Hp.
  - by rewrite Hp.
Qed.

Lemma circularLoop_order (resp : ResponseBuilder) (fi : fileInfo)
    (relPath myPkg : string) (entries entries' : list (string * list string))
    (imps : list importRef) :
  entries ≡ₚ entries' ->
  circularLoop resp fi relPath myPkg entries imps
  = circularLoop resp fi relPath myPkg entries' imps.
Proof.
  intros Hp. induction imps as [|imp rest IH]; [reflexivity|].
  cbn [circularLoop]. rewrite (mutualImport_order _ _ _ _ _ Hp), IH. reflexivity.
Qed.

Lemma circularFinding_eq (resp : ResponseBuilder) (fi : fileInfo)
    (relPath : string) (imp : importRef) :
  circularFinding resp fi relPath imp = resp ++ [circularFindingOf fi relPath imp].
Proof. reflexivity. Qed.

Lemma circularLoop_spec (resp : ResponseBuilder) (fi : fileInfo)
    (relPath myPkg : string) (g : gmap string (list string)) (imps : list importRef) :
  (Forall (fun imp => ~ reciprocated g relPath myPkg imp) imps
   /\ circularLoop resp fi relPath myPkg (map_to_list g) imps = resp)
  \/ (exists pre imp post,
        imps = pre ++ imp :: post
        /\ Forall (fun imp => ~ reciprocated g relPath myPkg imp) pre
        /\ reciprocated g relPath myPkg imp
        /\ circularLoop resp fi relPath myPkg (map_to_list g) imps
           = resp ++ [circularFindingOf fi relPath imp]).
Proof.
  induction imps as [|imp rest IH]; cbn [circularLoop].
  - left. split; [constructor | reflexivity].
  - destruct (mutualImport relPath myPkg imp (map_to_list g)) eqn:Hm.
    + right. exists [], imp, rest. apply mutualImport_reciprocated in Hm.
      split; [reflexivity|]. split; [constructor|]. split; [exact Hm|].
      apply circularFinding_eq.
    + assert (~ reciprocated g relPath myPkg imp) as Hn.
      { rewrite <- mutualImport_reciprocated. congruence. }
      destruct IH as [[Hall Heq]|(pre & i & post & -> & Hpre & Hi & Heq)].
      * left. split; [by constructor | done].
      * right. exists (imp :: pre), i, post.
        split; [reflexivity|]. split; [by constructor|]. split; done.
Qed.

Lemma circularLoop_first (resp : ResponseBuilder) (fi : fileInfo)
    (relPath myPkg : string) (g : gmap string (list string))
    (pre : list importRef) (imp : importRef) (post : list importRef) :
  Forall (fun i => ~ reciprocated g relPath myPkg i) pre ->
  reciprocated g relPath myPkg imp ->
  circularLoop resp fi relPath myPkg (map_to_list g) (pre ++ imp :: post)
  = resp ++ [circularFindingOf fi relPath imp].
Proof.
  intros Hpre Himp. induction Hpre as [|i pre Hi Hpre IH]; cbn [app circularLoop].
  - apply mutualImport_reciprocated in Himp. rewrite Himp.
    apply circularFinding_eq.
  - destruct (mutualImport relPath myPkg i (map_to_list g)) eqn:Hm; [|exact IH].
    apply mutualImport_reciprocated in Hm. contradiction.
Qed.

(** C4. For any file and any import graph the circular-dependency analyzer
    adds at most one finding.  When an import of the file is reciprocated
    and no earlier import is, the finding sits at the line of that import
    and is the only one, whatever imports follow it: they are not scanned,
    even if they are reciprocated too.  Every finding added is of this
    kind. *)
Theorem checkCircularDeps_at_most_once (resp : ResponseBuilder) (fi : fileInfo)
    (g : gmap string (list string)) (workspaceRoot : string) :
  let relPath := relPathOf workspaceRoot (path fi) in
  let myPkg := filepath.Base (filepath.Dir relPath) in
  (length (emitted resp (checkCircularDeps resp fi g workspaceRoot)) <= 1)%nat
  /\ (forall pre imp post,
        imports fi = pre ++ imp :: post ->
        Forall (fun i => ~ reciprocated g relPath myPkg i) pre ->
        reciprocated g relPath myPkg imp ->
        checkCircularDeps resp fi g workspaceRoot
        = resp ++ [circularFindingOf fi relPath imp])
  /\ (forall f,
        f ∈ emitted resp (checkCircularDeps resp fi g workspaceRoot) ->
        exists imp, imp ∈ imports fi
                    /\ reciprocated g relPath myPkg imp
                    /\ filePath f = path fi
                    /\ startLine f = line imp /\ endLine f = line imp)
  /\ (Forall (fun i => ~ reciprocated g relPath myPkg i) (imports fi) ->
        checkCircularDeps resp fi g workspaceRoot = resp).
Proof.
  intros relPath myPkg. unfold checkCircularDeps. fold relPath. fold myPkg.
  split; [|split; [|split]].
  - destruct (circularLoop_spec resp fi relPath myPkg g (imports fi))
      as [[_ ->]|(pre & imp & post & _ & _ & _ & ->)].
    + rewrite emitted_same. simpl. lia.
    + rewrite emitted_app. simpl. lia.
  - intros pre imp post -> Hpre Himp. by apply circularLoop_first.
  - intros f.
    destruct (circularLoop_spec resp fi relPath myPkg g (imports fi))
      as [[_ ->]|(pre & imp & post & Heq & _ & Himp & ->)].
    + rewrite emitted_same. by intros H%elem_of_nil.
    + rewrite emitted_app. intros ->%list_elem_of_singleton.
      exists imp. rewrite Heq. split; [|done].
      apply elem_of_app. right. by left.
  - intros Hall.
    destruct (circularLoop_spec resp fi relPath myPkg g (imports fi))
      as [[_ ->]|(pre & imp & post & Heq & _ & Himp & _)]; [done|].
    rewrite Heq in Hall. apply Forall_app in Hall as [_ Hall].
    apply Forall_cons in Hall as [Hn _]. contradiction.
Qed.

(** C4 on a file with two reciprocated imports, on lines 5 and 6: one
    finding, at line 5. *)
Lemma checkCircularDeps_at_most_once_witness :
  checkCircularDeps [] exampleCircularFile exampleGraph "/ws"
  = [circularFindingOf exampleCircularFile "a/x.go" (MkImportRef "proj/b" 5)]
  /\ reciprocated exampleGraph "a/x.go" "a" (MkImportRef "proj/c" 6).
Proof.
  assert (forall imp, mutualImport "a/x.go" "a" imp (map_to_list exampleGraph) = true ->
                      reciprocated exampleGraph "a/x.go" "a" imp) as Hyes.
  { intros imp. apply mutualImport_reciprocated. }
  split.
  - destruct (checkCircularDeps_at_most_once [] exampleCircularFile exampleGraph "/ws")
      as (_ & Hfirst & _).
    apply (Hfirst [MkImportRef "fmt" 4] (MkImportRef "proj/b" 5) [MkImportRef "proj/c" 6]).
    + reflexivity.
    + apply Forall_singleton. intros H.
      apply mutualImport_reciprocated in H. vm_compute in H. discriminate H.
    + apply Hyes. vm_compute. reflexivity.
  - apply Hyes. vm_compute. reflexivity.
Defined.

(** ** The matcher on the Go import pattern *)

Lemma str_bytes (s : string) : str (bytes s) = s.
Proof. apply string_of_list_ascii_of_string. Qed.

Lemma bytes_str (l : list ascii) : bytes (str l) = l.
Proof. apply list_ascii_of_string_of_list_ascii. Qed.

(** The equations of the matcher, for rewriting. *)
Lemma star_loop_S (body : mstate -> cont -> option mstate) (fuel : nat)
    (st : mstate) (k : cont) :
  star_loop body (S fuel) st k
  = match body st (fun st' =>
              if Nat.ltb (length (rest st')) (length (rest st))
              then star_loop body fuel st' k else None) with
    | Some r => Some r
    | None => k st
    end.
Proof. reflexivity. Qed.

Lemma rx_Class_cons (p : ascii -> bool) (n : nat) (c : ascii) (s : list ascii)
    (cs : list (nat * list ascii)) (k : cont) :
  rx (Class p) (MState n (c :: s) cs) k
  = if p c then k (MState (S n) s cs) else None.
Proof. reflexivity. Qed.

Lemma rx_Class_nil (p : ascii -> bool) (n : nat) (cs : list (nat * list ascii))
    (k : cont) :
  rx (Class p) (MState n [] cs) k = None.
Proof. reflexivity. Qed.

Lemma rx_Cat (r1 r2 : Regexp) (st : mstate) (k : cont) :
  rx (Cat r1 r2) st k = rx r1 st (fun st' => rx r2 st' k).
Proof. reflexivity. Qed.

Lemma rx_Star (r : Regexp) (st : mstate) (k : cont) :
  rx (Star r) st k = star_loop (rx r) (length (rest st)) st k.
Proof. reflexivity. Qed.

Lemma rx_Group (i : nat) (r : Regexp) (st : mstate) (k : cont) :
  rx (Group i r) st k
  = rx r st (fun st' =>
      k (set_cap i (take (length (rest st) - length (rest st')) (rest st)) st')).
Proof. reflexivity. Qed.

Lemma rx_Bol_start (s : list ascii) (cs : list (nat * list ascii)) (k : cont) :
  rx Bol (MState 0 s cs) k = k (MState 0 s cs).
Proof. reflexivity. Qed.

(** A greedy star over a character class reads the whole run of the class
    when the continuation rejects every shorter split. *)
Lemma star_loop_class_run (p : ascii -> bool) (k : cont) (cs : list (nat * list ascii))
    (r : list ascii) (w : list ascii) :
  forall (n fuel : nat),
    Forall (fun c => p c = true) w ->
    match r with [] => True | c :: _ => p c = false end ->
    (length w <= fuel)%nat ->
    (forall j, (j < length w)%nat -> k (MState (n + j) (drop j w ++ r) cs) = None) ->
    star_loop (rx (Class p)) fuel (MState n (w ++ r) cs) k
    = k (MState (n + length w) r cs).
Proof.
  induction w as [|c w IH]; intros n fuel Hw Hr Hfuel Hk.
  - cbn [app length]. rewrite Nat.add_0_r. destruct fuel as [|fuel]; [reflexivity|].
    rewrite star_loop_S. destruct r as [|c r].
    + by rewrite rx_Class_nil.
    + by rewrite rx_Class_cons, Hr.
  - destruct fuel as [|fuel]; [cbn in Hfuel; lia|].
    apply Forall_cons in Hw as [Hc Hw].
    rewrite star_loop_S. cbn [app]. rewrite rx_Class_cons, Hc. cbn [rest].
    replace (Nat.ltb (length (w ++ r)) (length (c :: w ++ r))) with true
      by (symmetry; apply Nat.ltb_lt; cbn [length]; lia).
    rewrite (IH (S n) fuel Hw Hr); [|cbn in Hfuel; lia|].
    + replace (S n + length w)%nat with (n + length (c :: w))%nat by (cbn; lia).
      destruct (k (MState (n + length (c :: w)) r cs)) eqn:Hres; [reflexivity|].
      specialize (Hk 0%nat). cbn [drop length app] in Hk. rewrite Nat.add_0_r in Hk.
      rewrite Hk by lia. reflexivity.
    + intros j Hj. specialize (Hk (S j)). cbn [drop length] in Hk.
      replace (n + S j)%nat with (S n + j)%nat in Hk by lia. apply Hk. lia.
Qed.

Lemma reGoImport_unfold :
  reGoImport
  = Cat Bol (Cat (Star (Class is_space))
       (Cat (Class (Ascii.eqb dquote))
          (Cat (Group 1 (Cat (Class not_dquote) (Star (Class not_dquote))))
               (Class (Ascii.eqb dquote))))).
Proof. reflexivity. Qed.

Lemma space_not_dquote (c : ascii) : is_space c = true -> Ascii.eqb dquote c = false.
Proof.
  intros H. destruct (Ascii.eqb_spec dquote c) as [<-|]; [|reflexivity].
  vm_compute in H. discriminate H.
Qed.

Lemma not_dquote_neq (c : ascii) : not_dquote c = true -> Ascii.eqb dquote c = false.
Proof.
  unfold not_dquote. rewrite Ascii.eqb_sym. by intros H%negb_true_iff.
Qed.

Lemma drop_head_elem (l : list ascii) (j : nat) :
  (j < length l)%nat -> exists d tl, drop j l = d :: tl /\ d ∈ l.
Proof.
  intros Hj. destruct (drop j l) as [|d tl] eqn:Hd.
  - apply (f_equal length) in Hd. rewrite length_drop in Hd. cbn in Hd. lia.
  - exists d, tl. split; [reflexivity|].
    apply (subseteq_drop j l). rewrite Hd. by left.
Qed.

Lemma rx_reGoImport (w content rest_ : list ascii) :
  Forall (fun c => is_space c = true) w ->
  Forall (fun c => not_dquote c = true) content ->
  content <> [] ->
  rx reGoImport (MState 0 (w ++ dquote :: content ++ dquote :: rest_) []) Some
  = Some (MState (length w + 1 + length content + 1) rest_ [(1%nat, content)]).
Proof.
  intros Hw Hc Hne. rewrite reGoImport_unfold.
  rewrite rx_Cat, rx_Bol_start, rx_Cat, rx_Star. cbn [rest].
  rewrite star_loop_class_run; try done.
  - (* the opening quote, then the group *)
    destruct content as [|c content]; [done|].
    apply Forall_cons in Hc as [Hc1 Hc].
    rewrite rx_Cat, rx_Class_cons, Ascii.eqb_refl.
    rewrite rx_Cat, rx_Group, rx_Cat. cbn [app]. rewrite rx_Class_cons, Hc1.
    rewrite rx_Star. cbn [rest].
    rewrite (star_loop_class_run not_dquote _ _ (dquote :: rest_) content); try done.
    + unfold set_cap. cbn [pos rest caps]. rewrite rx_Class_cons, Ascii.eqb_refl.
      f_equal. f_equal.
      * rewrite length_cons. lia.
      * f_equal. f_equal.
        replace (length (c :: content ++ dquote :: rest_) - length (dquote :: rest_))%nat
          with (length (c :: content))
          by (cbn [length]; rewrite length_app; cbn [length]; lia).
        change (c :: content ++ dquote :: rest_) with ((c :: content) ++ dquote :: rest_).
        by rewrite take_app_length.
    + rewrite length_app. lia.
    + intros j Hj. cbn [rest].
      destruct (drop_head_elem content j Hj) as (d & tl & -> & Hin).
      unfold set_cap. cbn [app pos rest caps]. rewrite rx_Class_cons.
      rewrite Forall_forall in Hc. by rewrite (not_dquote_neq d (Hc d Hin)).
  - rewrite length_app. lia.
  - intros j Hj.
    destruct (drop_head_elem w j Hj) as (d & tl & -> & Hin).
    cbn [app]. rewrite rx_Cat, rx_Class_cons.
    rewrite Forall_forall in Hw. by rewrite (space_not_dquote d (Hw d Hin)).
Qed.

Lemma find_from_eq (r : Regexp) (p : nat) (s : list ascii) :
  find_from r p s
  = match rx r (MState p s []) Some with
    | Some st => Some (take (pos st - p) s, st)
    | None =>
        match s with
        | [] => None
        | _ :: s' => find_from r (S p) s'
        end
    end.
Proof. destruct s; reflexivity. Qed.

Lemma FindStringSubmatch_reGoImport (w content rest_ : list ascii) :
  Forall (fun c => is_space c = true) w ->
  Forall (fun c => not_dquote c = true) content ->
  content <> [] ->
  FindStringSubmatch reGoImport (quotedLine w content rest_)
  = [str (w ++ dquote :: content ++ [dquote]); str content].
Proof.
  intros Hw Hc Hne. unfold FindStringSubmatch, quotedLine.
  rewrite bytes_str, find_from_eq, rx_reGoImport by done.
  cbn [pos caps]. change (ngroups reGoImport) with 1%nat.
  cbn [seq map get_cap Nat.eqb]. f_equal.
  f_equal. rewrite Nat.sub_0_r.
  replace (w ++ dquote :: content ++ dquote :: rest_)
    with ((w ++ dquote :: content ++ [dquote]) ++ rest_)
    by (rewrite <- !app_assoc; cbn; rewrite <- app_assoc; reflexivity).
  apply take_app_length'. rewrite length_app. cbn [length].
  rewrite length_app. cbn [length]. lia.
Qed.

Lemma parseLine_go_import (info : fileInfo) (n : Z) (ln m0 m1 : string) :
  ext info = ".go" ->
  FindStringSubmatch reGoImport ln = [m0; m1] ->
  imports (parseLine info n ln) = imports info ++ [MkImportRef m1 n].
Proof.
  intros He Hm. unfold parseLine. cbn [ext]. rewrite He.
  change (String.eqb ".go" ".go") with true. cbv iota. rewrite Hm.
  cbn [length Nat.ltb Nat.leb sub nth].
  destruct (MatchString reGoExport ln); reflexivity.
Qed.

Lemma parseLine_go_no_import (info : fileInfo) (n : Z) (ln : string) :
  ext info = ".go" ->
  FindStringSubmatch reGoImport ln = [] ->
  imports (parseLine info n ln) = imports info.
Proof.
  intros He Hm. unfold parseLine. cbn [ext]. rewrite He.
  change (String.eqb ".go" ".go") with true. cbv iota. rewrite Hm.
  cbn [length Nat.ltb Nat.leb].
  destruct (MatchString reGoExport ln); reflexivity.
Qed.

Lemma scanLoop_app (l1 l2 : list string) :
  forall (info : fileInfo) (n : Z),
    scanLoop (l1 ++ l2) info n
    = scanLoop l2 (scanLoop l1 info n).1 (scanLoop l1 info n).2.
Proof.
  induction l1 as [|ln l1 IH]; intros info n; [reflexivity|].
  cbn [app scanLoop]. apply IH.
Qed.

Lemma scanLoop_count (ls : list string) :
  forall (info : fileInfo) (n : Z),
    (scanLoop ls info n).2 = n + Z.of_nat (length ls).
Proof.
  induction ls as [|ln ls IH]; intros info n; cbn [scanLoop length snd]; [lia|].
  rewrite IH. lia.
Qed.

Lemma scanLoop_imports_grow (ls : list string) :
  forall (info : fileInfo) (n : Z),
    imports info `prefix_of` imports (scanLoop ls info n).1.
Proof.
  induction ls as [|ln ls IH]; intros info n; cbn [scanLoop fst]; [done|].
  etrans; [|apply IH].
  destruct (parseLine_shape info (n + 1) ln) as (_ & _ & _ & [-> | [m ->]]);
    [done | by apply prefix_app_r].
Qed.

Lemma parseFile_imports (open : string -> fileContent) (filePath ext_ : string)
    (ls : list string) (scanErr : bool) :
  open filePath = Scans ls scanErr ->
  imports (parseFile open filePath ext_).1
  = imports (scanLoop ls (MkFileInfo filePath ext_ [] [] 0 0) 0).1.
Proof.
  intros Ho. unfold parseFile. rewrite Ho.
  by destruct (scanLoop ls (MkFileInfo filePath ext_ [] [] 0 0) 0).
Qed.

(** C10, amended.  In a Go file, a line made of white space, a double
    quote, one or more characters other than a double quote, and a double
    quote is recorded as an import of the text between the quotes, at that
    line's number, wherever the line stands in the file and whatever
    follows the closing quote. *)
Theorem parseFile_go_quoted_line (open : string -> fileContent)
    (filePath : string) (ls : list string) (scanErr : bool) (i : nat)
    (w content rest_ : list ascii) :
  open filePath = Scans ls scanErr ->
  ls !! i = Some (quotedLine w content rest_) ->
  Forall (fun c => is_space c = true) w ->
  Forall (fun c => not_dquote c = true) content ->
  content <> [] ->
  MkImportRef (str content) (Z.of_nat i + 1)
    ∈ imports (parseFile open filePath ".go").1.
Proof.
  intros Ho Hi Hw Hc Hne.
  rewrite (parseFile_imports open filePath ".go" ls scanErr Ho).
  rewrite <- (take_drop_middle ls i _ Hi), scanLoop_app.
  set (info0 := MkFileInfo filePath ".go" [] [] 0 0).
  destruct (scanLoop_invariant (take i ls) info0 0) as (_ & _ & _ & _ & He);
    [reflexivity | constructor |].
  pose proof (scanLoop_count (take i ls) info0 0) as Hn.
  destruct (scanLoop (take i ls) info0 0) as [info1 n1]. cbn [fst snd] in *.
  cbn [scanLoop].
  eapply elem_of_prefix; [|apply scanLoop_imports_grow].
  rewrite (parseLine_go_import info1 (n1 + 1) _ _ _ He
             (FindStringSubmatch_reGoImport w content rest_ Hw Hc Hne)).
  apply elem_of_app. right. apply list_elem_of_singleton. f_equal.
  rewrite Hn, length_take_le; [lia|].
  apply lookup_lt_Some in Hi. lia.
Qed.

(** The amended C10 on a slice literal: its string is recorded as an
    import at line 2. *)
Lemma parseFile_go_quoted_line_witness :
  MkImportRef "alpha" 2
    ∈ imports (parseFile (fun _ => Scans exampleSliceLiteral false) "names.go" ".go").1.
Proof.
  apply (parseFile_go_quoted_line (fun _ => Scans exampleSliceLiteral false)
           "names.go" exampleSliceLiteral false 1
           (bytes "	") (bytes "alpha") (bytes ",")).
  - reflexivity.
  - reflexivity.
  - repeat constructor.
  - repeat constructor.
  - discriminate.
Defined.

(** C10 as stated fails: a line that begins with the empty string literal
    opens a double-quoted string, and no import is recorded for it. *)
Lemma empty_literal_not_recorded : ~ goQuotedLineClaim.
Proof.
  intros H.
  specialize (H (fun _ => Scans exampleEmptyLiteral false) "names.go"
                exampleEmptyLiteral false 1%nat (bytes "	") [] (bytes ",")
                eq_refl eq_refl).
  assert (imports (parseFile (fun _ => Scans exampleEmptyLiteral false)
                             "names.go" ".go").1 = []) as Hnone
    by (vm_compute; reflexivity).
  rewrite Hnone in H. eapply elem_of_nil, H; repeat constructor.
Qed.

(** ** The walk *)

Section WalkInvariant.

Context {S : Type}.
Variable fn : S -> string -> option DirEntry -> option error -> S * option error.

(** The equations of the walk. *)
Lemma walkDir_file (p name : string) (s : S) :
  walkDir fn p name NFile s = fn s p (Some (MkDirEntry name false)) None.
Proof. reflexivity. Qed.

Lemma walkDir_dir (p name : string) (es : entries) (readErr : bool) (s : S) :
  walkDir fn p name (NDir es readErr) s
  = match fn s p (Some (MkDirEntry name true)) None with
    | (s, Some err) => (s, if decide (err = SkipDir) then None else Some err)
    | (s, None) =>
        if readErr then
          match fn s p (Some (MkDirEntry name true)) (Some ErrReadDir) with
          | (s, Some err) => (s, if decide (err = SkipDir) then None else Some err)
          | (s, None) => walkEntries fn p es s
          end
        else walkEntries fn p es s
    end.
Proof. reflexivity. Qed.

Lemma walkEntries_nil (p : string) (s : S) : walkEntries fn p ENil s = (s, None).
Proof. reflexivity. Qed.

Lemma walkEntries_cons (p name1 : string) (n1 : node) (rest_ : entries) (s : S) :
  walkEntries fn p (ECons name1 n1 rest_) s
  = match walkDir fn (filepath.Join [p; name1]) name1 n1 s with
    | (s, Some err) => if decide (err = SkipDir) then (s, None) else (s, Some err)
    | (s, None) => walkEntries fn p rest_ s
    end.
Proof. reflexivity. Qed.

Variable I : S -> Prop.
Hypothesis fn_keeps : forall s p d e, I s -> I (fn s p d e).1.

(** A property of the callback's state that every call keeps is kept by
    the walk. *)
Lemma walkDir_walkEntries_keep :
  (forall n p name s, I s -> I (walkDir fn p name n s).1)
  /\ (forall es p s, I s -> I (walkEntries fn p es s).1).
Proof.
  apply node_entries_mutind.
  - intros p name s Hs. rewrite walkDir_file. by apply fn_keeps.
  - intros es IHes readErr p name s Hs. rewrite walkDir_dir.
    pose proof (fn_keeps s p (Some (MkDirEntry name true)) None Hs) as H1.
    destruct (fn s p (Some (MkDirEntry name true)) None) as [s1 [e1|]];
      cbn [fst] in H1; [done|].
    destruct readErr; [|by apply IHes].
    pose proof (fn_keeps s1 p (Some (MkDirEntry name true)) (Some ErrReadDir) H1) as H2.
    destruct (fn s1 p (Some (MkDirEntry name true)) (Some ErrReadDir)) as [s2 [e2|]];
      cbn [fst] in H2; [done | by apply IHes].
  - intros p s Hs. exact Hs.
  - intros name1 n1 IHn rest IHrest p s Hs. rewrite walkEntries_cons.
    pose proof (IHn (filepath.Join [p; name1]) name1 s Hs) as H1.
    destruct (walkDir fn (filepath.Join [p; name1]) name1 n1 s) as [s1 [e1|]];
      cbn [fst] in H1.
    + by destruct (decide (e1 = SkipDir)).
    + by apply IHrest.
Qed.

Lemma WalkDir_keep (lstat : option node) (root : string) (s : S) :
  I s -> I (WalkDir fn lstat root s).1.
Proof.
  intros Hs. unfold WalkDir. destruct lstat as [n|].
  - pose proof (proj1 walkDir_walkEntries_keep n root (filepath.Base root) s Hs) as H.
    by destruct (walkDir fn root (filepath.Base root) n s).
  - pose proof (fn_keeps s root None (Some ErrLstat) Hs) as H.
    by destruct (fn s root None (Some ErrLstat)).
Qed.

End WalkInvariant.

(** ** The import graph *)

Lemma addImports_lookup (imps : list importRef) :
  forall (g : gmap string (list string)) (k k' : string),
    addImports g k imps !! k'
    = if decide (k = k') then
        match imps with
        | [] => g !! k
        | _ => Some (default [] (g !! k) ++ map module imps)
        end
      else g !! k'.
Proof.
  induction imps as [|imp rest IH]; intros g k k'; cbn [addImports].
  - by case_decide; subst.
  - rewrite IH. case_decide as Hk.
    + rewrite lookup_insert_eq. cbn [default map id].
      destruct rest as [|imp2 rest]; [reflexivity|].
      unfold id. by rewrite <- app_assoc.
    + by rewrite lookup_insert_ne.
Qed.

Lemma entryOf_snoc (root : string) (fs : list fileInfo) (fi : fileInfo) (key : string) :
  entryOf root (fs ++ [fi]) key
  = entryOf root fs key
    ++ (if decide (relPathOf root (path fi) = key) then map module (imports fi) else []).
Proof.
  unfold entryOf. rewrite map_app, concat_app. cbn [map concat].
  by rewrite app_nil_r.
Qed.

Lemma walkFn_graph (ctx : nat -> ctxStatus) (open : string -> fileContent)
    (root : string) (st : scanState) (p : string) (d : option DirEntry)
    (e : option error) :
  graphMatchesFiles root st ->
  graphMatchesFiles root (walkFn ctx open root st p d e).1.
Proof.
  intros Hst. unfold walkFn. destruct e as [e|]; [exact Hst|].
  destruct (ctxErr (ctx (ticks st))); [exact Hst|].
  destruct d as [d|]; [|exact Hst].
  destruct (IsDir d); [by destruct (skippedDirs (Name d))|].
  destruct (sourceExtensions (filepath.Ext p)); cbn [negb]; [|exact Hst].
  destruct (parseFile open p (filepath.Ext p)) as [info [err|]] eqn:Hparse;
    [exact Hst|].
  apply parseFile_ok_path in Hparse.
  intros key. cbn [fst importGraph files].
  rewrite addImports_lookup, entryOf_snoc, Hparse, (Hst key).
  case_decide as Hk.
  - subst key. rewrite (Hst (relPathOf root p)).
    destruct (imports info) as [|imp rest].
    + by rewrite app_nil_r.
    + destruct (entryOf root (files st) (relPathOf root p)) as [|m l];
        reflexivity.
  - by rewrite app_nil_r.
Qed.

Lemma scanWalk_graph (ctx : nat -> ctxStatus) (lstat : string -> option node)
    (open : string -> fileContent) (root : string) :
  graphMatchesFiles root (scanWalk ctx lstat open root).1.
Proof.
  unfold scanWalk. apply WalkDir_keep.
  - intros s p d e. apply walkFn_graph.
  - intros key. cbn. apply lookup_empty.
Qed.

Lemma entryOf_nonempty (root : string) (fs : list fileInfo) (key : string) :
  entryOf root fs key <> []
  <-> exists fi, fi ∈ fs /\ relPathOf root (path fi) = key /\ imports fi <> [].
Proof.
  unfold entryOf. induction fs as [|fi0 fs IH]; cbn [map concat].
  - split; [done | intros (fi & H & _); by apply elem_of_nil in H].
  - split.
    + intros Hne. case_decide as Hk.
      * destruct (imports fi0) as [|imp rest] eqn:Himp.
        -- cbn [map app] in Hne. apply IH in Hne as (fi & Hin & H).
           exists fi. split; [by right | done].
        -- exists fi0. split; [by left|]. split; [done|]. by rewrite Himp.
      * cbn [app] in Hne. apply IH in Hne as (fi & Hin & H).
        exists fi. split; [by right | done].
    + intros (fi & Hin & Hk & Himp). apply elem_of_cons in Hin as [->|Hin].
      * rewrite decide_True by done. destruct (imports fi0); [done|]. discriminate.
      * intros Happ. apply app_eq_nil in Happ as [_ Hnil].
        apply IH in Hnil; [done|]. by exists fi.
Qed.

(** C5, amended.  After the walk the import graph has an entry under a key
    exactly when some parsed file with that relative path has at least one
    extracted import; the entry lists the modules of those files in walk
    order.  A parsed file whose import list is empty adds no entry. *)
Theorem importGraph_entries (ctx : nat -> ctxStatus) (lstat : string -> option node)
    (open : string -> fileContent) (workspaceRoot : string) (key : string) :
  let st := (scanWalk ctx lstat open workspaceRoot).1 in
  (is_Some (importGraph st !! key)
     <-> exists fi, fi ∈ files st
                    /\ relPathOf workspaceRoot (path fi) = key
                    /\ imports fi <> [])
  /\ (forall l, importGraph st !! key = Some l ->
                l = entryOf workspaceRoot (files st) key).
Proof.
  intros st. pose proof (scanWalk_graph ctx lstat open workspaceRoot key) as Hg.
  fold st in Hg. rewrite <- entryOf_nonempty, Hg.
  destruct (entryOf workspaceRoot (files st) key) as [|m l0].
  - split; [|done]. split; [by intros [x Hx] | done].
  - split; [|by intros l [= <-]]. split; [done | by eexists].
Qed.

(** The amended C5 on the example workspace: [util/strs.go] has its entry,
    [main.go], parsed but without imports, has none. *)
Lemma importGraph_entries_witness :
  importGraph (scanWalk alwaysLive exampleLstat exampleOpen "/ws").1 !! "util/strs.go"
    = Some ["strings"]
  /\ importGraph (scanWalk alwaysLive exampleLstat exampleOpen "/ws").1 !! "main.go"
     = None.
Proof.
  split.
  - destruct (importGraph (scanWalk alwaysLive exampleLstat exampleOpen "/ws").1
                !! "util/strs.go") as [l|] eqn:Hl.
    + rewrite (proj2 (importGraph_entries alwaysLive exampleLstat exampleOpen "/ws"
                        "util/strs.go") l Hl).
      vm_compute. reflexivity.
    + vm_compute in Hl. discriminate Hl.
  - destruct (importGraph (scanWalk alwaysLive exampleLstat exampleOpen "/ws").1
                !! "main.go") as [l|] eqn:Hl; [|reflexivity].
    destruct (proj1 (proj1 (importGraph_entries alwaysLive exampleLstat exampleOpen
                              "/ws" "main.go")) (mk_is_Some _ _ Hl))
      as (fi & Hfi & Hkey & Himp).
    vm_compute in Hfi.
    apply elem_of_cons in Hfi as [->|Hfi].
    + by destruct Himp.
    + apply list_elem_of_singleton in Hfi as ->. vm_compute in Hkey. discriminate Hkey.
Defined.

(** C5 as stated fails: [main.go] is parsed, imports nothing, and has no
    entry in the graph; the graph holds the entry of [util/strs.go] only. *)
Lemma file_without_imports_has_no_entry : ~ everyParsedFileHasEntry.
Proof.
  intros H.
  specialize (H (fun _ => CtxLive) exampleLstat exampleOpen "/ws"
                (MkFileInfo "/ws/main.go" ".go"
                   ["package main"; ""; "func main() {"; "}"] [] 0 4)).
  assert (importGraph (scanWalk (fun _ => CtxLive) exampleLstat exampleOpen "/ws").1
          = {["util/strs.go" := ["strings"]]}) as Hgraph
    by (vm_compute; reflexivity).
  rewrite Hgraph in H.
  assert (relPathOf "/ws" "/ws/main.go" = "main.go") as Hrel
    by (vm_compute; reflexivity).
  cbn [path] in H. rewrite Hrel in H.
  rewrite lookup_singleton_ne in H by done.
  destruct H as [x Hx]; [|discriminate Hx].
  vm_compute. left.
Qed.

(** ** How the walk ends *)

Section WalkErrors.

Variable ctx : nat -> ctxStatus.
Variable open : string -> fileContent.
Variable root : string.

Lemma walkFn_error (st : scanState) (p : string) (d : option DirEntry) :
  (walkFn ctx open root st p d None).2 = None
  \/ ((walkFn ctx open root st p d None).2 = Some SkipDir
      /\ exists d', d = Some d' /\ IsDir d' = true /\ skippedDirs (Name d') = true
                    /\ ctx (ticks st) = CtxLive)
  \/ (ctx (ticks st) <> CtxLive
      /\ (walkFn ctx open root st p d None).2 = ctxErr (ctx (ticks st))).
Proof.
  unfold walkFn. destruct (ctx (ticks st)) eqn:Hc; cbn [ctxErr].
  - destruct d as [d|]; [|by left].
    destruct (IsDir d) eqn:Hd.
    + destruct (skippedDirs (Name d)) eqn:Hs; [|by left].
      right; left. split; [reflexivity|]. by exists d.
    + left. destruct (sourceExtensions (filepath.Ext p)); cbn [negb]; [|reflexivity].
      by destruct (parseFile open p (filepath.Ext p)) as [info [err|]].
  - right; right. done.
  - right; right. done.
Qed.

(** The callback on a directory: it consults the context, then prunes or
    lets the walk descend; it parses nothing. *)
Lemma walkFn_on_dir (st : scanState) (p name : string) :
  walkFn ctx open root st p (Some (MkDirEntry name true)) None
  = (MkScan (S (ticks st)) (files st) (importGraph st),
     match ctxErr (ctx (ticks st)) with
     | Some e => Some e
     | None => if skippedDirs name then Some SkipDir else None
     end).
Proof.
  unfold walkFn. destruct (ctxErr (ctx (ticks st))); [reflexivity|].
  cbn [IsDir Name]. by destruct (skippedDirs name).
Qed.

Lemma walkFn_reported (st : scanState) (p : string) (d : option DirEntry)
    (e : error) :
  walkFn ctx open root st p d (Some e) = (st, None).
Proof. reflexivity. Qed.

Lemma fromContext_not_SkipDir (o : option error) :
  fromContext ctx o -> o <> Some SkipDir.
Proof.
  intros [-> | (n & Hn & <-)]; [done|]. by destruct (ctx n).
Qed.

Lemma walkDir_walkEntries_error :
  (forall n p name st, fromContext ctx (walkDir (walkFn ctx open root) p name n st).2)
  /\ (forall es p st, fromContext ctx (walkEntries (walkFn ctx open root) p es st).2).
Proof.
  apply node_entries_mutind.
  - intros p name st. rewrite walkDir_file.
    destruct (walkFn_error st p (Some (MkDirEntry name false)))
      as [H | [(_ & d' & [= <-] & Hd & _) | (Hn & H)]].
    + by left.
    + discriminate Hd.
    + right. by exists (ticks st).
  - intros es IHes readErr p name st. rewrite walkDir_dir.
    destruct (walkFn_error st p (Some (MkDirEntry name true)))
      as [H | [(H & _) | (Hn & H)]];
      destruct (walkFn ctx open root st p (Some (MkDirEntry name true)) None)
        as [s1 o1]; cbn [snd] in H; subst o1.
    + destruct readErr; [|apply IHes]. rewrite walkFn_reported. apply IHes.
    + cbn [snd]. rewrite decide_True by done. by left.
    + destruct (ctx (ticks st)) eqn:Hc; [done| |]; cbn [ctxErr snd];
        (rewrite decide_False by done); right; exists (ticks st);
        by rewrite Hc.
  - intros p st. by left.
  - intros name1 n1 IHn rest IHrest p st. rewrite walkEntries_cons.
    pose proof (IHn (filepath.Join [p; name1]) name1 st) as H1.
    destruct (walkDir (walkFn ctx open root) (filepath.Join [p; name1]) name1 n1 st)
      as [s1 [e1|]]; cbn [snd] in H1; [|apply IHrest].
    pose proof (fromContext_not_SkipDir _ H1) as Hns.
    rewrite decide_False by congruence. exact H1.
Qed.

Lemma WalkDir_error (lstat : option node) (st : scanState) :
  fromContext ctx (WalkDir (walkFn ctx open root) lstat root st).2.
Proof.
  unfold WalkDir. destruct lstat as [n|].
  - pose proof (proj1 walkDir_walkEntries_error n root (filepath.Base root) st) as H.
    destruct (walkDir (walkFn ctx open root) root (filepath.Base root) n st)
      as [s1 [e1|]]; cbn [snd] in *; [|by left].
    pose proof (fromContext_not_SkipDir _ H) as Hns.
    by rewrite decide_False by congruence.
  - rewrite walkFn_reported. by left.
Qed.

End WalkErrors.

Lemma handleScan_empty_root (ctx : nat -> ctxStatus) (lstat : string -> option node)
    (open : string -> fileContent) (req : ToolRequest) :
  requestRoot req = "" -> handleScan ctx lstat open req = inl [].
Proof. intros H. unfold handleScan. by rewrite H. Qed.

(** [handleScan] in terms of how its walk ends. *)
Lemma handleScan_outcome (ctx : nat -> ctxStatus) (lstat : string -> option node)
    (open : string -> fileContent) (req : ToolRequest) :
  requestRoot req <> "" ->
  let root := requestRoot req in
  let st := (scanWalk ctx lstat open root).1 in
  handleScan ctx lstat open req
  = match (scanWalk ctx lstat open root).2 with
    | Some DeadlineExceeded => inr (WalkingWorkspace DeadlineExceeded)
    | _ => inl (analyzeAll (importGraph st) root (files st) [])
    end.
Proof.
  intros Hne root st. unfold handleScan. fold root.
  rewrite (proj2 (String.eqb_neq root "") Hne).
  subst st. pose proof (WalkDir_error ctx open root (lstat root) (MkScan 0 [] ∅)) as He.
  unfold scanWalk in *.
  destruct (WalkDir (walkFn ctx open root) (lstat root) root (MkScan 0 [] ∅))
    as [st [e|]]; cbn [fst snd] in *; [|reflexivity].
  destruct He as [He | (n & Hn & He)]; [discriminate|].
  destruct (ctx n); cbn [ctxErr] in He; [done| |]; injection He as <-; reflexivity.
Qed.

(** ** Where findings point *)

Lemma pointsInto_app (fs : list fileInfo) (resp : ResponseBuilder) (new : list finding)
    (fi : fileInfo) :
  fi ∈ fs -> pointsInto fs resp ->
  (forall f, f ∈ new -> filePath f = path fi) ->
  pointsInto fs (resp ++ new).
Proof.
  intros Hfi Hresp Hnew f [Hin|Hin]%elem_of_app; [by apply Hresp|].
  exists fi. split; [done | by apply Hnew].
Qed.

Lemma analyzeFile_emits (g : gmap string (list string)) (root : string)
    (resp : ResponseBuilder) (fi : fileInfo) :
  exists new, analyzeFile g root resp fi = resp ++ new
              /\ forall f, f ∈ new -> filePath f = path fi.
Proof.
  unfold analyzeFile.
  assert (exists n1, checkCircularDeps resp fi g root = resp ++ n1
                     /\ forall f, f ∈ n1 -> filePath f = path fi) as (n1 & -> & H1).
  { unfold checkCircularDeps.
    destruct (circularLoop_spec resp fi (relPathOf root (path fi))
                (filepath.Base (filepath.Dir (relPathOf root (path fi)))) g (imports fi))
      as [[_ ->]|(pre & imp & post & _ & _ & _ & ->)].
    - exists []. rewrite app_nil_r. split; [done | by intros f H%elem_of_nil].
    - eexists. split; [reflexivity|]. by intros f ->%list_elem_of_singleton. }
  assert (exists n2, checkGodObject (resp ++ n1) fi = resp ++ n1 ++ n2
                     /\ forall f, f ∈ n2 -> filePath f = path fi) as (n2 & -> & H2).
  { destruct (decide (500 < lineCount fi /\ 10 <= exports fi)) as [[Hl He]|Hn].
    - rewrite (checkGodObject_fires _ fi Hl He), <- app_assoc.
      eexists. split; [reflexivity|]. by intros f ->%list_elem_of_singleton.
    - rewrite (checkGodObject_silent _ fi Hn).
      exists []. rewrite app_nil_r. split; [done | by intros f H%elem_of_nil]. }
  assert (exists n3, checkSecurityMixing (resp ++ n1 ++ n2) fi = resp ++ n1 ++ n2 ++ n3
                     /\ forall f, f ∈ n3 -> filePath f = path fi) as (n3 & -> & H3).
  { rewrite checkSecurityMixing_eq.
    destruct ((existsb (cryptoSignal (ext fi)) (lines fi)
               || existsb (authSignal (ext fi)) (lines fi))
              && (existsb businessSignal (lines fi)
                  || existsb dataAccessSignal (lines fi)
                  || existsb routeSignal (lines fi))).
    - rewrite <- !app_assoc. eexists. split; [reflexivity|].
      by intros f ->%list_elem_of_singleton.
    - exists []. rewrite !app_nil_r. split; [done | by intros f H%elem_of_nil]. }
  unfold checkMissingAbstraction. destruct (isHandler (lines fi)); cbn [negb].
  - rewrite abstractionLoop_spec, <- !app_assoc.
    eexists. split; [reflexivity|].
    intros f. rewrite !elem_of_app, (list_elem_of_In (map _ _) f), in_map_iff.
    intros [H|[H|[H|(nl & <- & _)]]]; auto.
  - exists (n1 ++ n2 ++ n3). split; [reflexivity|].
    intros f. rewrite !elem_of_app. intros [H|[H|H]]; auto.
Qed.

Lemma analyzeAll_pointsInto (g : gmap string (list string)) (root : string)
    (all fs : list fileInfo) :
  forall resp,
    fs ⊆ all -> pointsInto all resp -> pointsInto all (analyzeAll g root fs resp).
Proof.
  unfold analyzeAll. induction fs as [|fi fs IH]; intros resp Hsub Hresp; [done|].
  cbn [fold_left]. apply IH.
  - intros x Hx. apply Hsub. by right.
  - destruct (analyzeFile_emits g root resp fi) as (new & -> & Hnew).
    apply (pointsInto_app all resp new fi); [|done|done].
    apply Hsub. by left.
Qed.

(** Every finding of a scan points at a file the walk parsed. *)
Lemma handleScan_pointsInto (ctx : nat -> ctxStatus) (lstat : string -> option node)
    (open : string -> fileContent) (req : ToolRequest) (fs : list finding) :
  handleScan ctx lstat open req = inl fs ->
  pointsInto (files (scanWalk ctx lstat open (requestRoot req)).1) fs.
Proof.
  intros H. destruct (decide (requestRoot req = "")) as [He|Hne].
  - rewrite (handleScan_empty_root ctx lstat open req He) in H.
    injection H as <-. by intros f Hf%elem_of_nil.
  - rewrite (handleScan_outcome ctx lstat open req Hne) in H. cbv zeta in H.
    assert (fs = analyzeAll
                   (importGraph (scanWalk ctx lstat open (requestRoot req)).1)
                   (requestRoot req)
                   (files (scanWalk ctx lstat open (requestRoot req)).1) []) as ->.
    { destruct ((scanWalk ctx lstat open (requestRoot req)).2) as [[]|];
        congruence. }
    apply analyzeAll_pointsInto; [done|]. by intros f Hf%elem_of_nil.
Qed.

(** ** Run-level outcomes *)

Lemma scanWalk_missing_root (ctx : nat -> ctxStatus) (lstat : string -> option node)
    (open : string -> fileContent) (root : string) :
  lstat root = None -> scanWalk ctx lstat open root = (MkScan 0 [] ∅, None).
Proof. intros H. unfold scanWalk, WalkDir. by rewrite H. Qed.

Lemma scanWalk_file_root (ctx : nat -> ctxStatus) (lstat : string -> option node)
    (open : string -> fileContent) (root : string) :
  lstat root = Some NFile ->
  (scanWalk ctx lstat open root).2 = ctxErr (ctx 0%nat)
  /\ forall fi, fi ∈ files (scanWalk ctx lstat open root).1 -> path fi = root.
Proof.
  intros H. unfold scanWalk, WalkDir. rewrite H, walkDir_file.
  unfold walkFn. cbn [ticks files importGraph].
  destruct (ctx 0%nat); cbn [ctxErr IsDir fst snd];
    try (split; [reflexivity | by intros fi Hfi%elem_of_nil]).
  destruct (sourceExtensions (filepath.Ext root)); cbn [negb fst snd];
    [|split; [reflexivity | by intros fi Hfi%elem_of_nil]].
  destruct (parseFile open root (filepath.Ext root)) as [info [err|]] eqn:Hp;
    cbn [fst snd files]; [split; [reflexivity | by intros fi Hfi%elem_of_nil]|].
  split; [reflexivity|]. intros fi ->%list_elem_of_singleton.
  by apply parseFile_ok_path in Hp.
Qed.

Lemma scanWalk_file_root_eq (ctx : nat -> ctxStatus) (lstat : string -> option node)
    (open : string -> fileContent) (root : string) :
  lstat root = Some NFile ->
  scanWalk ctx lstat open root
  = match ctxErr (ctx 0%nat) with
    | Some e => (MkScan 1 [] ∅, Some e)
    | None =>
        if sourceExtensions (filepath.Ext root) then
          match parseFile open root (filepath.Ext root) with
          | (fi, None) =>
              (MkScan 1 [fi] (addImports ∅ (relPathOf root root) (imports fi)), None)
          | (_, Some _) => (MkScan 1 [] ∅, None)
          end
        else (MkScan 1 [] ∅, None)
    end.
Proof.
  intros H. unfold scanWalk, WalkDir. rewrite H, walkDir_file.
  unfold walkFn. cbn [ticks files importGraph IsDir].
  destruct (ctx 0%nat); cbn [ctxErr]; try reflexivity.
  destruct (sourceExtensions (filepath.Ext root)); cbn [negb]; [|reflexivity].
  by destruct (parseFile open root (filepath.Ext root)) as [fi [e|]].
Qed.

(** C6, amended.  With a non-empty workspace root that does not exist, the
    callback absorbs the error and the scan returns an empty successful
    result.  With a root that exists and is a regular file, the root is the
    only candidate: the walk gathers it, parsed by [parseFile], when the
    context is live, its extension is one of the four and it reads without
    error, and gathers nothing otherwise; the scan returns exactly what
    the four analyzers find in it, every finding pointing at the root
    itself, and fails only when the deadline has passed before the one
    callback.  The only failure a scan returns is the context deadline,
    wrapped. *)
Theorem handleScan_root_not_a_directory (ctx : nat -> ctxStatus)
    (lstat : string -> option node) (open : string -> fileContent)
    (req : ToolRequest) :
  requestRoot req <> "" ->
  let root := requestRoot req in
  (lstat root = None -> handleScan ctx lstat open req = inl [])
  /\ (lstat root = Some NFile ->
        files (scanWalk ctx lstat open root).1 = rootFileParsed ctx open root
        /\ handleScan ctx lstat open req
           = (if decide (ctx 0%nat = CtxDeadlineExceeded)
              then inr (WalkingWorkspace DeadlineExceeded)
              else inl match rootFileParsed ctx open root with
                       | fi :: _ =>
                           analyzeFile
                             (addImports ∅ (relPathOf root root) (imports fi))
                             root [] fi
                       | [] => []
                       end)
        /\ (ctx 0%nat <> CtxDeadlineExceeded ->
              exists fs, handleScan ctx lstat open req = inl fs
                         /\ forall f, f ∈ fs -> filePath f = root))
  /\ (forall e, handleScan ctx lstat open req = inr e ->
                e = WalkingWorkspace DeadlineExceeded
                /\ exists n, ctx n = CtxDeadlineExceeded).
Proof.
  intros Hne root. split; [|split].
  - intros Hl. rewrite (handleScan_outcome ctx lstat open req Hne). cbv zeta.
    fold root. by rewrite (scanWalk_missing_root ctx lstat open _ Hl).
  - intros Hl.
    assert (handleScan ctx lstat open req
            = (if decide (ctx 0%nat = CtxDeadlineExceeded)
               then inr (WalkingWorkspace DeadlineExceeded)
               else inl match rootFileParsed ctx open root with
                        | fi :: _ =>
                            analyzeFile
                              (addImports ∅ (relPathOf root root) (imports fi))
                              root [] fi
                        | [] => []
                        end)) as Heq.
    { rewrite (handleScan_outcome ctx lstat open req Hne). cbv zeta. fold root.
      rewrite (scanWalk_file_root_eq ctx lstat open root Hl). unfold rootFileParsed.
      destruct (ctx 0%nat); cbn [ctxErr fst snd files importGraph];
        [|by rewrite decide_False by done | by rewrite decide_True by done].
      rewrite decide_False by done.
      destruct (sourceExtensions (filepath.Ext root)); [|reflexivity].
      by destruct (parseFile open root (filepath.Ext root)) as [fi [e|]]. }
    split; [|split; [exact Heq|]].
    + rewrite (scanWalk_file_root_eq ctx lstat open root Hl). unfold rootFileParsed.
      destruct (ctx 0%nat); cbn [ctxErr fst files]; try reflexivity.
      destruct (sourceExtensions (filepath.Ext root)); [|reflexivity].
      by destruct (parseFile open root (filepath.Ext root)) as [fi [e|]].
    + intros Hd. rewrite decide_False in Heq by exact Hd.
      destruct (scanWalk_file_root ctx lstat open _ Hl) as [_ Hfiles].
      eexists. split; [exact Heq|]. intros f Hf.
      destruct (handleScan_pointsInto ctx lstat open req _ Heq f Hf) as (fi & Hfi & ->).
      by apply Hfiles.
  - intros e He. rewrite (handleScan_outcome ctx lstat open req Hne) in He.
    cbv zeta in He.
    pose proof (WalkDir_error ctx open (requestRoot req) (lstat (requestRoot req))
                  (MkScan 0 [] ∅)) as Hctx.
    fold (scanWalk ctx lstat open (requestRoot req)) in Hctx.
    destruct ((scanWalk ctx lstat open (requestRoot req)).2) as [[]|];
      try discriminate He.
    injection He as <-. split; [reflexivity|].
    destruct Hctx as [Hctx | (n & _ & Hctx)]; [discriminate|].
    exists n. by destruct (ctx n).
Qed.

(** The amended C6 on a root that does not exist and on a root that is a
    regular file: [web/login.py] scanned alone is parsed and gets its
    ARCH-003 finding. *)
Lemma handleScan_root_not_a_directory_witness :
  handleScan (fun _ => CtxLive) exampleServiceLstat exampleServiceOpen
             (MkToolRequest ∅ "/no/such/dir") = inl []
  /\ map path (files (scanWalk (fun _ => CtxLive) exampleServiceLstat
                        exampleServiceOpen "/srv/web/login.py").1)
     = ["/srv/web/login.py"]
  /\ handleScan (fun _ => CtxLive) exampleServiceLstat exampleServiceOpen
                (MkToolRequest ∅ "/srv/web/login.py")
     = inl [mixingFinding (MkFileInfo "/srv/web/login.py" ".py"
                             (lines exampleAuthRouteFile) [MkImportRef "flask" 1] 1 3)].
Proof.
  split; [|split].
  - assert (requestRoot (MkToolRequest ∅ "/no/such/dir") <> "") as Hne
      by (vm_compute; discriminate).
    exact (proj1 (handleScan_root_not_a_directory (fun _ => CtxLive)
                    exampleServiceLstat exampleServiceOpen _ Hne) eq_refl).
  - assert (requestRoot (MkToolRequest ∅ "/srv/web/login.py") <> "") as Hne
      by (vm_compute; discriminate).
    destruct (proj1 (proj2 (handleScan_root_not_a_directory (fun _ => CtxLive)
                              exampleServiceLstat exampleServiceOpen _ Hne)) eq_refl)
      as (Hfiles & _ & _).
    change (requestRoot (MkToolRequest ∅ "/srv/web/login.py"))
      with "/srv/web/login.py" in Hfiles.
    rewrite Hfiles. vm_compute. reflexivity.
  - assert (requestRoot (MkToolRequest ∅ "/srv/web/login.py") <> "") as Hne
      by (vm_compute; discriminate).
    destruct (proj1 (proj2 (handleScan_root_not_a_directory (fun _ => CtxLive)
                              exampleServiceLstat exampleServiceOpen _ Hne)) eq_refl)
      as (_ & Heq & _).
    rewrite Heq. vm_compute. reflexivity.
Defined.

(** C6 as stated fails: a root that does not exist gives an empty
    successful result, not a failure. *)
Lemma missing_root_is_empty_success :
  exampleServiceLstat "/no/such/dir" = None
  /\ handleScan (fun _ => CtxLive) exampleServiceLstat exampleServiceOpen
                (MkToolRequest ∅ "/no/such/dir") = inl [].
Proof. split; vm_compute; reflexivity. Qed.

(** *** What a cancelled walk has gathered *)

Section Partial.

Variable ctx : nat -> ctxStatus.
Variable open : string -> fileContent.
Variable root : string.

Lemma walkFn_grows (c : nat -> ctxStatus) (st : scanState) (p : string)
    (d : option DirEntry) (e : option error) :
  files st `prefix_of` files (walkFn c open root st p d e).1.
Proof.
  unfold walkFn. destruct e; [done|]. destruct (ctxErr (c (ticks st))); [done|].
  destruct d as [d|]; [|done]. destruct (IsDir d).
  - by destruct (skippedDirs (Name d)).
  - destruct (sourceExtensions (filepath.Ext p)); cbn [negb]; [|done].
    destruct (parseFile open p (filepath.Ext p)) as [info [err|]]; [done|].
    by apply prefix_app_r.
Qed.

Lemma walkDir_grows (c : nat -> ctxStatus) (n : node) (p name : string)
    (st : scanState) :
  files st `prefix_of` files (walkDir (walkFn c open root) p name n st).1.
Proof.
  apply (proj1 (walkDir_walkEntries_keep (walkFn c open root)
                  (fun s => files st `prefix_of` files s)
                  (fun s p d e H => transitivity H (walkFn_grows c s p d e)))
               n p name st).
  done.
Qed.

Lemma walkEntries_grows (c : nat -> ctxStatus) (es : entries) (p : string)
    (st : scanState) :
  files st `prefix_of` files (walkEntries (walkFn c open root) p es st).1.
Proof.
  apply (proj2 (walkDir_walkEntries_keep (walkFn c open root)
                  (fun s => files st `prefix_of` files s)
                  (fun s p d e H => transitivity H (walkFn_grows c s p d e)))
               es p st).
  done.
Qed.

Lemma live_no_error (o : option error) : fromContext alwaysLive o -> o = None.
Proof. by intros [-> | (n & Hn & _)]. Qed.

(** While the context is live the callback does what it does under a
    context that stays live. *)
Lemma walkFn_sync (st st' : scanState) (p : string) (d : option DirEntry)
    (e : option error) :
  inSync st st' ->
  (e = None -> ctx (ticks st) = CtxLive) ->
  (walkFn ctx open root st p d e).2 = (walkFn alwaysLive open root st' p d e).2
  /\ inSync (walkFn ctx open root st p d e).1 (walkFn alwaysLive open root st' p d e).1.
Proof.
  intros [Hf Hg] Hlive. unfold walkFn. destruct e as [e|]; [done|].
  rewrite (Hlive eq_refl). cbn [alwaysLive ctxErr files importGraph].
  destruct d as [d|]; [|done]. destruct (IsDir d).
  - by destruct (skippedDirs (Name d)).
  - destruct (sourceExtensions (filepath.Ext p)); cbn [negb]; [|done].
    destruct (parseFile open p (filepath.Ext p)) as [info [err|]]; [done|].
    cbn [fst snd]. unfold inSync. cbn [files importGraph]. by rewrite Hf, Hg.
Qed.

Lemma walkFn_stops (st : scanState) (p : string) (d : option DirEntry) :
  ctx (ticks st) <> CtxLive ->
  (walkFn ctx open root st p d None).2 = ctxErr (ctx (ticks st))
  /\ (walkFn ctx open root st p d None).2 <> None
  /\ (walkFn ctx open root st p d None).2 <> Some SkipDir
  /\ files (walkFn ctx open root st p d None).1 = files st.
Proof.
  intros Hc. unfold walkFn. by destruct (ctx (ticks st)).
Qed.

Lemma walkDir_walkEntries_partial :
  (forall n p name st st',
      inSync st st' ->
      walkedLike (walkDir (walkFn ctx open root) p name n st)
                 (walkDir (walkFn alwaysLive open root) p name n st'))
  /\ (forall es p st st',
        inSync st st' ->
        walkedLike (walkEntries (walkFn ctx open root) p es st)
                   (walkEntries (walkFn alwaysLive open root) p es st')).
Proof.
  apply node_entries_mutind.
  - intros p name st st' Hs. rewrite !walkDir_file.
    destruct (decide (ctx (ticks st) = CtxLive)) as [Hc|Hc].
    + destruct (walkFn_sync st st' p (Some (MkDirEntry name false)) None Hs)
        as [He Hs']; [done|].
      left. split; [|exact Hs']. rewrite He. apply live_no_error.
      rewrite <- (walkDir_file (walkFn alwaysLive open root) p name st').
      apply (proj1 (walkDir_walkEntries_error alwaysLive open root)).
    + destruct (walkFn_stops st p (Some (MkDirEntry name false)) Hc)
        as (_ & H1 & H2 & H3).
      right. split; [exact H1|]. split; [exact H2|]. rewrite H3, (proj1 Hs).
      apply walkFn_grows.
  - intros es IHes readErr p name st st' Hs.
    pose proof (walkDir_grows alwaysLive (NDir es readErr) p name st') as Hgrow.
    rewrite !walkDir_dir in *. rewrite !walkFn_on_dir in *.
    destruct (decide (ctx (ticks st) = CtxLive)) as [Hc|Hc].
    + rewrite Hc. cbn [alwaysLive ctxErr] in *.
      destruct (skippedDirs name).
      * left. cbn [fst snd]. split; [by rewrite decide_True|]. exact Hs.
      * assert (inSync (MkScan (S (ticks st)) (files st) (importGraph st))
                       (MkScan (S (ticks st')) (files st') (importGraph st'))) as Hs'
          by exact Hs.
        destruct readErr; [rewrite !walkFn_reported|]; by apply IHes.
    + right. cbn [alwaysLive ctxErr] in Hgrow.
      destruct (ctx (ticks st)); [done| |]; cbn [ctxErr fst snd];
        (rewrite decide_False by done);
        (split; [done|]; split; [done|]); by rewrite (proj1 Hs).
  - intros p st st' Hs. left. by rewrite !walkEntries_nil.
  - intros name1 n1 IHn rest IHrest p st st' Hs.
    pose proof (walkEntries_grows alwaysLive (ECons name1 n1 rest) p st') as Hgrow.
    rewrite !walkEntries_cons in *.
    pose proof (proj1 (walkDir_walkEntries_error alwaysLive open root)
                  n1 (filepath.Join [p; name1]) name1 st') as Hlive.
    apply live_no_error in Hlive.
    specialize (IHn (filepath.Join [p; name1]) name1 st st' Hs).
    destruct (walkDir (walkFn ctx open root) (filepath.Join [p; name1]) name1 n1 st)
      as [s1 o1].
    destruct (walkDir (walkFn alwaysLive open root) (filepath.Join [p; name1]) name1 n1 st')
      as [s1' o1'].
    cbn [fst snd] in *. subst o1'. unfold walkedLike in IHn. cbn [fst snd] in IHn.
    destruct IHn as [[-> Hs1] | (Hne & Hns & Hpre)].
    + by apply IHrest.
    + destruct o1 as [e1|]; [|done]. rewrite decide_False by congruence.
      right. cbn [fst snd]. split; [done|]. split; [done|].
      etrans; [exact Hpre|]. apply walkEntries_grows.
Qed.

Lemma scanWalk_partial (lstat : string -> option node) :
  files (scanWalk ctx lstat open root).1
    `prefix_of` files (scanWalk alwaysLive lstat open root).1.
Proof.
  unfold scanWalk, WalkDir. destruct (lstat root) as [n|].
  - pose proof (proj1 walkDir_walkEntries_partial n root (filepath.Base root)
                  (MkScan 0 [] ∅) (MkScan 0 [] ∅) (conj eq_refl eq_refl)) as H.
    destruct (walkDir (walkFn ctx open root) root (filepath.Base root) n (MkScan 0 [] ∅))
      as [s1 o1].
    destruct (walkDir (walkFn alwaysLive open root) root (filepath.Base root) n
                (MkScan 0 [] ∅)) as [s1' o1'].
    unfold walkedLike in H. cbn [fst snd] in *.
    destruct H as [[_ [-> _]] | (_ & _ & H)]; done.
  - rewrite !walkFn_reported. done.
Qed.

End Partial.

Section Stops.

Variable ctx : nat -> ctxStatus.
Variable open : string -> fileContent.
Variable root : string.

Lemma stoppedAt_from (t0 t1 : nat) (r : scanState * option error) :
  (t0 <= t1)%nat ->
  (forall k, (t0 <= k < t1)%nat -> ctx k = CtxLive) ->
  stoppedAt ctx t1 r -> stoppedAt ctx t0 r.
Proof.
  intros Hle Hlive [(He & Ht & Hr) | (n & Hn & Ht & Hc & He & Hr)].
  - left. split; [exact He|]. split; [lia|]. intros k Hk.
    destruct (decide (k < t1)%nat); [apply Hlive | apply Hr]; lia.
  - right. exists n. split; [exact Hn|]. split; [lia|]. split; [exact Hc|].
    split; [exact He|]. intros k Hk.
    destruct (decide (k < t1)%nat); [apply Hlive | apply Hr]; lia.
Qed.

(** One callback without an error is one consultation, and it returns the
    error of the context if there is one. *)
Lemma walkFn_consults (st : scanState) (p : string) (d : DirEntry) :
  ticks (walkFn ctx open root st p (Some d) None).1 = S (ticks st)
  /\ (ctx (ticks st) <> CtxLive ->
        (walkFn ctx open root st p (Some d) None).2 = ctxErr (ctx (ticks st)))
  /\ (ctx (ticks st) = CtxLive -> IsDir d = false ->
        (walkFn ctx open root st p (Some d) None).2 = None).
Proof.
  unfold walkFn. destruct (ctx (ticks st)); cbn [ctxErr fst snd ticks];
    [|done..].
  destruct (IsDir d).
  - by destruct (skippedDirs (Name d)).
  - destruct (sourceExtensions (filepath.Ext p)); cbn [negb]; [|done].
    by destruct (parseFile open p (filepath.Ext p)) as [info [e|]].
Qed.

Lemma stoppedAt_one (st s1 : scanState) (o : option error) :
  ticks s1 = S (ticks st) ->
  (ctx (ticks st) = CtxLive -> o = None) ->
  (ctx (ticks st) <> CtxLive -> o = ctxErr (ctx (ticks st))) ->
  stoppedAt ctx (ticks st) (s1, o).
Proof.
  intros Ht Hlive Hstop. destruct (decide (ctx (ticks st) = CtxLive)) as [Hc|Hc].
  - left. cbn [fst snd]. split; [by apply Hlive|]. split; [lia|].
    intros k Hk. by replace k with (ticks st) by lia.
  - right. exists (ticks st). cbn [fst snd]. split; [exact Ht|]. split; [lia|].
    split; [exact Hc|]. split; [by apply Hstop|]. intros k Hk. lia.
Qed.

Lemma walkDir_walkEntries_stoppedAt :
  (forall n p name st,
      stoppedAt ctx (ticks st) (walkDir (walkFn ctx open root) p name n st))
  /\ (forall es p st,
        stoppedAt ctx (ticks st) (walkEntries (walkFn ctx open root) p es st)).
Proof.
  apply node_entries_mutind.
  - intros p name st. rewrite walkDir_file.
    destruct (walkFn_consults st p (MkDirEntry name false)) as (Ht & Hstop & Hlive).
    destruct (walkFn ctx open root st p (Some (MkDirEntry name false)) None) as [s1 o].
    cbn [fst snd] in *. apply stoppedAt_one; [exact Ht | | exact Hstop].
    intros Hc. by apply Hlive.
  - intros es IHes readErr p name st. rewrite walkDir_dir, walkFn_on_dir.
    destruct (decide (ctx (ticks st) = CtxLive)) as [Hc|Hc].
    + rewrite Hc. cbn [ctxErr]. destruct (skippedDirs name).
      * rewrite decide_True by done. by apply stoppedAt_one.
      * assert (stoppedAt ctx (S (ticks st))
                  (walkEntries (walkFn ctx open root) p es
                     (MkScan (S (ticks st)) (files st) (importGraph st)))) as H
          by apply (IHes p (MkScan (S (ticks st)) (files st) (importGraph st))).
        destruct readErr; [rewrite walkFn_reported|];
          (apply (stoppedAt_from (ticks st) (S (ticks st))); [lia | | exact H]);
          intros k Hk; by replace k with (ticks st) by lia.
    + destruct (ctx (ticks st)) eqn:Hs; [done| |]; cbn [ctxErr];
        (rewrite decide_False by done);
        (apply stoppedAt_one;
         [reflexivity | intros H; congruence | intros _; by rewrite Hs]).
  - intros p st. rewrite walkEntries_nil. left. cbn [fst snd].
    split; [done|]. split; [lia|]. intros k Hk. lia.
  - intros name1 n1 IHn rest_ IHrest p st. rewrite walkEntries_cons.
    specialize (IHn (filepath.Join [p; name1]) name1 st).
    destruct (walkDir (walkFn ctx open root) (filepath.Join [p; name1]) name1 n1 st)
      as [s1 o1].
    destruct IHn as [(He & Ht & Hr) | (n & Hn & Ht & Hc & He & Hr)];
      cbn [fst snd] in *.
    + subst o1. by apply (stoppedAt_from (ticks st) (ticks s1)).
    + assert (exists e, o1 = Some e /\ e <> SkipDir) as (e & -> & Hskip).
      { rewrite He. destruct (ctx n); [done|by eexists..]. }
      rewrite decide_False by exact Hskip.
      right. exists n. cbn [fst snd]. done.
Qed.

Lemma scanWalk_stoppedAt (lstat : string -> option node) :
  stoppedAt ctx 0 (scanWalk ctx lstat open root).
Proof.
  unfold scanWalk, WalkDir. destruct (lstat root) as [n|].
  - pose proof (proj1 walkDir_walkEntries_stoppedAt n root (filepath.Base root)
                  (MkScan 0 [] ∅)) as H.
    cbn [ticks] in H.
    destruct (walkDir (walkFn ctx open root) root (filepath.Base root) n (MkScan 0 [] ∅))
      as [s1 o1].
    destruct H as [(He & Ht & Hr) | (k & Hk & Ht & Hc & He & Hr)]; cbn [fst snd] in *.
    + subst o1. left. done.
    + right. exists k. cbn [fst snd]. split; [exact Hk|]. split; [exact Ht|].
      split; [exact Hc|]. split; [|exact Hr].
      rewrite He. destruct (ctx k); [done|..]; cbn [ctxErr];
        by rewrite decide_False by done.
  - rewrite walkFn_reported. left. cbn [fst snd ticks].
    split; [done|]. split; [lia|]. intros k Hk. lia.
Qed.

End Stops.

(** C7, amended.  A walk stops at the first callback that finds the
    context no longer live, and the files it has parsed by then are the
    first files an uninterrupted walk parses.  When what the walk met is a
    cancellation, the scan returns as a success the findings of the
    analyzers on these files, whether or not there is any: with no file
    parsed that is an empty successful result, not a cancelled error.  When
    it is the deadline of the context, the scan returns the wrapped
    deadline error and no findings, again whether or not a file had been
    parsed. *)
Theorem handleScan_canceled (ctx : nat -> ctxStatus) (lstat : string -> option node)
    (open : string -> fileContent) (req : ToolRequest) :
  requestRoot req <> "" ->
  let root := requestRoot req in
  let st := (scanWalk ctx lstat open root).1 in
  files st `prefix_of` files (scanWalk alwaysLive lstat open root).1
  /\ (forall n, (n < ticks st)%nat -> ctx n <> CtxLive ->
        ticks st = S n /\ forall k, (k < n)%nat -> ctx k = CtxLive)
  /\ ((forall n, (n < ticks st)%nat -> ctx n <> CtxDeadlineExceeded) ->
        handleScan ctx lstat open req
        = inl (analyzeAll (importGraph st) root (files st) [])
        /\ (files st = [] -> handleScan ctx lstat open req = inl []))
  /\ ((exists n, (n < ticks st)%nat /\ ctx n = CtxDeadlineExceeded) ->
        handleScan ctx lstat open req = inr (WalkingWorkspace DeadlineExceeded)).
Proof.
  intros Hne root st.
  pose proof (scanWalk_stoppedAt ctx open root lstat) as Hstop.
  pose proof (handleScan_outcome ctx lstat open req Hne) as Hout.
  cbv zeta in Hout. fold root in Hout. fold st in Hout.
  assert (forall n, (n < ticks st)%nat -> ctx n <> CtxLive ->
            ticks st = S n /\ (forall k, (k < n)%nat -> ctx k = CtxLive)
            /\ (scanWalk ctx lstat open root).2 = ctxErr (ctx n)) as Hfirst.
  { intros n Hn Hc. unfold st in Hn |- *.
    destruct Hstop as [(_ & _ & Hr) | (m & Hm & _ & Hcm & He & Hr)].
    - destruct Hc. apply Hr. lia.
    - assert (n = m) as ->.
      { destruct (decide (n < m)%nat) as [Hlt|Hge]; [|lia].
        destruct Hc. apply Hr. lia. }
      split; [exact Hm|]. split; [|exact He]. intros k Hk. apply Hr. lia. }
  split; [apply scanWalk_partial|]. split; [|split].
  - intros n Hn Hc. destruct (Hfirst n Hn Hc) as (H1 & H2 & _). by split.
  - intros Hnd.
    assert (handleScan ctx lstat open req
            = inl (analyzeAll (importGraph st) root (files st) [])) as Heq.
    { rewrite Hout.
      destruct Hstop as [(He & _ & _) | (m & Hm & _ & Hcm & He & _)].
      - by rewrite He.
      - rewrite He. specialize (Hnd m). unfold st in Hnd.
        destruct (ctx m); [done| reflexivity |]. destruct Hnd; [lia | done]. }
    split; [exact Heq|]. intros Hnil. by rewrite Heq, Hnil.
  - intros (n & Hn & Hd).
    destruct (Hfirst n Hn) as (_ & _ & He); [by rewrite Hd|].
    rewrite Hout, He, Hd. reflexivity.
Qed.

Lemma canceledFrom_no_deadline (k n : nat) : canceledFrom k n <> CtxDeadlineExceeded.
Proof. unfold canceledFrom. by destruct (n <? k)%nat. Qed.

(** The amended C7 on the example workspace.  Cancelled when the walk
    reaches [vendor], the scan returns the two findings of [api/users.go];
    cancelled after the root alone, it returns none, as a success.  With
    the deadline passing when the walk reaches [vendor], [api/users.go]
    has been parsed and the scan fails all the same. *)
Lemma handleScan_canceled_witness :
  handleScan (canceledFrom 3) exampleServiceLstat exampleServiceOpen
             (MkToolRequest ∅ "/srv")
  = inl [abstractionFindingAt
           (MkFileInfo "/srv/api/users.go" ".go" (lines exampleHandlerFile) [] 1 4)
           (2, "	rows, err := db.Query(stmt)");
         abstractionFindingAt
           (MkFileInfo "/srv/api/users.go" ".go" (lines exampleHandlerFile) [] 1 4)
           (3, "	_, err = db.Exec(del, id)  ")]
  /\ handleScan (canceledFrom 1) exampleServiceLstat exampleServiceOpen
                (MkToolRequest ∅ "/srv") = inl []
  /\ map path (files (scanWalk (deadlineFrom 3) exampleServiceLstat
                        exampleServiceOpen "/srv").1) = ["/srv/api/users.go"]
  /\ handleScan (deadlineFrom 3) exampleServiceLstat exampleServiceOpen
                (MkToolRequest ∅ "/srv") = inr (WalkingWorkspace DeadlineExceeded).
Proof.
  assert (requestRoot (MkToolRequest ∅ "/srv") <> "") as Hne
    by (vm_compute; discriminate).
  split; [|split; [|split]].
  - destruct (handleScan_canceled (canceledFrom 3) exampleServiceLstat
                exampleServiceOpen _ Hne) as (_ & _ & Hok & _).
    destruct Hok as [Heq _]; [intros n _; apply canceledFrom_no_deadline|].
    rewrite Heq. vm_compute. reflexivity.
  - destruct (handleScan_canceled (canceledFrom 1) exampleServiceLstat
                exampleServiceOpen _ Hne) as (_ & _ & Hok & _).
    destruct Hok as [_ Hnil]; [intros n _; apply canceledFrom_no_deadline|].
    apply Hnil. vm_compute. reflexivity.
  - vm_compute. reflexivity.
  - destruct (handleScan_canceled (deadlineFrom 3) exampleServiceLstat
                exampleServiceOpen _ Hne) as (_ & _ & _ & Hfail).
    apply Hfail. exists 3%nat. split; vm_compute; [lia | reflexivity].
Defined.

(** C7 as stated fails: cancelled after the callback on the root, before
    any file is parsed, the walk ends with [context.Canceled], no file has
    been processed, and the scan returns an empty successful result. *)
Lemma canceled_before_any_file_is_success :
  (scanWalk (canceledFrom 1) exampleServiceLstat exampleServiceOpen "/srv").2
    = Some Canceled
  /\ files (scanWalk (canceledFrom 1) exampleServiceLstat exampleServiceOpen "/srv").1
     = []
  /\ handleScan (canceledFrom 1) exampleServiceLstat exampleServiceOpen
                (MkToolRequest ∅ "/srv") = inl [].
Proof. repeat split; vm_compute; reflexivity. Qed.

(** ** Pruning *)

Section Pruning.

Variable ctx : nat -> ctxStatus.
Variable open : string -> fileContent.
Variable root : string.
Variable rootNode : node.

(** The callback on anything else adds at most the file at its path. *)
Lemma walkFn_on_file (st : scanState) (p name : string) :
  files (walkFn ctx open root st p (Some (MkDirEntry name false)) None).1 = files st
  \/ exists info,
       files (walkFn ctx open root st p (Some (MkDirEntry name false)) None).1
       = files st ++ [info]
       /\ path info = p.
Proof.
  unfold walkFn. destruct (ctxErr (ctx (ticks st))); [by left|].
  cbn [IsDir]. destruct (sourceExtensions (filepath.Ext p)); cbn [negb]; [|by left].
  destruct (parseFile open p (filepath.Ext p)) as [info [err|]] eqn:Hp; [by left|].
  right. exists info. split; [reflexivity|]. by apply parseFile_ok_path in Hp.
Qed.

(** A directory of the skip-set costs one callback and nothing else: the
    walk does not descend, whatever the directory holds. *)
Lemma walkDir_prunes (st : scanState) (p name : string) (es : entries)
    (readErr : bool) :
  skippedDirs name = true ->
  walkDir (walkFn ctx open root) p name (NDir es readErr) st
  = (MkScan (S (ticks st)) (files st) (importGraph st), ctxErr (ctx (ticks st))).
Proof.
  intros Hs. rewrite walkDir_dir, walkFn_on_dir, Hs.
  destruct (ctx (ticks st)); cbn [ctxErr]; reflexivity.
Qed.

Lemma walkDir_walkEntries_visited :
  (forall n p name st,
      visited root rootNode p name n ->
      filesVisited root rootNode st ->
      filesVisited root rootNode (walkDir (walkFn ctx open root) p name n st).1)
  /\ (forall es' p name es readErr st,
        visited root rootNode p name (NDir es readErr) ->
        skippedDirs name = false ->
        (forall name1 n1, inEntries name1 n1 es' -> inEntries name1 n1 es) ->
        filesVisited root rootNode st ->
        filesVisited root rootNode (walkEntries (walkFn ctx open root) p es' st).1).
Proof.
  apply node_entries_mutind.
  - intros p name st Hv Hst. rewrite walkDir_file. intros fi Hfi.
    destruct (walkFn_on_file st p name) as [Heq | (info & Heq & Hp)];
      rewrite Heq in Hfi; [by apply Hst|].
    apply elem_of_app in Hfi as [Hfi | ->%list_elem_of_singleton]; [by apply Hst|].
    exists name. by rewrite Hp.
  - intros es IHes readErr p name st Hv Hst.
    rewrite walkDir_dir, walkFn_on_dir.
    destruct (ctxErr (ctx (ticks st))) as [e|]; [exact Hst|].
    destruct (skippedDirs name) eqn:Hs; [exact Hst|].
    assert (filesVisited root rootNode
              (walkEntries (walkFn ctx open root) p es
                 (MkScan (S (ticks st)) (files st) (importGraph st))).1) as Hdone.
    { by apply (IHes p name es readErr). }
    destruct readErr; [|exact Hdone]. by rewrite walkFn_reported.
  - intros p name es readErr st _ _ _ Hst. exact Hst.
  - intros name1 n1 IHn rest IHrest p name es readErr st Hv Hs Hsub Hst.
    rewrite walkEntries_cons.
    assert (filesVisited root rootNode
              (walkDir (walkFn ctx open root) (filepath.Join [p; name1]) name1 n1 st).1)
      as H1.
    { apply IHn; [|exact Hst].
      apply (visited_child root rootNode p name es readErr); [done..|].
      apply Hsub. by left. }
    destruct (walkDir (walkFn ctx open root) (filepath.Join [p; name1]) name1 n1 st)
      as [s1 [e1|]]; cbn [fst] in H1.
    + by destruct (decide (e1 = SkipDir)).
    + apply (IHrest p name es readErr); try done.
      intros nm nd Hin. apply Hsub. by right.
Qed.

Lemma scanWalk_visited (lstat : string -> option node) :
  lstat root = Some rootNode ->
  filesVisited root rootNode (scanWalk ctx lstat open root).1.
Proof.
  intros Hl. unfold scanWalk, WalkDir. rewrite Hl.
  pose proof (proj1 walkDir_walkEntries_visited rootNode root (filepath.Base root)
                (MkScan 0 [] ∅) (visited_root root rootNode)) as H.
  destruct (walkDir (walkFn ctx open root) root (filepath.Base root) rootNode
              (MkScan 0 [] ∅)) as [s1 e1].
  apply H. by intros fi Hfi%elem_of_nil.
Qed.

End Pruning.

Lemma removelast_snoc_last (d : string) (names : list string) :
  d :: names = removelast (d :: names) ++ [default d (last names)].
Proof.
  revert d. induction names as [|x l IH]; intros d; [reflexivity|].
  change (removelast (d :: x :: l)) with (d :: removelast (x :: l)).
  cbn [app]. f_equal. rewrite (IH x) at 1. f_equal. f_equal.
  destruct l as [|y l']; [reflexivity|].
  change (last (x :: y :: l')) with (last (y :: l')).
  by destruct (last (y :: l')) eqn:Hl; [|apply last_None in Hl].
Qed.

(** A visited entry sits at the path built from the root through the names
    leading to it, and no directory above it has a name of the skip-set. *)
Lemma visited_chain (root : string) (rootNode : node) (p name : string) (n : node) :
  visited root rootNode p name n ->
  exists names,
    p = pathVia root names
    /\ name = default (filepath.Base root) (last names)
    /\ Forall (fun d => skippedDirs d = false) (dirsAbove root names).
Proof.
  induction 1 as [|p name es readErr name1 n1 Hv (names & Hp & Hn & Hall) Hs Hin].
  - exists []. split; [reflexivity|]. split; [reflexivity|]. constructor.
  - exists (names ++ [name1]). unfold pathVia, dirsAbove in *.
    rewrite fold_left_app, <- Hp, last_snoc. cbn [fold_left default].
    split; [reflexivity|]. split; [reflexivity|].
    change (filepath.Base root :: names ++ [name1])
      with ((filepath.Base root :: names) ++ [name1]).
    rewrite removelast_last, (removelast_snoc_last (filepath.Base root) names), <- Hn.
    apply Forall_app. split; [exact Hall | by constructor].
Qed.

(** C9. Every finding of a scan is about a file the walk visited, that is,
    reached from the workspace root through directories none of which,
    the root included, is named [.git], [vendor], [node_modules],
    [__pycache__], [.venv], [dist] or [build]: its file path is the root
    joined with the names leading to the file, and no directory among them
    has such a name.  The same holds of every file parsed.  A directory
    with such a name is pruned at any depth: the walk makes one callback
    on it and does not descend, so nothing in it is parsed. *)
Theorem skipped_dirs_never_reported (ctx : nat -> ctxStatus)
    (lstat : string -> option node) (open : string -> fileContent)
    (req : ToolRequest) :
  (forall fs f,
      handleScan ctx lstat open req = inl fs -> f ∈ fs ->
      exists rootNode name,
        lstat (requestRoot req) = Some rootNode
        /\ visited (requestRoot req) rootNode (filePath f) name NFile)
  /\ (forall fs f,
        handleScan ctx lstat open req = inl fs -> f ∈ fs ->
        exists names,
          filePath f = pathVia (requestRoot req) names
          /\ Forall (fun d => skippedDirs d = false) (dirsAbove (requestRoot req) names))
  /\ (forall fi,
        fi ∈ files (scanWalk ctx lstat open (requestRoot req)).1 ->
        exists rootNode name,
          lstat (requestRoot req) = Some rootNode
          /\ visited (requestRoot req) rootNode (path fi) name NFile)
  /\ (forall st p name es readErr,
        name ∈ [".git"; "vendor"; "node_modules"; "__pycache__"; ".venv"; "dist"; "build"] ->
        walkDir (walkFn ctx open (requestRoot req)) p name (NDir es readErr) st
        = (MkScan (S (ticks st)) (files st) (importGraph st),
           ctxErr (ctx (ticks st)))).
Proof.
  assert (forall fi,
             fi ∈ files (scanWalk ctx lstat open (requestRoot req)).1 ->
             exists rootNode name,
               lstat (requestRoot req) = Some rootNode
               /\ visited (requestRoot req) rootNode (path fi) name NFile) as Hfiles.
  { intros fi Hfi.
    destruct (lstat (requestRoot req)) as [rootNode|] eqn:Hl.
    - destruct (scanWalk_visited ctx open (requestRoot req) rootNode lstat Hl fi Hfi)
        as [name Hv].
      by exists rootNode, name.
    - rewrite (scanWalk_missing_root ctx lstat open _ Hl) in Hfi.
      by apply elem_of_nil in Hfi. }
  assert (forall fs f,
             handleScan ctx lstat open req = inl fs -> f ∈ fs ->
             exists rootNode name,
               lstat (requestRoot req) = Some rootNode
               /\ visited (requestRoot req) rootNode (filePath f) name NFile)
    as Hfindings.
  { intros fs f Hfs Hf.
    destruct (handleScan_pointsInto ctx lstat open req fs Hfs f Hf) as (fi & Hfi & ->).
    by apply Hfiles. }
  split; [exact Hfindings|]. split; [|split; [exact Hfiles|]].
  - intros fs f Hfs Hf.
    destruct (Hfindings fs f Hfs Hf) as (rootNode & name & _ & Hv).
    destruct (visited_chain _ _ _ _ _ Hv) as (names & Hp & _ & Hall).
    by exists names.
  - intros st p name es readErr Hname. apply walkDir_prunes.
    repeat (apply elem_of_cons in Hname as [->|Hname]; [reflexivity|]).
    by apply elem_of_nil in Hname.
Qed.

(** C9 on the example workspace: the copy of the handler under [vendor] is
    never reported; the findings are about [api/users.go] and
    [web/login.py], both visited. *)
Lemma skipped_dirs_never_reported_witness :
  exists fs,
    handleScan (fun _ => CtxLive) exampleServiceLstat exampleServiceOpen
               (MkToolRequest ∅ "/srv") = inl fs
    /\ map filePath fs
       = ["/srv/api/users.go"; "/srv/api/users.go"; "/srv/web/login.py"]
    /\ forall f, f ∈ fs ->
         exists rootNode name,
           exampleServiceLstat "/srv" = Some rootNode
           /\ visited "/srv" rootNode (filePath f) name NFile.
Proof.
  destruct (handleScan (fun _ => CtxLive) exampleServiceLstat exampleServiceOpen
              (MkToolRequest ∅ "/srv")) as [fs|e] eqn:Hfs;
    [|vm_compute in Hfs; discriminate Hfs].
  exists fs. split; [reflexivity|]. split.
  - vm_compute in Hfs. injection Hfs as <-. vm_compute. reflexivity.
  - intros f Hf.
    destruct (proj1 (skipped_dirs_never_reported (fun _ => CtxLive) exampleServiceLstat
                       exampleServiceOpen (MkToolRequest ∅ "/srv")) fs f Hfs Hf)
      as (rootNode & name & H1 & H2).
    exists rootNode, name. split; [exact H1 | exact H2].
Defined.

(** * Further properties *)

(** ** The parser, line by line *)

Lemma parseLine_local (info : fileInfo) (n : Z) (ln : string) :
  imports (parseLine info n ln)
  = imports info ++ map (setLine n) (imports (lineInfo (ext info) ln))
  /\ exports (parseLine info n ln) = exports info + exports (lineInfo (ext info) ln)
  /\ (length (imports (lineInfo (ext info) ln)) <= 1)%nat
  /\ 0 <= exports (lineInfo (ext info) ln) <= 1.
Proof.
  unfold lineInfo, parseLine; cbn [ext imports exports lines path lineCount].
  case_ifs; cbn [imports exports map app length];
    rewrite ?app_nil_r; repeat split; try reflexivity; lia.
Qed.

Lemma scanLoop_closed (ls : list string) :
  forall (info : fileInfo) (n : Z),
    imports (scanLoop ls info n).1 = imports info ++ importsFrom (ext info) n ls
    /\ exports (scanLoop ls info n).1 = exports info + exportsOf (ext info) ls.
Proof.
  induction ls as [|ln ls IH]; intros info n; cbn [scanLoop importsFrom exportsOf fst].
  - rewrite app_nil_r. split; [reflexivity | lia].
  - destruct (IH (parseLine info (n + 1) ln) (n + 1)) as [Hi He].
    destruct (parseLine_shape info (n + 1) ln) as (_ & Hext & _ & _).
    destruct (parseLine_local info (n + 1) ln) as (Hi1 & He1 & _).
    rewrite Hi, He, Hext, Hi1, He1, <- app_assoc. split; [reflexivity | lia].
Qed.

Lemma parsed_fields (filePath e : string) (ls : list string) :
  path (parsed filePath e ls) = filePath
  /\ ext (parsed filePath e ls) = e
  /\ lines (parsed filePath e ls) = ls
  /\ lineCount (parsed filePath e ls) = Z.of_nat (length ls)
  /\ imports (parsed filePath e ls) = importsFrom e 0 ls
  /\ exports (parsed filePath e ls) = exportsOf e ls.
Proof.
  unfold parsed, parseFile.
  destruct (scanLoop_invariant ls (MkFileInfo filePath e [] [] 0 0) 0)
    as (_ & _ & H3 & H4 & H5); [reflexivity | constructor |].
  destruct (scanLoop_closed ls (MkFileInfo filePath e [] [] 0 0) 0) as [Hi He].
  pose proof (scanLoop_count ls (MkFileInfo filePath e [] [] 0 0) 0) as Hn.
  destruct (scanLoop ls (MkFileInfo filePath e [] [] 0 0) 0) as [info n].
  cbn [fst snd path ext lines imports exports lineCount app] in *.
  rewrite Z.add_0_l in He, Hn. done.
Qed.

Lemma importsFrom_shift (e : string) (ls : list string) :
  forall n k, importsFrom e (n + k) ls = map (shiftLine k) (importsFrom e n ls).
Proof.
  induction ls as [|ln ls IH]; intros n k; cbn [importsFrom]; [reflexivity|].
  rewrite map_app, map_map. f_equal.
  - apply map_ext. intros r. unfold shiftLine, setLine. cbn. f_equal. lia.
  - replace (n + k + 1) with (n + 1 + k) by lia. apply IH.
Qed.

Lemma importsFrom_app (e : string) (l1 l2 : list string) :
  forall n,
    importsFrom e n (l1 ++ l2)
    = importsFrom e n l1 ++ importsFrom e (n + Z.of_nat (length l1)) l2.
Proof.
  induction l1 as [|ln l1 IH]; intros n; cbn [app importsFrom length].
  - by rewrite Z.add_0_r.
  - rewrite IH, <- app_assoc. do 3 f_equal. lia.
Qed.

Lemma exportsOf_app (e : string) (l1 l2 : list string) :
  exportsOf e (l1 ++ l2) = exportsOf e l1 + exportsOf e l2.
Proof.
  induction l1 as [|ln l1 IH]; cbn [app exportsOf]; [reflexivity|]. rewrite IH. lia.
Qed.

(** X1. Parsing is line-local.  The summary of a file made of the lines
    [l1] followed by [l2] has the imports of [l1], then those of [l2] with
    their line numbers moved down by the length of [l1]; its export count
    is the sum of the two counts, and likewise its line count. *)
Theorem parseFile_concat (filePath e : string) (l1 l2 : list string) :
  imports (parsed filePath e (l1 ++ l2))
  = imports (parsed filePath e l1)
    ++ map (shiftLine (Z.of_nat (length l1))) (imports (parsed filePath e l2))
  /\ exports (parsed filePath e (l1 ++ l2))
     = exports (parsed filePath e l1) + exports (parsed filePath e l2)
  /\ lineCount (parsed filePath e (l1 ++ l2))
     = lineCount (parsed filePath e l1) + lineCount (parsed filePath e l2)
  /\ lines (parsed filePath e (l1 ++ l2))
     = lines (parsed filePath e l1) ++ lines (parsed filePath e l2).
Proof.
  destruct (parsed_fields filePath e (l1 ++ l2)) as (_ & _ & Hl & Hc & Hi & He).
  destruct (parsed_fields filePath e l1) as (_ & _ & Hl1 & Hc1 & Hi1 & He1).
  destruct (parsed_fields filePath e l2) as (_ & _ & Hl2 & Hc2 & Hi2 & He2).
  rewrite Hl, Hc, Hi, He, Hl1, Hc1, Hi1, He1, Hl2, Hc2, Hi2, He2.
  rewrite importsFrom_app, exportsOf_app, length_app.
  rewrite <- (importsFrom_shift e l2 0 (Z.of_nat (length l1))).
  repeat split; try reflexivity. lia.
Qed.

Lemma parseFile_parsed (open : string -> fileContent) (filePath e : string)
    (ls : list string) (scanErr : bool) :
  open filePath = Scans ls scanErr ->
  (parseFile open filePath e).1 = parsed filePath e ls.
Proof.
  intros Ho. unfold parsed, parseFile. rewrite Ho.
  by destruct (scanLoop ls (MkFileInfo filePath e [] [] 0 0) 0).
Qed.

Lemma importsFrom_sorted (e : string) (ls : list string) :
  forall n,
    StronglySorted Z.lt (map line (importsFrom e n ls))
    /\ Forall (fun r => n + 1 <= line r <= n + Z.of_nat (length ls)) (importsFrom e n ls)
    /\ (length (importsFrom e n ls) <= length ls)%nat.
Proof.
  induction ls as [|ln ls IH]; intros n; cbn [importsFrom length].
  - split; [constructor|]. split; [constructor | cbn; lia].
  - destruct (IH (n + 1)) as (Hs & Hr & Hl).
    destruct (parseLine_local (MkFileInfo "" e [] [] 0 0) 1 ln) as (_ & _ & H1 & _).
    cbn [ext] in H1.
    assert (Forall (fun r => n + 1 <= line r <= n + Z.of_nat (S (length ls)))
                   (importsFrom e (n + 1) ls)) as Hr'.
    { eapply Forall_impl; [exact Hr|]. cbn beta. intros r Hrr. lia. }
    destruct (imports (lineInfo e ln)) as [|r0 [|r1 tl]]; cbn [map app length] in *.
    + split; [exact Hs|]. split; [exact Hr' | lia].
    + split; [|split; [|lia]].
      * constructor; [exact Hs|]. apply Forall_map.
        eapply Forall_impl; [exact Hr|]. cbn. intros r Hrr. lia.
      * constructor; [cbn; lia | exact Hr'].
    + lia.
Qed.

Lemma exportsOf_bounds (e : string) (ls : list string) :
  0 <= exportsOf e ls <= Z.of_nat (length ls).
Proof.
  induction ls as [|ln ls IH]; cbn [exportsOf length]; [lia|].
  destruct (parseLine_local (MkFileInfo "" e [] [] 0 0) 1 ln) as (_ & _ & _ & H).
  cbn [ext] in H. lia.
Qed.

(** X2. A line counts for at most one export and one import.  Whatever the
    file yields, the summary has an export count between 0 and its line
    count, no more imports than lines, and import references in strictly
    increasing line order. *)
Theorem parseFile_counts (open : string -> fileContent) (filePath e : string) :
  0 <= exports (parseFile open filePath e).1 <= lineCount (parseFile open filePath e).1
  /\ (length (imports (parseFile open filePath e).1)
      <= length (lines (parseFile open filePath e).1))%nat
  /\ StronglySorted Z.lt (map line (imports (parseFile open filePath e).1)).
Proof.
  destruct (open filePath) as [|ls scanErr] eqn:Ho.
  - unfold parseFile. rewrite Ho. cbn. split; [lia|]. split; [lia | constructor].
  - rewrite (parseFile_parsed open filePath e ls scanErr Ho).
    destruct (parsed_fields filePath e ls) as (_ & _ & Hl & Hc & Hi & He).
    rewrite Hl, Hc, Hi, He.
    destruct (importsFrom_sorted e ls 0) as (Hs & _ & Hlen).
    pose proof (exportsOf_bounds e ls). done.
Qed.

Lemma lineInfo_unrecognized (e ln : string) :
  sourceExtensions e = false ->
  imports (lineInfo e ln) = [] /\ exports (lineInfo e ln) = 0.
Proof.
  intros He. unfold lineInfo, parseLine. cbn [ext].
  destruct (String.eqb_spec e ".go") as [->|_]; [discriminate He|].
  destruct (String.eqb_spec e ".py") as [->|_]; [discriminate He|].
  destruct (String.eqb_spec e ".js") as [->|_]; [discriminate He|].
  destruct (String.eqb_spec e ".ts") as [->|_]; [discriminate He|].
  done.
Qed.

(** X3. [parseFile] has patterns for [.go], [.py], [.js] and [.ts] only:
    given any other extension it still reads and counts the lines, and it
    extracts no import and counts no export. *)
Theorem parseFile_unrecognized_extension (open : string -> fileContent)
    (filePath e : string) (ls : list string) (scanErr : bool) :
  sourceExtensions e = false ->
  open filePath = Scans ls scanErr ->
  imports (parseFile open filePath e).1 = []
  /\ exports (parseFile open filePath e).1 = 0
  /\ lines (parseFile open filePath e).1 = ls
  /\ lineCount (parseFile open filePath e).1 = Z.of_nat (length ls).
Proof.
  intros He Ho. rewrite (parseFile_parsed open filePath e ls scanErr Ho).
  destruct (parsed_fields filePath e ls) as (_ & _ & Hl & Hc & Hi & Hx).
  rewrite Hl, Hc, Hi, Hx. clear Hl Hc Hi Hx Ho.
  assert (forall n, importsFrom e n ls = []) as Hn.
  { induction ls as [|ln ls IH]; intros n; cbn [importsFrom]; [reflexivity|].
    by rewrite (proj1 (lineInfo_unrecognized e ln He)), IH. }
  assert (exportsOf e ls = 0) as Hx.
  { clear Hn. induction ls as [|ln ls IH]; cbn [exportsOf]; [reflexivity|].
    rewrite (proj2 (lineInfo_unrecognized e ln He)), IH. reflexivity. }
  by rewrite Hn, Hx.
Qed.

(** X3 on a Ruby file: three lines, nothing extracted. *)
Lemma parseFile_unrecognized_extension_witness :
  imports (parseFile (fun _ => Scans exampleRubyLines false) "app.rb" ".rb").1 = []
  /\ exports (parseFile (fun _ => Scans exampleRubyLines false) "app.rb" ".rb").1 = 0
  /\ lines (parseFile (fun _ => Scans exampleRubyLines false) "app.rb" ".rb").1
     = exampleRubyLines
  /\ lineCount (parseFile (fun _ => Scans exampleRubyLines false) "app.rb" ".rb").1 = 3.
Proof.
  apply (parseFile_unrecognized_extension (fun _ => Scans exampleRubyLines false)
           "app.rb" ".rb" exampleRubyLines false); reflexivity.
Defined.

(** ** Which Go lines are imports *)

Lemma run_split (p : ascii -> bool) (l : list ascii) :
  exists w r,
    l = w ++ r
    /\ Forall (fun c => p c = true) w
    /\ match r with [] => True | c :: _ => p c = false end.
Proof.
  induction l as [|c l (w & r & -> & Hw & Hr)].
  - by exists [], [].
  - destruct (p c) eqn:Hc.
    + exists (c :: w), r. repeat split; [by constructor | done].
    + exists [], (c :: w ++ r). repeat split; [constructor | done].
Qed.

Lemma not_dquote_false (c : ascii) : not_dquote c = false -> c = dquote.
Proof.
  unfold not_dquote. intros H%negb_false_iff. by apply Ascii.eqb_eq.
Qed.

(** A match of the Go import pattern at the start of a text shows the
    shape of the text. *)
Lemma rx_reGoImport_inv (l : list ascii) (st : mstate) :
  rx reGoImport (MState 0 l []) Some = Some st ->
  exists w content rest_,
    l = w ++ dquote :: content ++ dquote :: rest_
    /\ Forall (fun c => is_space c = true) w
    /\ Forall (fun c => not_dquote c = true) content
    /\ content <> [].
Proof.
  destruct (run_split is_space l) as (w & r & -> & Hw & Hr).
  rewrite reGoImport_unfold, rx_Cat, rx_Bol_start, rx_Cat, rx_Star. cbn [rest].
  rewrite star_loop_class_run; try done.
  - destruct r as [|c r]; [by rewrite rx_Cat, rx_Class_nil|].
    rewrite rx_Cat, rx_Class_cons.
    destruct (Ascii.eqb_spec dquote c) as [<-|Hc]; [|discriminate].
    destruct (run_split not_dquote r) as (content & r2 & -> & Hcontent & Hr2).
    rewrite rx_Cat, rx_Group, rx_Cat.
    destruct content as [|d content].
    + cbn [app]. destruct r2 as [|x r2]; [by rewrite rx_Class_nil|].
      rewrite rx_Class_cons, Hr2. discriminate.
    + apply Forall_cons in Hcontent as [Hd Hcontent].
      cbn [app]. rewrite rx_Class_cons, Hd, rx_Star. cbn [rest].
      rewrite (star_loop_class_run not_dquote _ _ r2 content); try done.
      * unfold set_cap. cbn [pos rest caps].
        destruct r2 as [|x r2]; [by rewrite rx_Class_nil|].
        rewrite rx_Class_cons. apply not_dquote_false in Hr2 as ->.
        intros _. exists w, (d :: content), r2.
        repeat split; [done | by constructor | done].
      * rewrite length_app. lia.
      * intros j Hj. cbn [rest].
        destruct (drop_head_elem content j Hj) as (y & tl & -> & Hin).
        unfold set_cap. cbn [app pos rest caps]. rewrite rx_Class_cons.
        rewrite Forall_forall in Hcontent. by rewrite (not_dquote_neq y (Hcontent y Hin)).
  - rewrite length_app. lia.
  - intros j Hj.
    destruct (drop_head_elem w j Hj) as (y & tl & -> & Hin).
    cbn [app]. rewrite rx_Cat, rx_Class_cons.
    rewrite Forall_forall in Hw. by rewrite (space_not_dquote y (Hw y Hin)).
Qed.

(** The pattern is anchored: it matches nowhere but at the start. *)
Lemma find_from_reGoImport_later (s : list ascii) :
  forall p, find_from reGoImport (S p) s = None.
Proof.
  induction s as [|c s IH]; intros p; rewrite find_from_eq, reGoImport_unfold;
    rewrite rx_Cat; cbn [rx pos Nat.eqb]; [reflexivity|].
  rewrite <- reGoImport_unfold. apply IH.
Qed.

Lemma FindStringSubmatch_reGoImport_inv (ln : string) :
  FindStringSubmatch reGoImport ln <> [] ->
  exists w content rest_,
    ln = quotedLine w content rest_
    /\ Forall (fun c => is_space c = true) w
    /\ Forall (fun c => not_dquote c = true) content
    /\ content <> [].
Proof.
  unfold FindStringSubmatch. rewrite find_from_eq.
  destruct (rx reGoImport (MState 0 (bytes ln) []) Some) as [st|] eqn:Hrx.
  - intros _. destruct (rx_reGoImport_inv _ _ Hrx) as (w & content & r & Hl & H).
    exists w, content, r. split; [|exact H].
    unfold quotedLine. by rewrite <- Hl, str_bytes.
  - destruct (bytes ln) as [|c s]; [done|].
    by rewrite find_from_reGoImport_later.
Qed.

Lemma lineInfo_go_imports (ln : string) (r : importRef) :
  r ∈ imports (lineInfo ".go" ln)
  <-> exists w content rest_,
        ln = quotedLine w content rest_
        /\ Forall (fun c => is_space c = true) w
        /\ Forall (fun c => not_dquote c = true) content
        /\ content <> []
        /\ r = MkImportRef (str content) 1.
Proof.
  split.
  - intros Hin.
    destruct (decide (FindStringSubmatch reGoImport ln = [])) as [Hnil|Hne].
    + unfold lineInfo in Hin.
      rewrite (parseLine_go_no_import (MkFileInfo "" ".go" [] [] 0 0) 1 ln eq_refl Hnil) in Hin.
      by apply elem_of_nil in Hin.
    + destruct (FindStringSubmatch_reGoImport_inv ln Hne)
        as (w & content & r0 & -> & Hw & Hc & Hcne).
      exists w, content, r0. repeat split; try done.
      unfold lineInfo in Hin.
      rewrite (parseLine_go_import (MkFileInfo "" ".go" [] [] 0 0) 1 _ _ _ eq_refl
                 (FindStringSubmatch_reGoImport w content r0 Hw Hc Hcne)) in Hin.
      by apply list_elem_of_singleton in Hin.
  - intros (w & content & r0 & -> & Hw & Hc & Hcne & ->).
    unfold lineInfo.
    rewrite (parseLine_go_import (MkFileInfo "" ".go" [] [] 0 0) 1 _ _ _ eq_refl
               (FindStringSubmatch_reGoImport w content r0 Hw Hc Hcne)).
    by left.
Qed.

Lemma elem_of_importsFrom (e : string) (ls : list string) (r : importRef) :
  forall n,
    r ∈ importsFrom e n ls
    <-> exists (i : nat) ln r0,
          ls !! i = Some ln /\ r0 ∈ imports (lineInfo e ln)
          /\ r = setLine (n + Z.of_nat i + 1) r0.
Proof.
  induction ls as [|ln ls IH]; intros n; cbn [importsFrom].
  - split; [by intros H%elem_of_nil | by intros (i & x & r0 & H & _)].
  - rewrite elem_of_app, IH, (list_elem_of_In (map _ _) r), in_map_iff. split.
    + intros [(r0 & <- & Hin%list_elem_of_In) | (i & x & r0 & Hi & Hin & ->)].
      * exists 0%nat, ln, r0. repeat split; [done|]. f_equal. lia.
      * exists (S i), x, r0. repeat split; [done..|]. f_equal. lia.
    + intros ([|i] & x & r0 & Hi & Hin & ->).
      * injection Hi as <-. left. exists r0. split; [f_equal; lia|].
        by apply list_elem_of_In.
      * right. exists i, x, r0. repeat split; [done..|]. f_equal. lia.
Qed.

(** X4. In a Go file the imports are exactly the lines made of white space,
    a double quote, one or more characters other than a double quote, and a
    double quote, each recorded with the text between the quotes and its
    line number.  No other line is recorded: in particular an import
    written on one line after the keyword is not. *)
Theorem parseFile_go_imports_exactly (open : string -> fileContent)
    (filePath : string) (ls : list string) (scanErr : bool) (r : importRef) :
  open filePath = Scans ls scanErr ->
  (r ∈ imports (parseFile open filePath ".go").1
   <-> exists (i : nat) w content rest_,
         ls !! i = Some (quotedLine w content rest_)
         /\ Forall (fun c => is_space c = true) w
         /\ Forall (fun c => not_dquote c = true) content
         /\ content <> []
         /\ r = MkImportRef (str content) (Z.of_nat i + 1)).
Proof.
  intros Ho. rewrite (parseFile_parsed open filePath ".go" ls scanErr Ho).
  rewrite (proj1 (proj2 (proj2 (proj2 (proj2 (parsed_fields filePath ".go" ls)))))).
  rewrite elem_of_importsFrom. split.
  - intros (i & ln & r0 & Hi & Hin & ->).
    apply lineInfo_go_imports in Hin as (w & content & r1 & -> & Hw & Hc & Hne & ->).
    exists i, w, content, r1. repeat split; done.
  - intros (i & w & content & r1 & Hi & Hw & Hc & Hne & ->).
    exists i, (quotedLine w content r1), (MkImportRef (str content) 1).
    split; [done|]. split; [|reflexivity].
    apply lineInfo_go_imports. by exists w, content, r1.
Qed.

(** X4 on a file with a one-line import of [fmt] and a block importing
    [os]: only [os], on line 4, is recorded. *)
Lemma parseFile_go_imports_exactly_witness :
  imports (parseFile (fun _ => Scans exampleGoImports false) "main.go" ".go").1
    = [MkImportRef "os" 4]
  /\ MkImportRef "os" 4
     ∈ imports (parseFile (fun _ => Scans exampleGoImports false) "main.go" ".go").1.
Proof.
  split; [vm_compute; reflexivity|].
  apply (parseFile_go_imports_exactly (fun _ => Scans exampleGoImports false)
           "main.go" exampleGoImports false (MkImportRef "os" 4) eq_refl).
  exists 3%nat, (bytes "	"), (bytes "os"), [].
  split; [reflexivity|]. split; [repeat constructor|].
  split; [repeat constructor|]. split; [discriminate | reflexivity].
Defined.

(** ** The analyzers only append *)

Lemma circularLoop_appends (resp : ResponseBuilder) (fi : fileInfo)
    (relPath myPkg : string) (entries : list (string * list string))
    (imps : list importRef) :
  circularLoop resp fi relPath myPkg entries imps
  = resp ++ circularLoop [] fi relPath myPkg entries imps.
Proof.
  induction imps as [|imp rest_ IH]; cbn [circularLoop].
  - by rewrite app_nil_r.
  - destruct (mutualImport relPath myPkg imp entries); [|exact IH].
    by rewrite !circularFinding_eq.
Qed.

Lemma checkCircularDeps_appends (resp : ResponseBuilder) (fi : fileInfo)
    (g : gmap string (list string)) (root : string) :
  checkCircularDeps resp fi g root = resp ++ checkCircularDeps [] fi g root.
Proof. unfold checkCircularDeps. apply circularLoop_appends. Qed.

Lemma checkGodObject_appends (resp : ResponseBuilder) (fi : fileInfo) :
  checkGodObject resp fi = resp ++ checkGodObject [] fi.
Proof.
  unfold checkGodObject.
  destruct ((godFileThreshold <? lineCount fi) && (godExportThreshold <=? exports fi));
    [reflexivity | by rewrite app_nil_r].
Qed.

Lemma checkSecurityMixing_appends (resp : ResponseBuilder) (fi : fileInfo) :
  checkSecurityMixing resp fi = resp ++ checkSecurityMixing [] fi.
Proof.
  rewrite !checkSecurityMixing_eq.
  destruct ((existsb (cryptoSignal (ext fi)) (lines fi)
             || existsb (authSignal (ext fi)) (lines fi))
            && (existsb businessSignal (lines fi)
                || existsb dataAccessSignal (lines fi)
                || existsb routeSignal (lines fi)));
    [reflexivity | by rewrite app_nil_r].
Qed.

Lemma checkMissingAbstraction_appends (resp : ResponseBuilder) (fi : fileInfo) :
  checkMissingAbstraction resp fi = resp ++ checkMissingAbstraction [] fi.
Proof.
  unfold checkMissingAbstraction. destruct (isHandler (lines fi)); cbn [negb].
  - by rewrite !abstractionLoop_spec.
  - by rewrite app_nil_r.
Qed.

Lemma analyzeFile_appends (g : gmap string (list string)) (root : string)
    (resp : ResponseBuilder) (fi : fileInfo) :
  analyzeFile g root resp fi = resp ++ fileFindings g root fi.
Proof.
  unfold analyzeFile, fileFindings.
  rewrite checkMissingAbstraction_appends, checkSecurityMixing_appends,
    checkGodObject_appends, checkCircularDeps_appends.
  by rewrite <- !app_assoc.
Qed.

Lemma analyzeAll_appends (g : gmap string (list string)) (root : string)
    (fs : list fileInfo) :
  forall resp,
    analyzeAll g root fs resp = resp ++ concat (map (fileFindings g root) fs).
Proof.
  unfold analyzeAll. induction fs as [|fi fs IH]; intros resp; cbn [fold_left map concat].
  - by rewrite app_nil_r.
  - by rewrite IH, analyzeFile_appends, <- app_assoc.
Qed.

(** X5. The analyzers only append to the response: none reads or changes
    the findings already there, so the result of each on a response is
    that response followed by its result on an empty one.  The findings of
    a scan are therefore grouped by file, in the order the files were
    parsed, and within a file come in the order ARCH-001, ARCH-002,
    ARCH-003, ARCH-004. *)
Theorem analyzers_append_in_order (g : gmap string (list string)) (root : string)
    (resp : ResponseBuilder) (fi : fileInfo) (fs : list fileInfo) :
  checkCircularDeps resp fi g root = resp ++ checkCircularDeps [] fi g root
  /\ checkGodObject resp fi = resp ++ checkGodObject [] fi
  /\ checkSecurityMixing resp fi = resp ++ checkSecurityMixing [] fi
  /\ checkMissingAbstraction resp fi = resp ++ checkMissingAbstraction [] fi
  /\ analyzeAll g root fs resp
     = resp ++ concat (map (fun fi' =>
                              checkCircularDeps [] fi' g root ++ checkGodObject [] fi'
                              ++ checkSecurityMixing [] fi'
                              ++ checkMissingAbstraction [] fi')
                           fs).
Proof.
  split; [apply checkCircularDeps_appends|].
  split; [apply checkGodObject_appends|].
  split; [apply checkSecurityMixing_appends|].
  split; [apply checkMissingAbstraction_appends|].
  apply analyzeAll_appends.
Qed.

(** ** What the walk keeps, and what findings look like *)

Lemma parseFile_ok (open : string -> fileContent) (p e : string) (info : fileInfo) :
  parseFile open p e = (info, None) ->
  exists ls, open p = Scans ls false /\ info = parsed p e ls.
Proof.
  intros H. unfold parseFile in H.
  destruct (open p) as [|ls scanErr] eqn:Ho; [discriminate|].
  exists ls. unfold parsed, parseFile.
  destruct (scanLoop ls (MkFileInfo p e [] [] 0 0) 0) as [i n].
  destruct scanErr; [discriminate|]. split; [reflexivity|]. by injection H.
Qed.

Lemma walkFn_keeps_kept (ctx : nat -> ctxStatus) (open : string -> fileContent)
    (root : string) (st : scanState) (p : string) (d : option DirEntry)
    (e : option error) :
  Forall (keptFile open) (files st) ->
  Forall (keptFile open) (files (walkFn ctx open root st p d e).1).
Proof.
  intros Hst. unfold walkFn. destruct e as [e|]; [exact Hst|].
  destruct (ctxErr (ctx (ticks st))); [exact Hst|].
  destruct d as [d|]; [|exact Hst].
  destruct (IsDir d); [by destruct (skippedDirs (Name d))|].
  destruct (sourceExtensions (filepath.Ext p)) eqn:Hext; cbn [negb]; [|exact Hst].
  destruct (parseFile open p (filepath.Ext p)) as [info [err|]] eqn:Hparse;
    [exact Hst|].
  cbn [fst files]. apply Forall_app. split; [exact Hst|]. apply Forall_singleton.
  destruct (parseFile_ok open p _ info Hparse) as (ls & Ho & ->).
  destruct (parsed_fields p (filepath.Ext p) ls) as (Hp & He & Hl & _).
  unfold keptFile. by rewrite Hp, He, Hl.
Qed.

Lemma scanWalk_kept (ctx : nat -> ctxStatus) (lstat : string -> option node)
    (open : string -> fileContent) (root : string) :
  Forall (keptFile open) (files (scanWalk ctx lstat open root).1).
Proof.
  unfold scanWalk. apply WalkDir_keep; [|constructor].
  intros s p d e. apply walkFn_keeps_kept.
Qed.

(** X6. The walk keeps a file only if its path has one of the four source
    extensions and opening and scanning it succeeds to the end; what it
    keeps is the parse of all the lines delivered, under that extension.
    A file of another kind, a file that cannot be opened and a file whose
    scan ends in an error are never among the files analyzed. *)
Theorem scanWalk_keeps_readable_sources (ctx : nat -> ctxStatus)
    (lstat : string -> option node) (open : string -> fileContent) (root : string) :
  Forall (fun fi =>
            ext fi = filepath.Ext (path fi)
            /\ ext fi ∈ [".go"; ".py"; ".js"; ".ts"]
            /\ open (path fi) = Scans (lines fi) false
            /\ fi = (parseFile open (path fi) (filepath.Ext (path fi))).1)
         (files (scanWalk ctx lstat open root).1).
Proof.
  eapply Forall_impl; [apply scanWalk_kept|]. cbn beta.
  intros fi (Hsrc & Hext & Hopen & Hfi).
  split; [exact Hext|]. split.
  - unfold sourceExtensions in Hsrc.
    destruct (decide (ext fi = ".go")) as [->|_]; [set_solver|].
    destruct (decide (ext fi = ".py")) as [->|_]; [set_solver|].
    destruct (decide (ext fi = ".js")) as [->|_]; [set_solver|].
    destruct (decide (ext fi = ".ts")) as [->|_]; [set_solver | discriminate].
  - split; [exact Hopen|].
    rewrite (parseFile_parsed open (path fi) _ (lines fi) false Hopen).
    by rewrite <- Hext.
Qed.

Lemma firstLine_range (p : string -> bool) (ls : list string) :
  existsb p ls = true -> 1 <= firstLine p ls <= Z.of_nat (length ls).
Proof.
  intros H%present_existsb.
  destruct (firstLine_first p ls H) as (i & ln & -> & Hi & _).
  apply lookup_lt_Some in Hi. lia.
Qed.

Lemma extToLanguage_recognized (e : string) :
  sourceExtensions e = true ->
  extToLanguage e ∈ ["go"; "python"; "javascript"; "typescript"].
Proof.
  unfold sourceExtensions, extToLanguage. intros H.
  destruct (decide (e = ".go")) as [->|_]; [set_solver|].
  destruct (decide (e = ".py")) as [->|_]; [set_solver|].
  destruct (decide (e = ".js")) as [->|_]; [set_solver|].
  destruct (decide (e = ".ts")) as [->|_]; [set_solver | discriminate].
Qed.

Ltac in_list := repeat first [apply list_elem_of_here | apply list_elem_of_further].

(** The shape of every finding of a file whose line count is the number of
    its lines and whose imports are on lines of the file. *)
Lemma fileFindings_facts (g : gmap string (list string)) (root : string)
    (fi : fileInfo) (f : finding) :
  lineCount fi = Z.of_nat (length (lines fi)) ->
  Forall (fun r => 1 <= line r <= lineCount fi) (imports fi) ->
  f ∈ fileFindings g root fi ->
  filePath f = path fi
  /\ 1 <= startLine f /\ startLine f = endLine f /\ endLine f <= lineCount fi
  /\ metadata f !! "language" = Some (extToLanguage (ext fi))
  /\ (ruleID f, severity f, confidence f) ∈ ruleTable.
Proof.
  intros Hcount Himports. unfold fileFindings, ruleTable.
  rewrite !elem_of_app. intros [Hf|[Hf|[Hf|Hf]]].
  - unfold checkCircularDeps in Hf.
    destruct (circularLoop_spec [] fi (relPathOf root (path fi))
                (filepath.Base (filepath.Dir (relPathOf root (path fi)))) g (imports fi))
      as [[_ Heq]|(pre & imp & post & Hsplit & _ & _ & Heq)];
      rewrite Heq in Hf; [by apply elem_of_nil in Hf|].
    apply list_elem_of_singleton in Hf as ->.
    assert (1 <= line imp <= lineCount fi) as Hrange.
    { rewrite Forall_forall in Himports. apply Himports. rewrite Hsplit.
      apply elem_of_app. right. by left. }
    cbn [circularFindingOf filePath startLine endLine metadata ruleID severity confidence].
    rewrite lookup_insert_eq. repeat split; try lia. in_list.
  - destruct (decide (500 < lineCount fi /\ 10 <= exports fi)) as [[Hl He]|Hn].
    + rewrite (checkGodObject_fires [] fi Hl He) in Hf.
      apply list_elem_of_singleton in Hf as ->.
      cbn [godFinding filePath startLine endLine metadata ruleID severity confidence].
      rewrite lookup_insert_eq. repeat split; try lia. in_list.
    + rewrite (checkGodObject_silent [] fi Hn) in Hf. by apply elem_of_nil in Hf.
  - rewrite checkSecurityMixing_eq in Hf.
    destruct (existsb (cryptoSignal (ext fi)) (lines fi)) eqn:Hc;
      [|destruct (existsb (authSignal (ext fi)) (lines fi)) eqn:Ha;
        [|by apply elem_of_nil in Hf]];
      (destruct (existsb businessSignal (lines fi) || existsb dataAccessSignal (lines fi)
                 || existsb routeSignal (lines fi));
       cbn [orb andb] in Hf; [|by apply elem_of_nil in Hf]);
      apply list_elem_of_singleton in Hf as ->;
      unfold mixingFinding, mixingAnchor;
      cbn [filePath startLine endLine metadata ruleID severity confidence];
      rewrite Hc, lookup_insert_eq.
    + pose proof (firstLine_range _ _ Hc). repeat split; try lia. in_list.
    + pose proof (firstLine_range _ _ Ha). repeat split; try lia. in_list.
  - unfold checkMissingAbstraction in Hf.
    destruct (isHandler (lines fi)); cbn [negb] in Hf; [|by apply elem_of_nil in Hf].
    rewrite abstractionLoop_spec in Hf. cbn [app] in Hf.
    apply list_elem_of_In, in_map_iff in Hf as ([n ln] & <- & Hin).
    apply filter_In in Hin as [Hin%list_elem_of_In _].
    apply elem_of_zip_l, elem_of_seqZ in Hin.
    cbn [abstractionFindingAt filePath startLine endLine metadata ruleID severity
         confidence fst snd].
    rewrite lookup_insert_eq. repeat split; try lia. in_list.
Qed.

Lemma kept_counts (open : string -> fileContent) (fi : fileInfo) :
  keptFile open fi ->
  lineCount fi = Z.of_nat (length (lines fi))
  /\ Forall (fun r => 1 <= line r <= lineCount fi) (imports fi).
Proof.
  intros (_ & _ & _ & Hfi).
  destruct (parsed_fields (path fi) (ext fi) (lines fi)) as (_ & _ & _ & Hc & Hi & _).
  rewrite <- Hfi in Hc, Hi. split; [exact Hc|].
  rewrite Hi, Hc. destruct (importsFrom_sorted (ext fi) (lines fi) 0) as (_ & H & _).
  eapply Forall_impl; [exact H|]. cbn beta. intros r Hr. lia.
Qed.

(** Every finding of a scan is a finding of one of the files kept. *)
Lemma handleScan_findings (ctx : nat -> ctxStatus) (lstat : string -> option node)
    (open : string -> fileContent) (req : ToolRequest) (fs : list finding)
    (f : finding) :
  handleScan ctx lstat open req = inl fs -> f ∈ fs ->
  exists fi,
    fi ∈ files (scanWalk ctx lstat open (requestRoot req)).1
    /\ keptFile open fi
    /\ f ∈ fileFindings (importGraph (scanWalk ctx lstat open (requestRoot req)).1)
                        (requestRoot req) fi.
Proof.
  intros Hfs Hf. destruct (decide (requestRoot req = "")) as [He|Hne].
  - rewrite (handleScan_empty_root ctx lstat open req He) in Hfs.
    injection Hfs as <-. by apply elem_of_nil in Hf.
  - rewrite (handleScan_outcome ctx lstat open req Hne) in Hfs. cbv zeta in Hfs.
    assert (fs = analyzeAll
                   (importGraph (scanWalk ctx lstat open (requestRoot req)).1)
                   (requestRoot req)
                   (files (scanWalk ctx lstat open (requestRoot req)).1) []) as ->.
    { destruct ((scanWalk ctx lstat open (requestRoot req)).2) as [[]|]; congruence. }
    rewrite analyzeAll_appends in Hf. cbn [app] in Hf.
    apply list_elem_of_In, in_concat in Hf as (l & Hl & Hfl%list_elem_of_In).
    apply in_map_iff in Hl as (fi & <- & Hfi%list_elem_of_In).
    exists fi. split; [exact Hfi|]. split; [|exact Hfl].
    pose proof (scanWalk_kept ctx lstat open (requestRoot req)) as Hk.
    rewrite Forall_forall in Hk. by apply Hk.
Qed.

(** X7. Every finding of a scan points into a file the walk parsed: its
    line range is a single line, numbered from 1, and not beyond the last
    line of that file. *)
Theorem findings_point_at_lines (ctx : nat -> ctxStatus)
    (lstat : string -> option node) (open : string -> fileContent)
    (req : ToolRequest) (fs : list finding) :
  handleScan ctx lstat open req = inl fs ->
  Forall (fun f =>
            exists fi,
              fi ∈ files (scanWalk ctx lstat open (requestRoot req)).1
              /\ filePath f = path fi
              /\ 1 <= startLine f /\ startLine f = endLine f
              /\ endLine f <= Z.of_nat (length (lines fi)))
         fs.
Proof.
  intros Hfs. apply Forall_forall. intros f Hf.
  destruct (handleScan_findings ctx lstat open req fs f Hfs Hf) as (fi & Hfi & Hk & Hin).
  destruct (kept_counts open fi Hk) as [Hc Hi].
  destruct (fileFindings_facts _ _ fi f Hc Hi Hin) as (H1 & H2 & H3 & H4 & _).
  exists fi. rewrite <- Hc. done.
Qed.

(** X7 on the example workspace: three findings, on lines 2, 3 and 3. *)
Lemma findings_point_at_lines_witness :
  exists fs,
    handleScan alwaysLive exampleServiceLstat exampleServiceOpen
               (MkToolRequest ∅ "/srv") = inl fs
    /\ map startLine fs = [2; 3; 3]
    /\ Forall (fun f =>
                 exists fi,
                   fi ∈ files (scanWalk alwaysLive exampleServiceLstat
                                 exampleServiceOpen "/srv").1
                   /\ filePath f = path fi
                   /\ 1 <= startLine f /\ startLine f = endLine f
                   /\ endLine f <= Z.of_nat (length (lines fi)))
               fs.
Proof.
  destruct (handleScan alwaysLive exampleServiceLstat exampleServiceOpen
              (MkToolRequest ∅ "/srv")) as [fs|e] eqn:Hfs;
    [|vm_compute in Hfs; discriminate Hfs].
  exists fs. split; [reflexivity|]. split.
  - vm_compute in Hfs. injection Hfs as <-. vm_compute. reflexivity.
  - exact (findings_point_at_lines alwaysLive exampleServiceLstat exampleServiceOpen
             (MkToolRequest ∅ "/srv") fs Hfs).
Defined.

(** X8. Every finding of a scan has one of the four rule identifiers with
    the severity and confidence of that rule, and a [language] entry in its
    metadata that names the language of the file's extension: [go],
    [python], [javascript] or [typescript], never [unknown]. *)
Theorem findings_rule_and_language (ctx : nat -> ctxStatus)
    (lstat : string -> option node) (open : string -> fileContent)
    (req : ToolRequest) (fs : list finding) :
  handleScan ctx lstat open req = inl fs ->
  Forall (fun f =>
            (ruleID f, severity f, confidence f)
              ∈ [("ARCH-001", SeverityMedium, ConfidenceHigh);
                 ("ARCH-002", SeverityMedium, ConfidenceMedium);
                 ("ARCH-003", SeverityHigh, ConfidenceHigh);
                 ("ARCH-004", SeverityLow, ConfidenceMedium)]
            /\ metadata f !! "language" = Some (extToLanguage (filepath.Ext (filePath f)))
            /\ extToLanguage (filepath.Ext (filePath f))
                 ∈ ["go"; "python"; "javascript"; "typescript"])
         fs.
Proof.
  intros Hfs. apply Forall_forall. intros f Hf.
  destruct (handleScan_findings ctx lstat open req fs f Hfs Hf) as (fi & Hfi & Hk & Hin).
  destruct (kept_counts open fi Hk) as [Hc Hi].
  destruct (fileFindings_facts _ _ fi f Hc Hi Hin) as (H1 & _ & _ & _ & H5 & H6).
  destruct Hk as (Hsrc & Hext & _).
  rewrite H1, <- Hext. split; [exact H6|]. split; [exact H5|].
  by apply extToLanguage_recognized.
Qed.

(** X8 on the example workspace: two ARCH-004 findings in a Go file and
    one ARCH-003 finding in a Python file. *)
Lemma findings_rule_and_language_witness :
  exists fs,
    handleScan alwaysLive exampleServiceLstat exampleServiceOpen
               (MkToolRequest ∅ "/srv") = inl fs
    /\ map ruleID fs = ["ARCH-004"; "ARCH-004"; "ARCH-003"]
    /\ map (fun f => metadata f !! "language") fs
       = [Some "go"; Some "go"; Some "python"]
    /\ Forall (fun f =>
                 (ruleID f, severity f, confidence f)
                   ∈ [("ARCH-001", SeverityMedium, ConfidenceHigh);
                      ("ARCH-002", SeverityMedium, ConfidenceMedium);
                      ("ARCH-003", SeverityHigh, ConfidenceHigh);
                      ("ARCH-004", SeverityLow, ConfidenceMedium)]
                 /\ metadata f !! "language"
                    = Some (extToLanguage (filepath.Ext (filePath f)))
                 /\ extToLanguage (filepath.Ext (filePath f))
                      ∈ ["go"; "python"; "javascript"; "typescript"])
               fs.
Proof.
  destruct (handleScan alwaysLive exampleServiceLstat exampleServiceOpen
              (MkToolRequest ∅ "/srv")) as [fs|e] eqn:Hfs;
    [|vm_compute in Hfs; discriminate Hfs].
  exists fs. split; [reflexivity|]. split; [|split].
  - vm_compute in Hfs. injection Hfs as <-. vm_compute. reflexivity.
  - vm_compute in Hfs. injection Hfs as <-. vm_compute. reflexivity.
  - exact (findings_rule_and_language alwaysLive exampleServiceLstat
             exampleServiceOpen (MkToolRequest ∅ "/srv") fs Hfs).
Defined.

(** ** Failures below the run level *)

Section WalkCongruence.

Context {S : Type}.
Variables fn1 fn2 : S -> string -> option DirEntry -> option error -> S * option error.
Hypothesis fn_same : forall s p d e, fn1 s p d e = fn2 s p d e.

Lemma walkDir_walkEntries_same :
  (forall n p name s, walkDir fn1 p name n s = walkDir fn2 p name n s)
  /\ (forall es p s, walkEntries fn1 p es s = walkEntries fn2 p es s).
Proof.
  apply node_entries_mutind.
  - intros p name s. by rewrite !walkDir_file.
  - intros es IHes readErr p name s. rewrite !walkDir_dir, fn_same.
    destruct (fn2 s p (Some (MkDirEntry name true)) None) as [s1 [e1|]]; [done|].
    rewrite fn_same. destruct readErr; [|apply IHes].
    destruct (fn2 s1 p (Some (MkDirEntry name true)) (Some ErrReadDir)) as [s2 [e2|]];
      [done | apply IHes].
  - done.
  - intros name1 n1 IHn rest_ IHrest p s. rewrite !walkEntries_cons, IHn.
    destruct (walkDir fn2 (filepath.Join [p; name1]) name1 n1 s) as [s1 [e1|]];
      [done | apply IHrest].
Qed.

Lemma WalkDir_same (lstat : option node) (root : string) (s : S) :
  WalkDir fn1 lstat root s = WalkDir fn2 lstat root s.
Proof.
  unfold WalkDir. destruct lstat as [n|]; [|by rewrite fn_same].
  by rewrite (proj1 walkDir_walkEntries_same).
Qed.

End WalkCongruence.

Lemma parseFile_unreadable (open : string -> fileContent) (p e : string) :
  unreadable (open p) -> (parseFile open p e).2 <> None.
Proof.
  unfold parseFile, unreadable. destruct (open p) as [|ls scanErr]; [done|].
  intros ->. by destruct (scanLoop ls (MkFileInfo p e [] [] 0 0) 0).
Qed.

Lemma walkFn_sameReadable (ctx : nat -> ctxStatus) (open1 open2 : string -> fileContent)
    (root : string) (st : scanState) (p : string) (d : option DirEntry)
    (e : option error) :
  sameReadable open1 open2 ->
  walkFn ctx open1 root st p d e = walkFn ctx open2 root st p d e.
Proof.
  intros Hsame. unfold walkFn. destruct e as [e|]; [done|].
  destruct (ctxErr (ctx (ticks st))); [done|]. destruct d as [d|]; [|done].
  destruct (IsDir d); [done|].
  destruct (sourceExtensions (filepath.Ext p)); cbn [negb]; [|done].
  destruct (Hsame p) as [Heq | [H1 H2]].
  - unfold parseFile. by rewrite Heq.
  - pose proof (parseFile_unreadable open1 p (filepath.Ext p) H1) as N1.
    pose proof (parseFile_unreadable open2 p (filepath.Ext p) H2) as N2.
    destruct (parseFile open1 p (filepath.Ext p)) as [i1 [e1|]]; [|done].
    by destruct (parseFile open2 p (filepath.Ext p)) as [i2 [e2|]].
Qed.

(** X9. A file that cannot be read leaves no trace.  Whether its open
    fails or its scan breaks off, and however many lines were read before
    that, the scan returns what it returns without the file: the partial
    summary is dropped and no error is raised. *)
Theorem unreadable_files_leave_no_trace (ctx : nat -> ctxStatus)
    (lstat : string -> option node) (open1 open2 : string -> fileContent)
    (req : ToolRequest) :
  sameReadable open1 open2 ->
  handleScan ctx lstat open1 req = handleScan ctx lstat open2 req.
Proof.
  intros Hsame. unfold handleScan, scanWalk.
  destruct (String.eqb (requestRoot req) ""); [reflexivity|].
  rewrite (WalkDir_same (walkFn ctx open1 (requestRoot req))
             (walkFn ctx open2 (requestRoot req))); [reflexivity|].
  intros s p d e. by apply walkFn_sameReadable.
Qed.

(** X9 on the example workspace: with [api/users.go] breaking off after
    two lines or failing to open, the scan gives the one finding of
    [web/login.py] either way. *)
Lemma unreadable_files_leave_no_trace_witness :
  handleScan alwaysLive exampleServiceLstat exampleBrokenOpen (MkToolRequest ∅ "/srv")
  = handleScan alwaysLive exampleServiceLstat exampleFailingOpen (MkToolRequest ∅ "/srv")
  /\ handleScan alwaysLive exampleServiceLstat exampleFailingOpen (MkToolRequest ∅ "/srv")
     = inl [mixingFinding (MkFileInfo "/srv/web/login.py" ".py"
                             (lines exampleAuthRouteFile) [MkImportRef "flask" 1] 1 3)].
Proof.
  split; [|vm_compute; reflexivity].
  apply unreadable_files_leave_no_trace. intros p.
  unfold exampleBrokenOpen, exampleFailingOpen.
  destruct (String.eqb p "/srv/api/users.go"); [right | left]; done.
Defined.

(** ** The root and the context *)

(** X11. The skip-set applies to the root as well: when the directory to
    scan is itself named like a skipped directory, the walk is over after
    one callback and the scan is an empty success, whatever the directory
    holds; it fails only if the deadline has passed before that callback. *)
Theorem skipped_root_is_empty (ctx : nat -> ctxStatus) (lstat : string -> option node)
    (open : string -> fileContent) (req : ToolRequest) (es : entries)
    (readErr : bool) :
  requestRoot req <> "" ->
  lstat (requestRoot req) = Some (NDir es readErr) ->
  skippedDirs (filepath.Base (requestRoot req)) = true ->
  handleScan ctx lstat open req
  = if decide (ctx 0%nat = CtxDeadlineExceeded)
    then inr (WalkingWorkspace DeadlineExceeded)
    else inl [].
Proof.
  intros Hne Hl Hs. rewrite (handleScan_outcome ctx lstat open req Hne). cbv zeta.
  unfold scanWalk, WalkDir. rewrite Hl, (walkDir_prunes ctx open _ _ _ _ es readErr Hs).
  cbn [ticks fst snd files importGraph].
  destruct (ctx 0%nat); cbn [ctxErr]; reflexivity.
Qed.

(** X11 on the example workspace checked out as [/home/ci/vendor]: no
    finding, although the same tree under [/srv] gives three. *)
Lemma skipped_root_is_empty_witness :
  handleScan alwaysLive exampleVendoredLstat exampleServiceOpen
    (MkToolRequest ∅ "/home/ci/vendor") = inl []
  /\ exists f1 f2 f3,
       handleScan alwaysLive exampleServiceLstat exampleServiceOpen
         (MkToolRequest ∅ "/srv") = inl [f1; f2; f3].
Proof.
  split.
  - apply (skipped_root_is_empty alwaysLive exampleVendoredLstat exampleServiceOpen
             (MkToolRequest ∅ "/home/ci/vendor")
             (ECons "api" (NDir (ECons "users.go" NFile ENil) false)
                (ECons "vendor" (NDir (ECons "users.go" NFile ENil) false)
                   (ECons "web" (NDir (ECons "login.py" NFile ENil) false) ENil)))
             false).
    + vm_compute. discriminate.
    + reflexivity.
    + vm_compute. reflexivity.
  - vm_compute. eauto.
Defined.

Section Agree.

Variables c1 c2 : nat -> ctxStatus.
Variable open : string -> fileContent.
Variable root : string.

(** Each callback without an error consults the context once. *)
Lemma walkFn_ticks_first (c : nat -> ctxStatus) (st : scanState) (p : string)
    (d : option DirEntry) :
  ticks (walkFn c open root st p d None).1 = S (ticks st).
Proof.
  unfold walkFn. destruct (ctxErr (c (ticks st))); [reflexivity|].
  destruct d as [d|]; [|reflexivity].
  destruct (IsDir d); [by destruct (skippedDirs (Name d))|].
  destruct (sourceExtensions (filepath.Ext p)); cbn [negb]; [|reflexivity].
  by destruct (parseFile open p (filepath.Ext p)) as [info [e|]].
Qed.

Lemma walkDir_walkEntries_ticks (c : nat -> ctxStatus) :
  (forall n p name st,
      (ticks st < ticks (walkDir (walkFn c open root) p name n st).1)%nat)
  /\ (forall es p st,
        (ticks st <= ticks (walkEntries (walkFn c open root) p es st).1)%nat).
Proof.
  apply node_entries_mutind.
  - intros p name st. rewrite walkDir_file, walkFn_ticks_first. lia.
  - intros es IHes readErr p name st. rewrite walkDir_dir.
    pose proof (walkFn_ticks_first c st p (Some (MkDirEntry name true))) as Ht.
    destruct (walkFn c open root st p (Some (MkDirEntry name true)) None)
      as [s1 [e1|]]; cbn [fst] in *; [lia|].
    destruct readErr; [rewrite walkFn_reported|]; specialize (IHes p s1); lia.
  - intros p st. rewrite walkEntries_nil. cbn [fst]. lia.
  - intros name1 n1 IHn rest_ IHrest p st. rewrite walkEntries_cons.
    specialize (IHn (filepath.Join [p; name1]) name1 st).
    destruct (walkDir (walkFn c open root) (filepath.Join [p; name1]) name1 n1 st)
      as [s1 [e1|]]; cbn [fst] in *.
    + destruct (decide (e1 = SkipDir)); cbn [fst]; lia.
    + specialize (IHrest p s1). lia.
Qed.

Lemma walkFn_agree (st : scanState) (p : string) (d : option DirEntry)
    (e : option error) :
  (e = None -> c1 (ticks st) = c2 (ticks st)) ->
  walkFn c2 open root st p d e = walkFn c1 open root st p d e.
Proof.
  unfold walkFn. destruct e as [e|]; [done|]. intros H. by rewrite (H eq_refl).
Qed.

Lemma walkDir_walkEntries_agree :
  (forall n p name st,
      (forall k, (ticks st <= k < ticks (walkDir (walkFn c1 open root) p name n st).1)%nat ->
                 c1 k = c2 k) ->
      walkDir (walkFn c2 open root) p name n st
      = walkDir (walkFn c1 open root) p name n st)
  /\ (forall es p st,
        (forall k, (ticks st <= k < ticks (walkEntries (walkFn c1 open root) p es st).1)%nat ->
                   c1 k = c2 k) ->
        walkEntries (walkFn c2 open root) p es st
        = walkEntries (walkFn c1 open root) p es st).
Proof.
  apply node_entries_mutind.
  - intros p name st H. rewrite !walkDir_file in *. apply walkFn_agree.
    intros _. apply H. rewrite walkFn_ticks_first. lia.
  - intros es IHes readErr p name st H.
    pose proof (proj1 (walkDir_walkEntries_ticks c1) (NDir es readErr) p name st) as Hpos.
    assert (c1 (ticks st) = c2 (ticks st)) as Hk by (apply H; lia).
    clear Hpos. rewrite !walkDir_dir in *.
    rewrite (walkFn_agree st p (Some (MkDirEntry name true)) None (fun _ => Hk)).
    pose proof (walkFn_ticks_first c1 st p (Some (MkDirEntry name true))) as Ht.
    destruct (walkFn c1 open root st p (Some (MkDirEntry name true)) None)
      as [s1 [e1|]]; cbn [fst] in Ht; [done|].
    destruct readErr; [rewrite !walkFn_reported in *|];
      apply IHes; intros k Hk'; apply H; lia.
  - done.
  - intros name1 n1 IHn rest_ IHrest p st H. rewrite !walkEntries_cons in *.
    pose proof (proj1 (walkDir_walkEntries_ticks c1) n1 (filepath.Join [p; name1]) name1 st)
      as Hpos.
    rewrite IHn.
    + destruct (walkDir (walkFn c1 open root) (filepath.Join [p; name1]) name1 n1 st)
        as [s1 [e1|]]; cbn [fst] in *; [done|].
      apply IHrest. intros k Hk. apply H. lia.
    + intros k Hk. apply H. split; [lia|].
      destruct (walkDir (walkFn c1 open root) (filepath.Join [p; name1]) name1 n1 st)
        as [s1 [e1|]]; cbn [fst] in *.
      * destruct (decide (e1 = SkipDir)); cbn [fst]; lia.
      * pose proof (proj2 (walkDir_walkEntries_ticks c1) rest_ p s1). lia.
Qed.

Lemma scanWalk_agree (lstat : string -> option node) :
  (forall k, (k < ticks (scanWalk c1 lstat open root).1)%nat -> c1 k = c2 k) ->
  scanWalk c2 lstat open root = scanWalk c1 lstat open root.
Proof.
  unfold scanWalk, WalkDir. destruct (lstat root) as [n|]; [|by rewrite !walkFn_reported].
  intros H. rewrite (proj1 walkDir_walkEntries_agree); [reflexivity|].
  intros k Hk. apply H.
  destruct (walkDir (walkFn c1 open root) root (filepath.Base root) n (MkScan 0 [] ∅))
    as [s e]. cbn [fst] in *. lia.
Qed.

End Agree.

(** X12. The scan looks at the context once for every entry the walk
    visits and never again: [ticks] counts these consultations, and two
    contexts that agree on them give the same result.  A cancellation or a
    deadline that comes once the walk is over changes nothing; the
    analyzers run to the end. *)
Theorem context_consulted_only_during_walk (c1 c2 : nat -> ctxStatus)
    (lstat : string -> option node) (open : string -> fileContent)
    (req : ToolRequest) :
  (forall k, (k < ticks (scanWalk c1 lstat open (requestRoot req)).1)%nat ->
             c1 k = c2 k) ->
  handleScan c2 lstat open req = handleScan c1 lstat open req.
Proof.
  intros H. unfold handleScan.
  destruct (String.eqb (requestRoot req) ""); [reflexivity|].
  by rewrite (scanWalk_agree c1 c2 open (requestRoot req) lstat H).
Qed.

(** X12 on the example workspace, whose walk makes six callbacks: a
    deadline that passes after the sixth leaves the three findings, one
    that passes at the sixth fails the scan. *)
Lemma context_consulted_only_during_walk_witness :
  ticks (scanWalk alwaysLive exampleServiceLstat exampleServiceOpen "/srv").1 = 6%nat
  /\ handleScan (deadlineFrom 6) exampleServiceLstat exampleServiceOpen
       (MkToolRequest ∅ "/srv")
     = handleScan alwaysLive exampleServiceLstat exampleServiceOpen
         (MkToolRequest ∅ "/srv")
  /\ handleScan (deadlineFrom 5) exampleServiceLstat exampleServiceOpen
       (MkToolRequest ∅ "/srv")
     = inr (WalkingWorkspace DeadlineExceeded).
Proof.
  split; [vm_compute; reflexivity|]. split; [|vm_compute; reflexivity].
  apply (context_consulted_only_during_walk alwaysLive (deadlineFrom 6)).
  intros k Hk.
  assert (ticks (scanWalk alwaysLive exampleServiceLstat exampleServiceOpen
                   (requestRoot (MkToolRequest ∅ "/srv"))).1 = 6%nat) as Ht
    by (vm_compute; reflexivity).
  rewrite Ht in Hk. unfold deadlineFrom, alwaysLive.
  by rewrite (proj2 (Nat.ltb_lt k 6) Hk).
Defined.

(** ** Circular dependencies across the workspace *)

(** Where each finding of a file comes from. *)
Lemma fileFindings_cases (g : gmap string (list string)) (root : string)
    (fi : fileInfo) (f : finding) :
  f ∈ fileFindings g root fi ->
  (exists imp,
      imp ∈ imports fi
      /\ reciprocated g (relPathOf root (path fi))
           (filepath.Base (filepath.Dir (relPathOf root (path fi)))) imp
      /\ f = circularFindingOf fi (relPathOf root (path fi)) imp)
  \/ (500 < lineCount fi /\ 10 <= exports fi /\ f = godFinding fi)
  \/ ((present (cryptoSignal (ext fi)) (lines fi)
       \/ present (authSignal (ext fi)) (lines fi))
      /\ f = mixingFinding fi)
  \/ (Exists handlerLine (lines fi)
      /\ exists nl, nl ∈ numbered (lines fi) /\ dataAccessLine nl.2 = true
                    /\ f = abstractionFindingAt fi nl).
Proof.
  unfold fileFindings. rewrite !elem_of_app. intros [Hf|[Hf|[Hf|Hf]]].
  - left. unfold checkCircularDeps in Hf.
    destruct (circularLoop_spec [] fi (relPathOf root (path fi))
                (filepath.Base (filepath.Dir (relPathOf root (path fi)))) g (imports fi))
      as [[_ Heq]|(pre & imp & post & Hsplit & _ & Hrec & Heq)];
      rewrite Heq in Hf; [by apply elem_of_nil in Hf|].
    apply list_elem_of_singleton in Hf as ->. exists imp.
    split; [|done]. rewrite Hsplit. apply elem_of_app. right. by left.
  - right. left.
    destruct (decide (500 < lineCount fi /\ 10 <= exports fi)) as [[Hl He]|Hn].
    + rewrite (checkGodObject_fires [] fi Hl He) in Hf.
      by apply list_elem_of_singleton in Hf as ->.
    + rewrite (checkGodObject_silent [] fi Hn) in Hf. by apply elem_of_nil in Hf.
  - right. right. left. rewrite checkSecurityMixing_eq in Hf.
    rewrite !present_existsb.
    destruct (existsb (cryptoSignal (ext fi)) (lines fi)
              || existsb (authSignal (ext fi)) (lines fi)) eqn:Hs;
      cbn [andb] in Hf; [|by apply elem_of_nil in Hf].
    destruct (existsb businessSignal (lines fi) || existsb dataAccessSignal (lines fi)
              || existsb routeSignal (lines fi)); [|by apply elem_of_nil in Hf].
    apply list_elem_of_singleton in Hf as ->. split; [|reflexivity].
    by apply orb_true_iff in Hs.
  - right. right. right. unfold checkMissingAbstraction in Hf.
    destruct (isHandler (lines fi)) eqn:Hh; cbn [negb] in Hf;
      [|by apply elem_of_nil in Hf].
    split; [by apply isHandler_true|].
    rewrite abstractionLoop_spec in Hf. cbn [app] in Hf.
    apply list_elem_of_In, in_map_iff in Hf as (nl & <- & Hnl).
    apply filter_In in Hnl as [Hnl Hd]. exists nl.
    split; [by apply list_elem_of_In|]. done.
Qed.

Lemma checkCircularDeps_reports (g : gmap string (list string)) (root : string)
    (fi : fileInfo) (imp : importRef) :
  imp ∈ imports fi ->
  reciprocated g (relPathOf root (path fi))
    (filepath.Base (filepath.Dir (relPathOf root (path fi)))) imp ->
  exists f, f ∈ fileFindings g root fi /\ ruleID f = "ARCH-001"
            /\ filePath f = path fi.
Proof.
  intros Hin Hrec. unfold fileFindings, checkCircularDeps.
  destruct (circularLoop_spec [] fi (relPathOf root (path fi))
              (filepath.Base (filepath.Dir (relPathOf root (path fi)))) g (imports fi))
    as [[Hall _]|(pre & i & post & _ & _ & _ & Heq)].
  - rewrite Forall_forall in Hall. by destruct (Hall imp Hin).
  - rewrite Heq. exists (circularFindingOf fi (relPathOf root (path fi)) i).
    split; [|split; reflexivity].
    apply elem_of_app. left. cbn [app]. by left.
Qed.

Lemma elem_of_entryOf (root : string) (fs : list fileInfo) (key m : string) :
  m ∈ entryOf root fs key
  <-> exists fi imp, fi ∈ fs /\ relPathOf root (path fi) = key
                     /\ imp ∈ imports fi /\ module imp = m.
Proof.
  unfold entryOf. rewrite list_elem_of_In, in_concat. split.
  - intros (l & Hl & Hm). apply in_map_iff in Hl as (fi & <- & Hfi).
    destruct (decide (relPathOf root (path fi) = key)) as [Hk|Hk]; [|done].
    apply in_map_iff in Hm as (imp & Him & Hin).
    exists fi, imp. by rewrite !list_elem_of_In.
  - intros (fi & imp & Hfi & Hk & Hin & Hm).
    exists (map module (imports fi)). split.
    + apply in_map_iff. exists fi. rewrite decide_True by done.
      split; [reflexivity | by apply list_elem_of_In].
    + apply in_map_iff. exists imp. split; [done | by apply list_elem_of_In].
Qed.

Lemma graph_lookup_entryOf (root : string) (st : scanState) (key : string)
    (l : list string) :
  graphMatchesFiles root st ->
  importGraph st !! key = Some l <-> (l = entryOf root (files st) key /\ l <> []).
Proof.
  intros Hg. rewrite (Hg key).
  destruct (entryOf root (files st) key) as [|m ms]; split.
  - done.
  - by intros [-> ?].
  - by intros [= <-].
  - by intros [-> _].
Qed.

Lemma handleScan_has_findings (ctx : nat -> ctxStatus) (lstat : string -> option node)
    (open : string -> fileContent) (req : ToolRequest) (fs : list finding)
    (fi : fileInfo) (f : finding) :
  requestRoot req <> "" ->
  handleScan ctx lstat open req = inl fs ->
  fi ∈ files (scanWalk ctx lstat open (requestRoot req)).1 ->
  f ∈ fileFindings (importGraph (scanWalk ctx lstat open (requestRoot req)).1)
        (requestRoot req) fi ->
  f ∈ fs.
Proof.
  intros Hne Hfs Hfi Hf.
  rewrite (handleScan_outcome ctx lstat open req Hne) in Hfs. cbv zeta in Hfs.
  assert (fs = analyzeAll
                 (importGraph (scanWalk ctx lstat open (requestRoot req)).1)
                 (requestRoot req)
                 (files (scanWalk ctx lstat open (requestRoot req)).1) []) as ->.
  { destruct ((scanWalk ctx lstat open (requestRoot req)).2) as [[]|]; congruence. }
  rewrite analyzeAll_appends. cbn [app]. apply list_elem_of_In, in_concat.
  eexists. split; [|apply list_elem_of_In; exact Hf].
  apply in_map_iff. exists fi. split; [reflexivity | by apply list_elem_of_In].
Qed.

(** X13. Circular-dependency findings never come alone.  The graph a scan
    analyzes is the one its walk built, so an import that is reciprocated
    by another file is an import that file sees reciprocated in turn: a
    scan that reports ARCH-001 in one file reports it in some other file
    as well. *)
Theorem circular_findings_come_in_pairs (ctx : nat -> ctxStatus)
    (lstat : string -> option node) (open : string -> fileContent)
    (req : ToolRequest) (fs : list finding) :
  handleScan ctx lstat open req = inl fs ->
  forall f, f ∈ fs -> ruleID f = "ARCH-001" ->
    exists f', f' ∈ fs /\ ruleID f' = "ARCH-001" /\ filePath f' <> filePath f.
Proof.
  intros Hfs f Hf Hrule.
  assert (requestRoot req <> "") as Hne.
  { intros He. rewrite (handleScan_empty_root ctx lstat open req He) in Hfs.
    injection Hfs as <-. by apply elem_of_nil in Hf. }
  destruct (handleScan_findings ctx lstat open req fs f Hfs Hf) as (fi & Hfi & _ & Hff).
  pose proof (scanWalk_graph ctx lstat open (requestRoot req)) as Hg.
  set (root := requestRoot req) in *.
  set (st := (scanWalk ctx lstat open root).1) in *.
  destruct (fileFindings_cases _ _ _ _ Hff)
    as [(imp & Himp & Hrec & ->)|[(_ & _ & ->)|[(_ & ->)|(_ & nl & _ & _ & ->)]]];
    try discriminate Hrule.
  destruct Hrec as (otherFile & otherImports & otherImp & Hlook & Hother & Hn1 & Hin & Hn2).
  apply (graph_lookup_entryOf root st _ _ Hg) in Hlook as [-> _].
  apply elem_of_entryOf in Hin as (fi' & imp' & Hfi' & Hkey & Himp' & Hmod).
  destruct (checkCircularDeps_reports (importGraph st) root fi' imp' Himp')
    as (f' & Hf' & Hrule' & Hpath').
  - rewrite Hkey.
    exists (relPathOf root (path fi)), (entryOf root (files st) (relPathOf root (path fi))),
      (module imp).
    assert (module imp ∈ entryOf root (files st) (relPathOf root (path fi))) as Hm.
    { apply elem_of_entryOf. by exists fi, imp. }
    split.
    { apply (graph_lookup_entryOf root st _ _ Hg). split; [reflexivity|].
      intros He. rewrite He in Hm. by apply elem_of_nil in Hm. }
    split; [congruence|]. split; [by rewrite Hmod|]. split; [exact Hm | exact Hn1].
  - exists f'. split; [by apply (handleScan_has_findings ctx lstat open req fs fi')|].
    split; [exact Hrule'|]. rewrite Hpath'.
    cbn [circularFindingOf filePath]. intros Hp. apply Hother.
    by rewrite <- Hkey, Hp.
Qed.

(** X13 on two Go packages that import each other: one finding in each
    file. *)
Lemma circular_findings_come_in_pairs_witness :
  exists fs,
    handleScan alwaysLive exampleCycleLstat exampleCycleOpen (MkToolRequest ∅ "/w")
    = inl fs
    /\ map (fun f => (ruleID f, filePath f, startLine f)) fs
       = [("ARCH-001", "/w/a/x.go", 3); ("ARCH-001", "/w/b/y.go", 3)]
    /\ forall f, f ∈ fs -> ruleID f = "ARCH-001" ->
         exists f', f' ∈ fs /\ ruleID f' = "ARCH-001" /\ filePath f' <> filePath f.
Proof.
  destruct (handleScan alwaysLive exampleCycleLstat exampleCycleOpen
              (MkToolRequest ∅ "/w")) as [fs|e] eqn:Hfs;
    [|vm_compute in Hfs; discriminate Hfs].
  exists fs. split; [reflexivity|]. split.
  - vm_compute in Hfs. injection Hfs as <-. vm_compute. reflexivity.
  - exact (circular_findings_come_in_pairs alwaysLive exampleCycleLstat exampleCycleOpen
             (MkToolRequest ∅ "/w") fs Hfs).
Defined.

Lemma circularLoopIn_same (resp : ResponseBuilder) (fi : fileInfo)
    (relPath myPkg : string) (entries : list (string * list string))
    (orders : list (importRef * list (string * list string))) :
  Forall (fun o => o.2 ≡ₚ entries) orders ->
  circularLoopIn resp fi relPath myPkg orders
  = circularLoop resp fi relPath myPkg entries (map fst orders).
Proof.
  induction 1 as [|[imp es] rest_ Hp _ IH]; [reflexivity|].
  cbn [circularLoopIn circularLoop map fst]. cbn [snd] in Hp.
  by rewrite (mutualImport_order _ _ _ _ _ Hp), IH.
Qed.

(** X14. Go ranges over a map in an order that changes from one loop to
    the next.  Whatever order the import graph is ranged over for each
    import of the file, the circular-dependency analyzer gives the same
    result: the same finding at the same import, or none. *)
Theorem checkCircularDeps_any_map_order (resp : ResponseBuilder) (fi : fileInfo)
    (g : gmap string (list string)) (workspaceRoot : string)
    (orders : list (importRef * list (string * list string))) :
  map fst orders = imports fi ->
  Forall (fun o => o.2 ≡ₚ map_to_list g) orders ->
  let relPath := relPathOf workspaceRoot (path fi) in
  circularLoopIn resp fi relPath (filepath.Base (filepath.Dir relPath)) orders
  = checkCircularDeps resp fi g workspaceRoot.
Proof.
  intros Himps Hperm relPath. unfold checkCircularDeps. fold relPath.
  by rewrite (circularLoopIn_same _ _ _ _ _ _ Hperm), Himps.
Qed.

(** X14 on the example graph, ranged over backwards for the first and the
    last import. *)
Lemma checkCircularDeps_any_map_order_witness :
  circularLoopIn [] exampleCircularFile "a/x.go" "a"
    [(MkImportRef "fmt" 4, reverse (map_to_list exampleGraph));
     (MkImportRef "proj/b" 5, map_to_list exampleGraph);
     (MkImportRef "proj/c" 6, reverse (map_to_list exampleGraph))]
  = checkCircularDeps [] exampleCircularFile exampleGraph "/ws".
Proof.
  apply (checkCircularDeps_any_map_order [] exampleCircularFile exampleGraph "/ws"
           [(MkImportRef "fmt" 4, reverse (map_to_list exampleGraph));
            (MkImportRef "proj/b" 5, map_to_list exampleGraph);
            (MkImportRef "proj/c" 6, reverse (map_to_list exampleGraph))]).
  - reflexivity.
  - apply Forall_cons. split; [apply reverse_Permutation|].
    apply Forall_cons. split; [reflexivity|].
    apply Forall_cons. split; [apply reverse_Permutation | apply Forall_nil_2].
Defined.

Lemma circularLoop_same_answers (resp : ResponseBuilder) (fi : fileInfo)
    (relPath myPkg : string) (entries entries' : list (string * list string))
    (imps : list importRef) :
  (forall imp, mutualImport relPath myPkg imp entries
               = mutualImport relPath myPkg imp entries') ->
  circularLoop resp fi relPath myPkg entries imps
  = circularLoop resp fi relPath myPkg entries' imps.
Proof.
  intros H. induction imps as [|imp rest_ IH]; [reflexivity|].
  cbn [circularLoop]. by rewrite H, IH.
Qed.

(** X15. A file is never its own partner, nor are the files that share
    its key in the graph: with the entry of the file removed from the
    import graph the circular-dependency analyzer gives the same result.
    What the file imports decides where a finding sits, never whether its
    own imports point back. *)
Theorem checkCircularDeps_ignores_own_entry (resp : ResponseBuilder) (fi : fileInfo)
    (g : gmap string (list string)) (workspaceRoot : string) :
  checkCircularDeps resp fi (delete (relPathOf workspaceRoot (path fi)) g) workspaceRoot
  = checkCircularDeps resp fi g workspaceRoot.
Proof.
  unfold checkCircularDeps. apply circularLoop_same_answers. intros imp.
  apply eq_true_iff_eq. rewrite !mutualImport_true.
  split; intros (a & b & c & Hin & Hne & Hrest); exists a, b, c;
    (split; [|done]); apply elem_of_map_to_list; apply elem_of_map_to_list in Hin.
  - by apply lookup_delete_Some in Hin as [_ Hin].
  - apply lookup_delete_Some. split; [congruence | done].
Qed.

(** ** What a finding rests on *)

Lemma elem_of_numbered (ls : list string) (nl : Z * string) :
  nl ∈ numbered ls -> 1 <= nl.1 /\ ls !! Z.to_nat (nl.1 - 1) = Some nl.2.
Proof.
  unfold numbered. intros (k & Hk)%list_elem_of_lookup.
  apply lookup_zip_with_Some in Hk as (n & ln & -> & Hn & Hln).
  apply lookup_seqZ in Hn as [-> _]. cbn [fst snd].
  split; [lia|]. by replace (Z.to_nat (1 + Z.of_nat k - 1)) with k by lia.
Qed.

Lemma fileFindings_evidence (open : string -> fileContent)
    (g : gmap string (list string)) (root : string) (fi : fileInfo) (f : finding) :
  keptFile open fi -> f ∈ fileFindings g root fi -> evidence fi f.
Proof.
  intros Hk Hf. destruct (kept_counts open fi Hk) as [Hcount _].
  destruct Hk as (_ & _ & _ & Hfi).
  destruct (parsed_fields (path fi) (ext fi) (lines fi)) as (_ & _ & _ & _ & Hi & _).
  rewrite <- Hfi in Hi. unfold evidence.
  destruct (fileFindings_cases _ _ _ _ Hf)
    as [(imp & Himp & _ & ->)|[(Hl & _ & ->)|[(Hs & ->)|(Hh & nl & Hnl & Hd & ->)]]].
  - rewrite Hi in Himp.
    apply elem_of_importsFrom in Himp as (i & ln & r0 & Hln & Hr0 & ->).
    exists ln. cbn [circularFindingOf startLine ruleID metadata setLine line module].
    split; [lia|]. split.
    { by replace (Z.to_nat (0 + Z.of_nat i + 1 - 1)) with i by lia. }
    left. split; [reflexivity|]. exists r0. split; [exact Hr0|].
    rewrite lookup_insert_ne by done. by rewrite lookup_insert_eq.
  - destruct (lookup_lt_is_Some_2 (lines fi) 0) as [ln Hln]; [lia|].
    exists ln. cbn [godFinding startLine ruleID]. split; [lia|].
    split; [exact Hln|]. right. left. split; [reflexivity|]. split; [reflexivity | lia].
  - cbn [mixingFinding startLine ruleID]. unfold mixingAnchor.
    destruct (existsb (cryptoSignal (ext fi)) (lines fi)) eqn:Hc.
    + apply present_existsb in Hc.
      destruct (firstLine_first _ _ Hc) as (i & ln & -> & Hln & Hp & _).
      exists ln. split; [lia|]. split.
      { by replace (Z.to_nat (Z.of_nat i + 1 - 1)) with i by lia. }
      right. right. left. split; [reflexivity | by left].
    + destruct Hs as [Hs|Hs]; [apply present_existsb in Hs; congruence|].
      destruct (firstLine_first _ _ Hs) as (i & ln & -> & Hln & Hp & _).
      exists ln. split; [lia|]. split.
      { by replace (Z.to_nat (Z.of_nat i + 1 - 1)) with i by lia. }
      right. right. left. split; [reflexivity | by right].
  - destruct (elem_of_numbered _ _ Hnl) as [Hpos Hln].
    exists nl.2. cbn [abstractionFindingAt startLine ruleID message].
    split; [exact Hpos|]. split; [exact Hln|]. right. right. right. done.
Qed.

(** X16. Every finding of a scan rests on a line of a file the walk
    parsed: the line it points at exists and is a line on which the pattern
    of its rule matched (an import line for ARCH-001, a cryptography or
    authentication line for ARCH-003, a data-access line in a file with a
    handler signature for ARCH-004), ARCH-002 alone pointing at line 1 of
    a file of more than 500 lines. *)
Theorem findings_carry_evidence (ctx : nat -> ctxStatus)
    (lstat : string -> option node) (open : string -> fileContent)
    (req : ToolRequest) (fs : list finding) :
  handleScan ctx lstat open req = inl fs ->
  Forall (fun f =>
            exists fi,
              fi ∈ files (scanWalk ctx lstat open (requestRoot req)).1
              /\ filePath f = path fi /\ evidence fi f)
         fs.
Proof.
  intros Hfs. apply Forall_forall. intros f Hf.
  destruct (handleScan_findings ctx lstat open req fs f Hfs Hf) as (fi & Hfi & Hk & Hff).
  exists fi. split; [exact Hfi|]. split.
  - destruct (kept_counts open fi Hk) as [Hc Hi].
    by destruct (fileFindings_facts _ _ _ _ Hc Hi Hff) as [Hp _].
  - exact (fileFindings_evidence open _ (requestRoot req) fi f Hk Hff).
Qed.

(** X16 on the two packages that import each other: both findings sit on
    the import line. *)
Lemma findings_carry_evidence_witness :
  exists fs,
    handleScan alwaysLive exampleCycleLstat exampleCycleOpen (MkToolRequest ∅ "/w")
    = inl fs
    /\ map (fun f => metadata f !! "imported_module") fs
       = [Some "proj/b"; Some "proj/a"]
    /\ Forall (fun f =>
                 exists fi,
                   fi ∈ files (scanWalk alwaysLive exampleCycleLstat
                                 exampleCycleOpen "/w").1
                   /\ filePath f = path fi /\ evidence fi f)
              fs.
Proof.
  destruct (handleScan alwaysLive exampleCycleLstat exampleCycleOpen
              (MkToolRequest ∅ "/w")) as [fs|e] eqn:Hfs;
    [|vm_compute in Hfs; discriminate Hfs].
  exists fs. split; [reflexivity|]. split.
  - vm_compute in Hfs. injection Hfs as <-. vm_compute. reflexivity.
  - exact (findings_carry_evidence alwaysLive exampleCycleLstat exampleCycleOpen
             (MkToolRequest ∅ "/w") fs Hfs).
Defined.

(** ** What the parser records, what the walk reaches *)

Lemma str_nonempty (l : list ascii) : l <> [] -> str l <> "".
Proof.
  intros Hl He. apply Hl. rewrite <- (bytes_str l), He. reflexivity.
Qed.

Lemma lineInfo_modules (e ln : string) :
  Forall (fun r => module r <> "") (imports (lineInfo e ln)).
Proof.
  destruct (String.eqb_spec e ".go") as [->|Hgo].
  - apply Forall_forall. intros r Hr.
    apply lineInfo_go_imports in Hr as (w & content & r1 & _ & _ & _ & Hne & ->).
    cbn [module]. by apply str_nonempty.
  - unfold lineInfo, parseLine. cbn [ext imports lines path exports lineCount].
    rewrite (proj2 (String.eqb_neq e ".go") Hgo).
    repeat match goal with
           | |- context [if ?c then _ else _] => destruct c eqn:?
           end;
      cbn [imports app]; repeat constructor; cbn [module];
      apply String.eqb_neq;
      match goal with
      | H : negb _ = true |- _ => apply negb_true_iff in H
      | H : _ && negb _ = true |- _ =>
          apply andb_true_iff in H as [_ H]; apply negb_true_iff in H
      end; congruence.
Qed.

(** X17. The parser never records an import without a name: in every
    language, whatever the file holds and however its scan ends, each
    import of the summary has a non-empty module. *)
Theorem parseFile_modules_nonempty (open : string -> fileContent)
    (filePath e : string) :
  Forall (fun r => module r <> "") (imports (parseFile open filePath e).1).
Proof.
  destruct (open filePath) as [|ls scanErr] eqn:Ho.
  - unfold parseFile. rewrite Ho. constructor.
  - rewrite (parseFile_parsed open filePath e ls scanErr Ho).
    rewrite (proj1 (proj2 (proj2 (proj2 (proj2 (parsed_fields filePath e ls)))))).
    apply Forall_forall. intros r (i & ln & r0 & _ & Hr0 & ->)%elem_of_importsFrom.
    pose proof (lineInfo_modules e ln) as H. rewrite Forall_forall in H.
    exact (H r0 Hr0).
Qed.

Lemma parseFile_reads (open : string -> fileContent) (p e : string)
    (ls : list string) :
  open p = Scans ls false -> parseFile open p e = (parsed p e ls, None).
Proof.
  intros Ho. unfold parsed, parseFile. rewrite Ho.
  by destruct (scanLoop ls (MkFileInfo p e [] [] 0 0) 0).
Qed.

Section Complete.

Variable open : string -> fileContent.
Variable root : string.

Lemma walkDir_live_no_error (n : node) (p name : string) (st : scanState) :
  (walkDir (walkFn alwaysLive open root) p name n st).2 = None.
Proof.
  apply live_no_error, (proj1 (walkDir_walkEntries_error alwaysLive open root)).
Qed.

(** Under a live context the loop over the entries of a directory walks
    each of them. *)
Lemma walkEntries_reaches (es : entries) :
  forall (p : string) (st : scanState) (name1 : string) (n1 : node),
    inEntries name1 n1 es ->
    exists st',
      files (walkDir (walkFn alwaysLive open root) (filepath.Join [p; name1]) name1 n1 st').1
        `prefix_of` files (walkEntries (walkFn alwaysLive open root) p es st).1.
Proof.
  induction es as [|name n rest_ IH]; intros p st name1 n1; cbn [inEntries]; [done|].
  rewrite walkEntries_cons.
  pose proof (walkDir_live_no_error n (filepath.Join [p; name]) name st) as Hlive.
  destruct (walkDir (walkFn alwaysLive open root) (filepath.Join [p; name]) name n st)
    as [s o] eqn:Hw.
  cbn [snd] in Hlive. subst o. intros [[-> ->]|Hin].
  - exists st. rewrite Hw. cbn [fst]. apply walkEntries_grows.
  - by apply IH.
Qed.

Lemma visited_reached (rootNode : node) (p name : string) (n : node) :
  visited root rootNode p name n ->
  exists st,
    files (walkDir (walkFn alwaysLive open root) p name n st).1
      `prefix_of` files (walkDir (walkFn alwaysLive open root) root
                           (filepath.Base root) rootNode (MkScan 0 [] ∅)).1.
Proof.
  induction 1 as [|p name es readErr name1 n1 _ [st Hst] Hskip Hin].
  - by exists (MkScan 0 [] ∅).
  - rewrite walkDir_dir, walkFn_on_dir in Hst.
    cbn [alwaysLive ctxErr] in Hst. rewrite Hskip in Hst.
    destruct readErr; [rewrite walkFn_reported in Hst|];
      destruct (walkEntries_reaches es p
                  (MkScan (S (ticks st)) (files st) (importGraph st)) name1 n1 Hin)
        as [st' Hst'];
      exists st'; by etrans.
Qed.

End Complete.

(** X18. An uninterrupted walk misses no file.  A regular file the walk
    reaches (no directory above it is in the skip-set) whose name has one
    of the four extensions and which reads without error is parsed, and
    the scan returns every finding the analyzers have for it. *)
Theorem walk_misses_no_file (lstat : string -> option node)
    (open : string -> fileContent) (req : ToolRequest) (rootNode : node)
    (p name : string) (ls : list string) :
  let root := requestRoot req in
  let st := (scanWalk alwaysLive lstat open root).1 in
  root <> "" ->
  lstat root = Some rootNode ->
  visited root rootNode p name NFile ->
  sourceExtensions (filepath.Ext p) = true ->
  open p = Scans ls false ->
  parsed p (filepath.Ext p) ls ∈ files st
  /\ exists fs,
       handleScan alwaysLive lstat open req = inl fs
       /\ forall f,
            f ∈ fileFindings (importGraph st) root (parsed p (filepath.Ext p) ls) ->
            f ∈ fs.
Proof.
  intros root st Hne Hl Hv Hext Ho.
  assert (parsed p (filepath.Ext p) ls ∈ files st) as Hin.
  { destruct (visited_reached open root rootNode p name NFile Hv) as [st0 Hpre].
    subst st. unfold scanWalk, WalkDir. rewrite Hl.
    destruct (walkDir (walkFn alwaysLive open root) root (filepath.Base root) rootNode
                (MkScan 0 [] ∅)) as [s o].
    cbn [fst] in *. destruct Hpre as [k ->].
    rewrite walkDir_file. unfold walkFn. cbn [alwaysLive ctxErr IsDir].
    rewrite Hext. cbn [negb].
    rewrite (parseFile_reads open p (filepath.Ext p) ls Ho). cbn [fst files].
    rewrite !elem_of_app. left. right. by left. }
  split; [exact Hin|].
  destruct (handleScan alwaysLive lstat open req) as [fs|e] eqn:Hfs.
  - exists fs. split; [reflexivity|]. intros f Hf.
    exact (handleScan_has_findings alwaysLive lstat open req fs _ f Hne Hfs Hin Hf).
  - exfalso. rewrite (handleScan_outcome alwaysLive lstat open req Hne) in Hfs.
    cbv zeta in Hfs.
    pose proof (WalkDir_error alwaysLive open (requestRoot req)
                  (lstat (requestRoot req)) (MkScan 0 [] ∅)) as He.
    apply live_no_error in He. unfold scanWalk in Hfs. rewrite He in Hfs.
    discriminate Hfs.
Qed.

(** X18 on the example workspace: [web/login.py] is reached, parsed, and
    its finding returned. *)
Lemma walk_misses_no_file_witness :
  parsed "/srv/web/login.py" ".py" (lines exampleAuthRouteFile)
    ∈ files (scanWalk alwaysLive exampleServiceLstat exampleServiceOpen "/srv").1
  /\ exists fs,
       handleScan alwaysLive exampleServiceLstat exampleServiceOpen
         (MkToolRequest ∅ "/srv") = inl fs
       /\ forall f,
            f ∈ fileFindings
                  (importGraph (scanWalk alwaysLive exampleServiceLstat
                                  exampleServiceOpen "/srv").1)
                  "/srv" (parsed "/srv/web/login.py" ".py" (lines exampleAuthRouteFile)) ->
            f ∈ fs.
Proof.
  refine (walk_misses_no_file exampleServiceLstat exampleServiceOpen
            (MkToolRequest ∅ "/srv") exampleServiceTree
            "/srv/web/login.py" "login.py" (lines exampleAuthRouteFile) _ _ _ _ _).
  - vm_compute. discriminate.
  - reflexivity.
  - apply (visited_child "/srv" exampleServiceTree "/srv/web" "web"
             (ECons "login.py" NFile ENil) false "login.py" NFile).
    + apply (visited_child "/srv" exampleServiceTree "/srv" "srv"
               (ECons "api" (NDir (ECons "users.go" NFile ENil) false)
                  (ECons "vendor" (NDir (ECons "users.go" NFile ENil) false)
                     (ECons "web" (NDir (ECons "login.py" NFile ENil) false) ENil)))
               false "web" (NDir (ECons "login.py" NFile ENil) false)).
      * apply (visited_root "/srv" exampleServiceTree).
      * vm_compute. reflexivity.
      * right. right. left. split; reflexivity.
    + vm_compute. reflexivity.
    + left. split; reflexivity.
  - vm_compute. reflexivity.
  - reflexivity.
Defined.

Section TreeOrder.

Variable open : string -> fileContent.
Variable root : string.

Lemma sourcesIn_file (p name : string) :
  sourcesIn open p name NFile
  = if sourceExtensions (filepath.Ext p) then
      match open p with
      | Scans ls false => [parsed p (filepath.Ext p) ls]
      | _ => []
      end
    else [].
Proof. reflexivity. Qed.

Lemma sourcesIn_dir (p name : string) (es : entries) (readErr : bool) :
  sourcesIn open p name (NDir es readErr)
  = if skippedDirs name then [] else sourcesInEntries open p es.
Proof. reflexivity. Qed.

Lemma sourcesInEntries_cons (p name1 : string) (n1 : node) (rest_ : entries) :
  sourcesInEntries open p (ECons name1 n1 rest_)
  = sourcesIn open (filepath.Join [p; name1]) name1 n1 ++ sourcesInEntries open p rest_.
Proof. reflexivity. Qed.

Lemma walkDir_walkEntries_sources :
  (forall n p name st,
      files (walkDir (walkFn alwaysLive open root) p name n st).1
      = files st ++ sourcesIn open p name n)
  /\ (forall es p st,
        files (walkEntries (walkFn alwaysLive open root) p es st).1
        = files st ++ sourcesInEntries open p es).
Proof.
  apply node_entries_mutind.
  - intros p name st. rewrite walkDir_file, sourcesIn_file.
    unfold walkFn. cbn [alwaysLive ctxErr IsDir].
    destruct (sourceExtensions (filepath.Ext p)); cbn [negb fst files];
      [|by rewrite app_nil_r].
    destruct (open p) as [|ls [|]] eqn:Ho.
    + unfold parseFile. rewrite Ho. cbn [fst files]. by rewrite app_nil_r.
    + unfold parseFile. rewrite Ho.
      destruct (scanLoop ls (MkFileInfo p (filepath.Ext p) [] [] 0 0) 0).
      cbn [fst files]. by rewrite app_nil_r.
    + by rewrite (parseFile_reads open p (filepath.Ext p) ls Ho).
  - intros es IHes readErr p name st.
    rewrite walkDir_dir, walkFn_on_dir, sourcesIn_dir. cbn [alwaysLive ctxErr].
    destruct (skippedDirs name).
    + rewrite decide_True by done. cbn [fst files]. by rewrite app_nil_r.
    + destruct readErr; [rewrite walkFn_reported|]; by rewrite IHes.
  - intros p st. rewrite walkEntries_nil. cbn [fst sourcesInEntries].
    by rewrite app_nil_r.
  - intros name1 n1 IHn rest_ IHrest p st.
    rewrite walkEntries_cons, sourcesInEntries_cons.
    pose proof (walkDir_live_no_error open root n1 (filepath.Join [p; name1]) name1 st)
      as Hlive.
    specialize (IHn (filepath.Join [p; name1]) name1 st).
    destruct (walkDir (walkFn alwaysLive open root) (filepath.Join [p; name1]) name1 n1 st)
      as [s o].
    cbn [fst snd] in *. subst o. by rewrite IHrest, IHn, app_assoc.
Qed.

End TreeOrder.

(** X19. An uninterrupted walk gathers exactly the readable source files
    of the tree that lie outside its skipped directories, each once and in
    the order of the tree, and the scan returns the findings of these
    files in that order. *)
Theorem scan_follows_tree_order (lstat : string -> option node)
    (open : string -> fileContent) (req : ToolRequest) (rootNode : node) :
  let root := requestRoot req in
  let st := (scanWalk alwaysLive lstat open root).1 in
  root <> "" ->
  lstat root = Some rootNode ->
  files st = sourcesIn open root (filepath.Base root) rootNode
  /\ handleScan alwaysLive lstat open req
     = inl (concat (map (fileFindings (importGraph st) root)
                        (sourcesIn open root (filepath.Base root) rootNode))).
Proof.
  intros root st Hne Hl.
  assert (files st = sourcesIn open root (filepath.Base root) rootNode) as Hfiles.
  { subst st. unfold scanWalk, WalkDir. rewrite Hl.
    pose proof (proj1 (walkDir_walkEntries_sources open root) rootNode root
                  (filepath.Base root) (MkScan 0 [] ∅)) as H.
    destruct (walkDir (walkFn alwaysLive open root) root (filepath.Base root) rootNode
                (MkScan 0 [] ∅)) as [s o].
    exact H. }
  split; [exact Hfiles|].
  rewrite (handleScan_outcome alwaysLive lstat open req Hne). cbv zeta.
  fold root. fold st.
  pose proof (WalkDir_error alwaysLive open root (lstat root) (MkScan 0 [] ∅)) as He.
  apply live_no_error in He. unfold scanWalk. rewrite He.
  fold (scanWalk alwaysLive lstat open root). fold st.
  by rewrite analyzeAll_appends, Hfiles.
Qed.

(** X19 on the example workspace: the handler under [api], then the view
    under [web]; the copy under [vendor] is not among them. *)
Lemma scan_follows_tree_order_witness :
  map path (files (scanWalk alwaysLive exampleServiceLstat exampleServiceOpen "/srv").1)
  = ["/srv/api/users.go"; "/srv/web/login.py"]
  /\ files (scanWalk alwaysLive exampleServiceLstat exampleServiceOpen "/srv").1
     = sourcesIn exampleServiceOpen "/srv" "srv" exampleServiceTree.
Proof.
  split; [vm_compute; reflexivity|].
  refine (proj1 (scan_follows_tree_order exampleServiceLstat exampleServiceOpen
                   (MkToolRequest ∅ "/srv") exampleServiceTree _ _)).
  - vm_compute. discriminate.
  - reflexivity.
Defined.
